(** * Favorita hierarchical baselines: a model of the experiment notebook

    Shallow embedding of
    [experiments/hierarchical_baselines/nbs/run_favorita_baselines.ipynb]:
    the class [FavoritaHierarchicalDataset], the function [run_baselines]
    and the top-level script cell.

    The notebook is sequential glue over pandas, numpy, os, StatsForecast,
    HierarchicalForecast and datasetsforecast.  The glue is modelled as
    written; the statistical libraries are an interface ([Libs]) whose
    calls are recorded, with their arguments, in a log of events; the disk is
    a finite map from path strings to entries; exceptions are values.

    Frames are lists of rows in frame order, a row carrying its index label
    where the code goes by label.  Paths are compared as strings, without
    normalisation or links.  Times measured by [CodeTimer] and the values
    the script computes and never reads are left out. *)

From Stdlib Require Import QArith Ascii.
From stdpp Require Import base list strings gmap sorting pretty.

Set Default Proof Using "Type*".

(** ** Exceptions and outcomes *)

Inductive exn :=
  | AssertionError (msg : string)
  | KeyError (key : string)
  | ValueError (msg : string)
  | FileNotFoundError (path : string)
  | FileExistsError (path : string)
  | IsADirectoryError (path : string)
  | NotADirectoryError (path : string)
  | OSError (directory : string)
  | Exception (msg : string)
  | LibraryError (msg : string).

Inductive outcome (A : Type) :=
  | Ok (a : A)
  | Raise (e : exn).
Arguments Ok {A} a.
Arguments Raise {A} e.

(** ** pandas operations on frames held as lists of rows *)

(** [DataFrame.sort_values(by=[...])] on several columns is a stable sort
    (pandas uses a lexsort); [R] is the order induced by the [by] columns.
    Modelled by a stable insertion sort: a row is placed before the first row
    that is not strictly smaller, so rows with equal keys keep their order. *)
Section sort_values.
Context {A : Type} (R : relation A) `{!∀ x y, Decision (R x y)}.

Fixpoint sorted_insert (x : A) (l : list A) : list A :=
  match l with
  | [] => [x]
  | y :: l' => if decide (R x y) then x :: l else y :: sorted_insert x l'
  end.

Definition sort_values (l : list A) : list A := foldr sorted_insert [] l.
End sort_values.

(** Lexicographic orders on the sort keys. *)
Definition lex2 (a b : Z * Z) : Prop :=
  (a.1 < b.1 ∨ (a.1 = b.1 ∧ a.2 ≤ b.2))%Z.
Definition lex3 (a b : Z * (Z * Z)) : Prop :=
  (a.1 < b.1)%Z ∨ (a.1 = b.1 ∧ lex2 a.2 b.2).

Global Instance lex2_dec a b : Decision (lex2 a b).
Proof. unfold lex2. apply _. Defined.
Global Instance lex3_dec a b : Decision (lex3 a b).
Proof. unfold lex3. apply _. Defined.

(** The order a frame is sorted in, through the key of its rows. *)
Definition by_key {A K : Type} (le : relation K) (key : A → K) : relation A :=
  λ r1 r2, le (key r1) (key r2).
Global Typeclasses Opaque by_key lex2 lex3.
Global Instance by_key_dec {A K} (le : relation K) (key : A → K)
  `{!∀ x y, Decision (le x y)} r1 r2 : Decision (by_key le key r1 r2).
Proof. unfold by_key. apply _. Defined.

(** A categorical column: [astype('category')] followed by
    [cat.set_categories(categories)].  A value that is not one of the new
    categories becomes NaN ([None]); the category code of a value is its
    position among the categories, and NaN sorts last. *)
Definition set_categories (categories : list string) (u : option string)
  : option string :=
  u ≫= λ s, if decide (s ∈ categories) then Some s else None.

Fixpoint index_of (s : string) (l : list string) : option nat :=
  match l with
  | [] => None
  | x :: l' => if decide (x = s) then Some 0 else S <$> index_of s l'
  end.

Definition cat_code (categories : list string) (u : option string) : Z :=
  Z.of_nat (default (length categories) (u ≫= λ s, index_of s categories)).

(** [Index.get_indexer(labels)]: positions of the labels, [-1] when absent.
    It is called on [S_df.index] only after [set_categories] has accepted
    that index, so never on an index with repeated entries. *)
Definition get_indexer (index : list string) (labels : list string) : list Z :=
  (λ s, from_option Z.of_nat (-1)%Z (index_of s index)) <$> labels.

(** Python's [min] and [max] over the values of a column: [ValueError] on
    an empty column. *)
Definition py_min (l : list Z) : outcome Z :=
  match l with
  | [] => Raise (ValueError "min() arg is an empty sequence")
  | x :: l' => Ok (foldl Z.min x l')
  end.
Definition py_max (l : list Z) : outcome Z :=
  match l with
  | [] => Raise (ValueError "max() arg is an empty sequence")
  | x :: l' => Ok (foldl Z.max x l')
  end.

(** The last [n] elements of a list (all of them when it is shorter). *)
Definition lastn {A} (n : nat) (l : list A) : list A := drop (length l - n) l.


(** ** Values owned by the libraries *)

(** Types of the values the notebook only passes along: the numbers of the
    [y] column, the raw [ds] cells of the stored data set, the frames of base
    forecasts and fitted values, the forecast columns of a reconciled row,
    and the state of numpy's global random generator. *)
Class LibTypes := {
  Num : Type;
  RawDate : Type;
  Frame : Type;
  Payload : Type;
  Rng : Type
}.

(** [FavoritaInfo[dataset]]: the properties of a data set. *)
Record data_info := {
  horizon : nat;
  freq : string;
  seasonality : Z
}.

(** The summation frame [S_df]: one row per series, one column per
    bottom-level series. *)
Record S_frame := {
  S_index : list string;
  S_columns : list string;
  S_values : list (list Z)
}.

(** [tags]: a dict from level name to the series of that level, in
    insertion order. *)
Definition tags_t : Type := list (string * list string).

Inductive model :=
  | AutoARIMA (season_length : Z)
  | Naive.

Inductive reconciler :=
  | BottomUp
  | TopDown (method : string)
  | MinTrace (method : string) (mint_shr_ridge : option Q)
  | ERM (method : string).

Inductive entry :=
  | File (content : string)
  | Dir.

Section frames.
Context `{LibTypes}.

(** A row of the stored observation table, columns
    [item_id, hier_id, ds, y], under its row label. *)
Record raw_obs (D : Type) := {
  raw_label : Z;
  raw_item_id : Z;
  hier_id : option string;
  raw_ds : D;
  raw_y : Num
}.

(** A row of [data['Y_df']], columns [item_id, unique_id, ds, y]. *)
Record item_obs := {
  io_label : Z;
  io_item_id : Z;
  io_unique_id : option string;
  io_ds : Z;
  io_y : Num
}.

(** A row of [Y_df[['unique_id', 'ds', 'y']]]. *)
Record obs := {
  label : Z;
  unique_id : option string;
  ds : Z;
  y : Num
}.

(** A row of a frame indexed by [unique_id], columns [ds, y]. *)
Record series_obs := {
  s_unique_id : option string;
  s_ds : Z;
  s_y : Num
}.

(** A row of the frame [bootstrap_reconcile] returns, indexed by
    [unique_id]: [ds], the forecast columns, and [seed]. *)
Record rec_series := {
  rs_unique_id : option string;
  rs_ds : Z;
  rs_seed : Z;
  rs_values : Payload
}.

(** A row of the reconciled frame after [reset_index]. *)
Record rec_obs := {
  rec_label : Z;
  rec_unique_id : option string;
  rec_ds : Z;
  rec_seed : Z;
  rec_values : Payload
}.

(** The dict [load_item_data] returns. *)
Record item_data := {
  data_Y_df : list item_obs;
  data_S_df : S_frame;
  data_tags : tags_t;
  data_hier_idxs : list (list Z);
  data_hier_levels : list string;
  data_hier_linked_idxs : list (list Z);
  data_horizon : nat;
  data_freq : string;
  data_seasonality : Z
}.

(** The object [StatsForecast(df=, models=, fallback_model=, freq=,
    n_jobs=)]. *)
Record StatsForecast := {
  sf_df : list series_obs;
  sf_models : list model;
  sf_fallback_model : list model;
  sf_freq : string;
  sf_n_jobs : Z
}.

(** The arguments of
    [HierarchicalReconciliation(reconcilers).bootstrap_reconcile(...)]. *)
Record reconcile_call := {
  rc_reconcilers : list reconciler;
  rc_Y_hat_df : Frame;
  rc_Y_df : Frame;
  rc_S_df : S_frame;
  rc_tags : tags_t;
  rc_level : list Z;
  rc_intervals_method : string;
  rc_num_samples : Z;
  rc_num_seeds : Z
}.

(** What a run does that is visible from outside, besides the disk. *)
Inductive event :=
  | EvPrint (text : string)
  | EvCodeTimer (name : string)
  | EvFavoritaLoad (directory group : string)
  | EvStatsForecast (fcst : StatsForecast)
  | EvForecast (fcst : StatsForecast) (h : nat) (fitted : bool)
      (level : list Z)
  | EvForecastFittedValues (fcst : StatsForecast)
  | EvBootstrapReconcile (call : reconcile_call).

(** The disk and numpy's global random state. *)
Record state := {
  disk : gmap string entry;
  rng : Rng
}.
End frames.

Arguments raw_label {_ _} _.
Arguments raw_item_id {_ _} _.
Arguments hier_id {_ _} _.
Arguments raw_ds {_ _} _.
Arguments raw_y {_ _} _.
Arguments Build_raw_obs {_ _} _ _ _ _ _.

(** ** The libraries *)
Class Libs `{LibTypes} := {
  (** [Series + ndarray] on the [y] column, cell by cell *)
  num_add : Num → Num → Num;
  (** [pd.to_datetime] on one cell *)
  to_datetime : RawDate → outcome Z;
  (** [repr] of a [Timestamp] *)
  timestamp_repr : Z → string;
  (** [np.random.normal(loc, scale, size)] *)
  random_normal : Rng → Q → Q → nat → list Num * Rng;
  (** [FavoritaInfo[group]]: the properties of a group the library
      knows; for any other group the lookup raises a plain [Exception] *)
  FavoritaInfo : string → option data_info;
  (** [FavoritaData.load(directory, group)]; it reads the disk *)
  FavoritaData_load :
    gmap string entry → string → string →
    outcome (list (raw_obs RawDate) * S_frame * tags_t);
  (** [fcst.forecast(h, fitted, level)] *)
  forecast : StatsForecast → nat → bool → list Z → outcome Frame;
  (** [fcst.forecast_fitted_values()], after the [forecast] call with
      these arguments *)
  forecast_fitted_values :
    StatsForecast → nat → bool → list Z → outcome Frame;
  (** [is_strictly_hierarchical(S, tags)] *)
  is_strictly_hierarchical : list (list Z) → list (string * list Z) → bool;
  (** [hrec.bootstrap_reconcile(...)] *)
  bootstrap_reconcile : reconcile_call → outcome (list rec_series);
  (** the parser of [pd.read_csv] *)
  parse_csv : string → outcome Frame;
  (** [Frame.reset_index()], [Frame.set_index(name)] and the text
      [Frame.to_csv(index=False)] writes *)
  frame_reset_index : Frame → Frame;
  frame_set_index : string → Frame → outcome Frame;
  frame_to_csv : Frame → string;
  (** the text [Y_rec_df.to_csv(index=False)] writes *)
  rec_to_csv : list rec_obs → string
}.

(** ** The notebook *)
Section notebook.
Context `{Libs}.

(** Computations: they read and change the state, log events, and end
    with a value or an exception. What was done before an exception
    stays done. *)
Definition M (A : Type) : Type := state → outcome A * state * list event.

Global Instance M_ret : MRet M := λ A a s, (Ok a, s, []).
Global Instance M_bind : MBind M := λ A B k m s,
  match m s with
  | (Ok a, s1, t1) => let '(o, s2, t2) := k a s1 in (o, s2, t1 ++ t2)
  | (Raise e, s1, t1) => (Raise e, s1, t1)
  end.

Definition lift {A} (o : outcome A) : M A := λ s, (o, s, []).
Definition emit (e : event) : M () := λ s, (Ok (), s, [e]).
Definition print (text : string) : M () := emit (EvPrint text).
Definition get_disk : M (gmap string entry) := λ s, (Ok (disk s), s, []).
Definition put_disk (d : gmap string entry) : M () :=
  λ s, (Ok (), {| disk := d; rng := rng s |}, []).

(** [with CodeTimer(name, verbose): body]. The timer reports when the
    block is left, also by an exception; the time itself is not
    modelled. *)
Definition with_CodeTimer {A} (name : string) (verbose : bool)
    (body : M A) : M A := λ s,
  let '(o, s', t) := body s in
  (o, s', t ++ if verbose then [EvCodeTimer name] else []).

(** *** os *)

(** The directories above a path: its non-empty prefixes that end just
    before a [/]. *)
Fixpoint dir_prefixes (acc path : string) : list string :=
  match path with
  | EmptyString => []
  | String c path' =>
      (if decide (c = "/"%char ∧ acc ≠ "") then [acc] else [])
      ++ dir_prefixes (acc +:+ String c "") path'
  end.
Definition ancestors (path : string) : list string := dir_prefixes "" path.

Definition is_file (d : gmap string entry) (path : string) : bool :=
  match d !! path with
  | Some (File _) => true
  | _ => false
  end.

Definition os_path_exists (path : string) : M bool :=
  d ← get_disk; mret (bool_decide (is_Some (d !! path))).

(** The directory [os.makedirs] tries to create first: it goes up from
    [cur] through the directories above it, the closest first, for as long
    as they are missing. *)
Fixpoint first_to_create (d : gmap string entry) (cur : string)
    (above : list string) : string :=
  match above with
  | [] => cur
  | a :: above' =>
      if decide (is_Some (d !! a)) then cur else first_to_create d a above'
  end.

(** [os.makedirs(name, exist_ok=...)]: creates the directory and the
    missing directories above it.  Below a file nothing can be created:
    the error names the directory whose creation failed. *)
Definition os_makedirs (name : string) (exist_ok : bool) : M () :=
  d ← get_disk;
  match d !! name with
  | Some Dir =>
      if exist_ok then mret () else lift (Raise (FileExistsError name))
  | Some (File _) => lift (Raise (FileExistsError name))
  | None =>
      if existsb (is_file d) (ancestors name)
      then lift (Raise (NotADirectoryError
                          (first_to_create d name
                             (reverse (ancestors name)))))
      else put_disk (foldr (λ a, <[a:=Dir]>) d (ancestors name ++ [name]))
  end.

(** *** pandas *)

Definition pd_read_csv (path : string) : M Frame :=
  d ← get_disk;
  match d !! path with
  | Some (File content) => lift (parse_csv content)
  | Some Dir => lift (Raise (IsADirectoryError path))
  | None => lift (Raise (FileNotFoundError path))
  end.

(** [df.to_csv(path, index=False)], for the text [content].  pandas
    first checks that the directory of the file is there, and raises an
    [OSError] that names it when it is not; then it opens the file for
    writing. *)
Definition open_for_writing (content : string) (path : string) : M () :=
  d ← get_disk;
  match d !! path with
  | Some Dir => lift (Raise (IsADirectoryError path))
  | _ => put_disk (<[path:=File content]> d)
  end.

Definition write_csv (content : string) (path : string) : M () :=
  d ← get_disk;
  match last (ancestors path) with
  | Some parent =>
      match d !! parent with
      | Some Dir => open_for_writing content path
      | _ => lift (Raise (OSError parent))
      end
  | None => open_for_writing content path
  end.

(** [Y_df.groupby('unique_id').tail(n)]: a row is kept when fewer than
    [n] rows of its series follow it; rows whose key is NaN belong to no
    group. *)
Definition in_tail (n : nat) (r : obs) (rest : list obs) : bool :=
  bool_decide
    (is_Some (unique_id r) ∧
     length (filter (λ r', unique_id r' = unique_id r) rest) < n).

Fixpoint groupby_tail (n : nat) (df : list obs) : list obs :=
  match df with
  | [] => []
  | r :: df' =>
      if in_tail n r df' then r :: groupby_tail n df'
      else groupby_tail n df'
  end.

(** [Y_df.drop(labels)]: drops every row whose label is listed. The
    labels passed are labels of the frame, so no [KeyError]. *)
Definition df_drop (labels : list Z) (df : list obs) : list obs :=
  filter (λ r, label r ∉ labels) df.

(** [df.set_index('unique_id')]: the row labels are replaced. *)
Definition set_index_unique_id (df : list obs) : list series_obs :=
  (λ r, {| s_unique_id := unique_id r; s_ds := ds r; s_y := y r |}) <$> df.

(** [df.reset_index()] on a frame indexed by [unique_id]: the index
    becomes a column again and the rows are labelled [0, 1, ...]. *)
Definition reset_index (df : list series_obs) : list obs :=
  imap (λ i r, {| label := Z.of_nat i; unique_id := s_unique_id r;
                  ds := s_ds r; y := s_y r |}) df.
Definition rec_reset_index (df : list rec_series) : list rec_obs :=
  imap (λ i r, {| rec_label := Z.of_nat i; rec_unique_id := rs_unique_id r;
                  rec_ds := rs_ds r; rec_seed := rs_seed r;
                  rec_values := rs_values r |}) df.

(** [df[['unique_id', 'ds', 'y']]] *)
Definition select_columns (df : list item_obs) : list obs :=
  (λ r, {| label := io_label r; unique_id := io_unique_id r;
           ds := io_ds r; y := io_y r |}) <$> df.

(** [df.unique_id = df.unique_id.astype('category')] and
    [df.unique_id = df.unique_id.cat.set_categories(index)], on the three
    kinds of frame. *)
Definition item_set_categories (index : list string) (df : list item_obs)
    : list item_obs :=
  (λ r, {| io_label := io_label r; io_item_id := io_item_id r;
           io_unique_id := set_categories index (io_unique_id r);
           io_ds := io_ds r; io_y := io_y r |}) <$> df.
Definition obs_set_categories (index : list string) (df : list obs)
    : list obs :=
  (λ r, {| label := label r;
           unique_id := set_categories index (unique_id r);
           ds := ds r; y := y r |}) <$> df.
Definition rec_set_categories (index : list string) (df : list rec_obs)
    : list rec_obs :=
  (λ r, {| rec_label := rec_label r;
           rec_unique_id := set_categories index (rec_unique_id r);
           rec_ds := rec_ds r; rec_seed := rec_seed r;
           rec_values := rec_values r |}) <$> df.

(** [cat.set_categories(index)] raises when the categories repeat. *)
Definition check_categories (categories : list string) : outcome () :=
  if decide (NoDup categories) then Ok ()
  else Raise (ValueError "Categorical categories must be unique").

(** *** numpy *)

Definition np_random_normal (loc scale : Q) (size : nat) : M (list Num) :=
  λ s, let '(v, g) := random_normal (rng s) loc scale size in
       (Ok v, {| disk := disk s; rng := g |}, []).

(** [np.nonzero(v)[0]] *)
Definition np_nonzero (v : list Z) : list Z :=
  (λ p, Z.of_nat p.1) <$> filter (λ p, p.2 ≠ 0%Z) (imap pair v).

(** [M.T] for a matrix with [ncols] columns. *)
Definition transpose (ncols : nat) (m : list (list Z)) : list (list Z) :=
  (λ j, (λ row, row !!! j) <$> m) <$> seq 0 ncols.

Definition np_arange (n : nat) : list Z := Z.of_nat <$> seq 0 n.

(** *** class FavoritaHierarchicalDataset *)

Definition available_datasets : list string :=
  ["Favorita200"; "Favorita500"; "FavoritaComplete"].

(** The order of [sort_values(by=['unique_id', 'ds'])] on a frame whose
    [unique_id] has the categories [index]. *)
Definition item_key (index : list string) (r : item_obs) : Z * Z :=
  (cat_code index (io_unique_id r), io_ds r).

Definition _sort_hier_df (Y_df : list item_obs) (S_df : S_frame)
    : outcome (list item_obs) :=
  match check_categories (S_index S_df) with
  | Raise e => Raise e
  | Ok _ =>
      let Y_df := item_set_categories (S_index S_df) Y_df in
      Ok (sort_values (by_key lex2 (item_key (S_index S_df))) Y_df)
  end.

Definition _nonzero_indexes_by_row (M : list (list Z)) : list (list Z) :=
  (λ row, np_nonzero (M !!! row)) <$> seq 0 (length M).

(** [Y_df['ds'] = pd.to_datetime(Y_df['ds'])] *)
Fixpoint parse_ds (Y_df : list (raw_obs RawDate))
    : outcome (list (raw_obs Z)) :=
  match Y_df with
  | [] => Ok []
  | r :: Y_df' =>
      match to_datetime (raw_ds r) with
      | Raise e => Raise e
      | Ok d =>
          match parse_ds Y_df' with
          | Raise e => Raise e
          | Ok l =>
              Ok (Build_raw_obs (raw_label r) (raw_item_id r) (hier_id r)
                    d (raw_y r) :: l)
          end
      end
  end.

(** [Y_df.rename(columns={'hier_id': 'unique_id'})] *)
Definition rename_hier_id (r : raw_obs Z) : item_obs :=
  {| io_label := raw_label r; io_item_id := raw_item_id r;
     io_unique_id := hier_id r; io_ds := raw_ds r; io_y := raw_y r |}.

(** [Y_df['y'] = Y_df['y'] + noise] *)
Definition add_noise (Y_df : list item_obs) (noise : list Num)
    : outcome (list item_obs) :=
  if decide (length noise = length Y_df) then
    Ok (zip_with (λ r e,
          {| io_label := io_label r; io_item_id := io_item_id r;
             io_unique_id := io_unique_id r; io_ds := io_ds r;
             io_y := num_add (io_y r) e |}) Y_df noise)
  else Raise (ValueError "operands could not be broadcast together").

Definition load_item_data (item_id : Z) (dataset directory : string)
    : M item_data :=
  (* Load data *)
  data_info ← lift (from_option Ok
                      (Raise (Exception ("Unkown group " +:+ dataset)))
                      (FavoritaInfo dataset));
  emit (EvFavoritaLoad directory dataset);;
  d ← get_disk;
  '(Y_df, S_df, tags) ← lift (FavoritaData_load d directory dataset);
  (* Parse and augment data *)
  Y_df ← lift (parse_ds Y_df);
  let Y_df := filter (λ r, raw_item_id r = item_id) Y_df in
  let Y_df := rename_hier_id <$> Y_df in
  Y_df ← lift (_sort_hier_df Y_df S_df);
  (* Obtain indexes for plots and evaluation *)
  let hier_levels := "Overall" :: tags.*1 in
  let hier_idxs :=
    np_arange (length (S_index S_df))
    :: ((λ level, get_indexer (S_index S_df) level.2) <$> tags) in
  let hier_linked_idxs :=
    _nonzero_indexes_by_row
      (transpose (length (S_columns S_df)) (S_values S_df)) in
  (* minimal normal noise *)
  noise ← np_random_normal 0%Q (1 # 100)%Q (length Y_df);
  Y_df ← lift (add_noise Y_df noise);
  (* Final output *)
  mret {| data_Y_df := Y_df; data_S_df := S_df; data_tags := tags;
          data_hier_idxs := hier_idxs;
          data_hier_levels := hier_levels;
          data_hier_linked_idxs := hier_linked_idxs;
          data_horizon := horizon data_info;
          data_freq := freq data_info;
          data_seasonality := seasonality data_info |}.

(** *** run_baselines *)

Definition nl : string := String (ascii_of_nat 10) "".
Definition tab : string := String (ascii_of_nat 9) "".

(** The variables the block 'Read and Parse data' leaves behind. *)
Record split_vars := {
  sv_S_df : S_frame;
  sv_tags : tags_t;
  sv_horizon : nat;
  sv_seasonality : Z;
  sv_freq : string;
  sv_Y_test_df : list series_obs;
  sv_Y_train_df : list series_obs
}.

(** The variables the block 'Fit/Predict Model' leaves behind. *)
Record base_vars := {
  bv_Y_hat_df : Frame;
  bv_Y_fitted_df : Frame;
  bv_yrec_file : string
}.

Definition item_path (dataset : string) (item_id : Z) : string :=
  "./data/" +:+ dataset +:+ "/" +:+ pretty item_id.
Definition yhat_file (dataset : string) (item_id : Z) : string :=
  item_path dataset item_id +:+ "/Y_hat.csv".
Definition yfitted_file (dataset : string) (item_id : Z) : string :=
  item_path dataset item_id +:+ "/Y_fitted.csv".
Definition yrec_file (intervals_method dataset : string) (item_id : Z)
    : string :=
  item_path dataset item_id +:+ "/" +:+ intervals_method +:+ "_rec.csv".

Definition read_and_parse (item_id : Z) (dataset : string)
    : M split_vars :=
  data ← load_item_data item_id dataset "./data/favorita";
  let Y_df := select_columns (data_Y_df data) in
  let S_df := data_S_df data in
  let tags := data_tags data in
  let horizon := data_horizon data in
  let seasonality := data_seasonality data in
  let freq := data_freq data in
  (* Train/Test Splits *)
  let Y_test_df := groupby_tail horizon Y_df in
  let Y_train_df := df_drop (label <$> Y_test_df) Y_df in
  let Y_test_df := set_index_unique_id Y_test_df in
  let Y_train_df := set_index_unique_id Y_train_df in
  let dataset_str :=
    dataset +:+ " item_id=" +:+ pretty item_id +:+ ", h="
      +:+ pretty horizon +:+ " " in
  let dataset_str :=
    dataset_str +:+ "n_series=" +:+ pretty (length (S_index S_df))
      +:+ ", n_bottom=" +:+ pretty (length (S_columns S_df))
      +:+ " " +:+ nl in
  lo ← lift (py_min (s_ds <$> Y_test_df));
  hi ← lift (py_max (s_ds <$> Y_test_df));
  let dataset_str :=
    dataset_str +:+ "test ds=[(" +:+ timestamp_repr lo +:+ ", "
      +:+ timestamp_repr hi +:+ ")] " in
  print dataset_str;;
  mret {| sv_S_df := S_df; sv_tags := tags; sv_horizon := horizon;
          sv_seasonality := seasonality; sv_freq := freq;
          sv_Y_test_df := Y_test_df; sv_Y_train_df := Y_train_df |}.

(** [StatsForecast(df=Y_train_df, models=[AutoARIMA(season_length=
    seasonality)], fallback_model=[Naive()], freq=freq, n_jobs=-1)] *)
Definition fcst_for (v : split_vars) : StatsForecast :=
  {| sf_df := sv_Y_train_df v;
     sf_models := [AutoARIMA (sv_seasonality v)];
     sf_fallback_model := [Naive];
     sf_freq := sv_freq v;
     sf_n_jobs := -1 |}.

Definition fit_predict (LEVEL : list Z) (intervals_method : string)
    (item_id : Z) (dataset : string) (v : split_vars) : M base_vars :=
  (* Read to avoid unnecesary AutoARIMA computation *)
  os_makedirs (item_path dataset item_id) true;;
  cached ← os_path_exists (yhat_file dataset item_id);
  '(Y_hat_df, Y_fitted_df) ←
    (if cached : bool then
       Y_hat_df ← pd_read_csv (yhat_file dataset item_id);
       Y_fitted_df ← pd_read_csv (yfitted_file dataset item_id);
       mret (Y_hat_df, Y_fitted_df)
     else
       there ← os_path_exists ("./data/" +:+ dataset);
       (if there : bool then mret ()
        else os_makedirs ("./data/" +:+ dataset) false);;
       let fcst := fcst_for v in
       emit (EvStatsForecast fcst);;
       emit (EvForecast fcst (sv_horizon v) true LEVEL);;
       Y_hat_df ← lift (forecast fcst (sv_horizon v) true LEVEL);
       emit (EvForecastFittedValues fcst);;
       Y_fitted_df ←
         lift (forecast_fitted_values fcst (sv_horizon v) true LEVEL);
       let Y_hat_df := frame_reset_index Y_hat_df in
       let Y_fitted_df := frame_reset_index Y_fitted_df in
       write_csv (frame_to_csv Y_hat_df) (yhat_file dataset item_id);;
       write_csv (frame_to_csv Y_fitted_df) (yfitted_file dataset item_id);;
       mret (Y_hat_df, Y_fitted_df));
  Y_hat_df ← lift (frame_set_index "unique_id" Y_hat_df);
  Y_fitted_df ← lift (frame_set_index "unique_id" Y_fitted_df);
  mret {| bv_Y_hat_df := Y_hat_df; bv_Y_fitted_df := Y_fitted_df;
          bv_yrec_file := yrec_file intervals_method dataset item_id |}.

Definition strict_reconcilers : list reconciler :=
  [ BottomUp;
    TopDown "average_proportions";
    TopDown "proportion_averages";
    MinTrace "ols" None;
    MinTrace "mint_shrink" (Some (1 # 1000000)%Q);
    ERM "closed" ].
Definition non_strict_reconcilers : list reconciler :=
  [ BottomUp;
    MinTrace "ols" None;
    MinTrace "mint_shrink" (Some (1 # 1000000)%Q);
    ERM "closed" ].

(** The orders of the two [sort_values] calls of the alignment. *)
Definition obs_key (index : list string) (r : obs) : Z * Z :=
  (cat_code index (unique_id r), ds r).
Definition rec_key (index : list string) (r : rec_obs) : Z * (Z * Z) :=
  (rec_seed r, (cat_code index (rec_unique_id r), rec_ds r)).

(** The reconcilers chosen, and the call
    [hrec.bootstrap_reconcile(Y_hat_df=, Y_df=, S_df=, tags=, level=,
    intervals_method=, num_samples=10, num_seeds=10)]. *)
Definition reconcilers_for (S_df : S_frame) (tags : tags_t)
    : list reconciler :=
  if is_strictly_hierarchical (S_values S_df)
       ((λ kv, (kv.1, get_indexer (S_index S_df) kv.2)) <$> tags)
  then strict_reconcilers
  else non_strict_reconcilers.

Definition reconcile_call_for (LEVEL : list Z) (intervals_method : string)
    (v : split_vars) (b : base_vars) : reconcile_call :=
  {| rc_reconcilers := reconcilers_for (sv_S_df v) (sv_tags v);
     rc_Y_hat_df := bv_Y_hat_df b;
     rc_Y_df := bv_Y_fitted_df b;
     rc_S_df := sv_S_df v; rc_tags := sv_tags v;
     rc_level := LEVEL;
     rc_intervals_method := intervals_method;
     rc_num_samples := 10; rc_num_seeds := 10 |}.

Definition reconcile_predictions (LEVEL : list Z)
    (intervals_method : string) (v : split_vars) (b : base_vars)
    : M (list rec_obs * list obs * list series_obs) :=
  let S_df := sv_S_df v in
  let call := reconcile_call_for LEVEL intervals_method v b in
  emit (EvBootstrapReconcile call);;
  Y_rec_df ← lift (bootstrap_reconcile call);
  (* Matching Y_test/Y_rec/S index ordering *)
  let Y_test_df := reset_index (sv_Y_test_df v) in
  lift (check_categories (S_index S_df));;
  let Y_test_df := obs_set_categories (S_index S_df) Y_test_df in
  let Y_test_df :=
    sort_values (by_key lex2 (obs_key (S_index S_df))) Y_test_df in
  let Y_rec_df := rec_reset_index Y_rec_df in
  lift (check_categories (S_index S_df));;
  let Y_rec_df := rec_set_categories (S_index S_df) Y_rec_df in
  let Y_rec_df :=
    sort_values (by_key lex3 (rec_key (S_index S_df))) Y_rec_df in
  write_csv (rec_to_csv Y_rec_df) (bv_yrec_file b);;
  mret (Y_rec_df, Y_test_df, sv_Y_train_df v).

(** [LEVEL] is the global the function reads when it runs; [seed] is
    accepted and not used. *)
Definition run_baselines (LEVEL : list Z) (intervals_method : string)
    (item_id : Z) (dataset : string) (verbose : bool) (seed : Z)
    : M (list rec_obs * list obs * list series_obs) :=
  v ← with_CodeTimer "Read and Parse data   " verbose
        (read_and_parse item_id dataset);
  b ← with_CodeTimer ("Fit/Predict Model" +:+ tab +:+ "  ") verbose
        (fit_predict LEVEL intervals_method item_id dataset v);
  with_CodeTimer "Reconcile Predictions " verbose
    (reconcile_predictions LEVEL intervals_method v b).

(** *** The script cell *)

Definition py_assert (cond : bool) (msg : string) : M () :=
  if cond then mret () else lift (Raise (AssertionError msg)).

(** [str.upper], on ASCII letters. *)
Definition ascii_upper (c : ascii) : ascii :=
  let n := nat_of_ascii c in
  if decide (97 ≤ n ≤ 122) then ascii_of_nat (n - 32) else c.
Fixpoint upper (s : string) : string :=
  match s with
  | EmptyString => EmptyString
  | String c s' => String (ascii_upper c) (upper s')
  end.

Fixpoint for_each {A} (l : list A) (body : A → M ()) : M () :=
  match l with
  | [] => mret ()
  | x :: l' => body x;; for_each l' body
  end.

(** [np.arange(0, 100, 2)] *)
Definition LEVEL_default : list Z := (λ i, 2 * Z.of_nat i)%Z <$> seq 0 50.

(** The last cell, as a function of the execution parameters it
    parses. [qs], [QUANTILES] and [items] are computed and never read;
    they are left out. *)
Definition script (verbose : bool) (intervals_method dataset : string)
    : M () :=
  py_assert (bool_decide
               (intervals_method ∈ ["bootstrap"; "normality"; "permbu"]))
    "Select `--intervals_method` from ['bootstrap', 'normality', 'permbu']";;
  let available_datasets :=
    ["Favorita200"; "Favorita500"; "FavoritaComplete"] in
  py_assert (bool_decide (dataset ∈ available_datasets))
    "Select `--dataset` from ['Favorita200', 'Favorita500', 'FavoritaComplete']";;
  let LEVEL := LEVEL_default in
  (* Run experiments *)
  emit (EvFavoritaLoad "./data/favorita/" "Favorita200");;
  d ← get_disk;
  _ ← lift (FavoritaData_load d "./data/favorita/" "Favorita200");
  print nl;;
  print (upper intervals_method +:+ " " +:+ dataset
           +:+ " statistical baselines evaluation " +:+ nl);;
  for_each [112830; 1916577]%Z (λ item_id,
    _ ← run_baselines LEVEL intervals_method item_id dataset verbose 0;
    print nl).

(** The cell as it stands in the notebook. *)
Definition main : M () := script true "bootstrap" "Favorita200".
End notebook.

Global Arguments item_path : simpl never.
Global Arguments yhat_file : simpl never.
Global Arguments yfitted_file : simpl never.
Global Arguments yrec_file : simpl never.

(** ** The evaluation helpers of the class *)

(** numpy arrays and the losses of [hierarchicalforecast.evaluation].
    [take_series A idxs] is [A[:, idxs, :]] (and [A[:, idxs, :, :]]): the
    selection along the second axis by an array of positions, which
    raises for a position out of bounds. *)
Class ScoreLibs := {
  Array : Type;
  Score : Type;
  take_series : Array → list Z → outcome Array;
  scaled_crps : Array → Array → Array → outcome Score;
  msse : Array → Array → Array → outcome Score
}.

Section scores.
Context `{ScoreLibs}.

Fixpoint _get_hierarchical_scrps (hier_idxs : list (list Z))
    (Y Yq_hat q_to_pred : Array) : outcome (list Score) :=
  match hier_idxs with
  | [] => Ok []
  | idxs :: hier_idxs' =>
      match take_series Y idxs with
      | Raise e => Raise e
      | Ok y =>
          match take_series Yq_hat idxs with
          | Raise e => Raise e
          | Ok yq_hat =>
              match scaled_crps y yq_hat q_to_pred with
              | Raise e => Raise e
              | Ok scrps =>
                  match _get_hierarchical_scrps hier_idxs' Y Yq_hat
                          q_to_pred with
                  | Raise e => Raise e
                  | Ok scrps_list => Ok (scrps :: scrps_list)
                  end
              end
          end
      end
  end.

Fixpoint _get_hierarchical_msse (hier_idxs : list (list Z))
    (Y Y_hat Y_train : Array) : outcome (list Score) :=
  match hier_idxs with
  | [] => Ok []
  | idxs :: hier_idxs' =>
      match take_series Y idxs with
      | Raise e => Raise e
      | Ok y =>
          match take_series Y_hat idxs with
          | Raise e => Raise e
          | Ok y_hat =>
              match take_series Y_train idxs with
              | Raise e => Raise e
              | Ok y_train =>
                  match msse y y_hat y_train with
                  | Raise e => Raise e
                  | Ok crps =>
                      match _get_hierarchical_msse hier_idxs' Y Y_hat
                              Y_train with
                      | Raise e => Raise e
                      | Ok msse_list => Ok (crps :: msse_list)
                      end
                  end
              end
          end
      end
  end.
End scores.

(** ** Vocabulary of the properties *)
Section vocabulary.
Context `{Libs}.

(** The rows of the series [u], in the order of the frame. *)
Definition series (u : string) (df : list obs) : list obs :=
  filter (λ r, unique_id r = Some u) df.

(** The rows [groupby('unique_id').tail(n)] leaves out. *)
Fixpoint groupby_rest (n : nat) (df : list obs) : list obs :=
  match df with
  | [] => []
  | r :: df' =>
      if in_tail n r df' then groupby_rest n df'
      else r :: groupby_rest n df'
  end.

(** Events of model fitting, and of reconciliation. *)
Definition is_fit (e : event) : Prop :=
  match e with
  | EvStatsForecast _ | EvForecast _ _ _ _ | EvForecastFittedValues _ =>
      True
  | _ => False
  end.
Definition is_reconcile (e : event) : Prop :=
  match e with
  | EvBootstrapReconcile _ => True
  | _ => False
  end.

Definition quiet (e : event) : Prop := ¬is_fit e ∧ ¬is_reconcile e.

Definition is_TopDown (r : reconciler) : Prop :=
  match r with
  | TopDown _ => True
  | _ => False
  end.
Global Instance is_TopDown_dec r : Decision (is_TopDown r).
Proof. destruct r; simpl; apply _. Defined.

(** The order of a frame indexed by [unique_id]. *)
Definition series_key (index : list string) (r : series_obs) : Z * Z :=
  (cat_code index (s_unique_id r), s_ds r).

(** The seeds a reconciled frame has for a series and a date. *)
Definition seeds_at (df : list rec_obs) (u : option string) (d : Z)
    : list Z :=
  rec_seed <$> filter (λ r, rec_unique_id r = u ∧ rec_ds r = d) df.

(** Model fitting is performed: a [StatsForecast] is constructed and
    its [forecast] is called. *)
Definition fitting_performed (t : list event) : Prop :=
  ∃ fcst h fitted level,
    EvStatsForecast fcst ∈ t ∧ EvForecast fcst h fitted level ∈ t.

(** Every frame handed to [StatsForecast] holds bottom-level series
    only, the series that are columns of the summation frame. *)
Definition fits_bottom_level_only (S_df : S_frame) (t : list event)
    : Prop :=
  ∀ fcst, EvStatsForecast fcst ∈ t →
    Forall (λ r, ∃ u, s_unique_id r = Some u ∧ u ∈ S_columns S_df)
      (sf_df fcst).

(** The three components of what a computation gives at a state. *)
Definition result_of {A} (r : outcome A * state * list event) : outcome A :=
  r.1.1.
Definition state_of {A} (r : outcome A * state * list event) : state :=
  r.1.2.
Definition events_of {A} (r : outcome A * state * list event)
    : list event := r.2.
End vocabulary.

(** ** Vocabulary of the properties of the disk, the log and the scores *)
Section disk_vocabulary.
Context `{Libs}.

(** The reports of [CodeTimer]. *)
Definition is_timer (e : event) : Prop :=
  match e with
  | EvCodeTimer _ => True
  | _ => False
  end.
Global Instance is_timer_dec e : Decision (is_timer e).
Proof. destruct e; simpl; apply _. Defined.

(** A computation that logs events of one kind only. *)
Definition logs {A} (P : event → Prop) (m : M A) : Prop :=
  ∀ s o s1 t1, m s = (o, s1, t1) → Forall P t1.

(** The entries of the disk [d] are still there in [d'], but for the
    files at [paths], which may have been written again. *)
Definition entries_kept (paths : list string) (d d' : gmap string entry)
    : Prop :=
  ∀ p e, d !! p = Some e → e = Dir ∨ p ∉ paths → d' !! p = Some e.

(** A computation that keeps the entries of the disk, however it ends. *)
Definition keeps {A} (paths : list string) (m : M A) : Prop :=
  ∀ s o s1 t1, m s = (o, s1, t1) → entries_kept paths (disk s) (disk s1).
End disk_vocabulary.

Section score_vocabulary.
Context `{ScoreLibs}.

(** What one turn of the loop of [_get_hierarchical_scrps] gives for
    the positions [idxs]: the score, or the exception of the first step
    that raises. *)
Definition scrps_of (Y Yq_hat q_to_pred : Array) (idxs : list Z)
    (o : outcome Score) : Prop :=
  match o with
  | Ok scrps =>
      ∃ y yq_hat,
        take_series Y idxs = Ok y ∧ take_series Yq_hat idxs = Ok yq_hat ∧
        scaled_crps y yq_hat q_to_pred = Ok scrps
  | Raise e =>
      take_series Y idxs = Raise e
      ∨ (∃ y, take_series Y idxs = Ok y ∧ take_series Yq_hat idxs = Raise e)
      ∨ (∃ y yq_hat,
           take_series Y idxs = Ok y ∧ take_series Yq_hat idxs = Ok yq_hat ∧
           scaled_crps y yq_hat q_to_pred = Raise e)
  end.

(** The same for one turn of the loop of [_get_hierarchical_msse]. *)
Definition msse_of (Y Y_hat Y_train : Array) (idxs : list Z)
    (o : outcome Score) : Prop :=
  match o with
  | Ok crps =>
      ∃ y y_hat y_train,
        take_series Y idxs = Ok y ∧ take_series Y_hat idxs = Ok y_hat ∧
        take_series Y_train idxs = Ok y_train ∧
        msse y y_hat y_train = Ok crps
  | Raise e =>
      take_series Y idxs = Raise e
      ∨ (∃ y, take_series Y idxs = Ok y ∧ take_series Y_hat idxs = Raise e)
      ∨ (∃ y y_hat,
           take_series Y idxs = Ok y ∧ take_series Y_hat idxs = Ok y_hat ∧
           take_series Y_train idxs = Raise e)
      ∨ (∃ y y_hat y_train,
           take_series Y idxs = Ok y ∧ take_series Y_hat idxs = Ok y_hat ∧
           take_series Y_train idxs = Ok y_train ∧
           msse y y_hat y_train = Raise e)
  end.
End score_vocabulary.

(** ** A small hierarchy to run the model on

    Two stores [a] and [b] under [total]; two items with three days of
    sales per series; horizon one.  The libraries are stand-ins that return
    fixed frames, so that a run can be evaluated. *)
Module Fixture.
Global Instance types : LibTypes :=
  {| Num := Z; RawDate := Z; Frame := string; Payload := Z; Rng := nat |}.

Definition S_df : S_frame :=
  {| S_index := ["total"; "a"; "b"];
     S_columns := ["a"; "b"];
     S_values := [[1; 1]; [1; 0]; [0; 1]]%Z |}.

Definition tags : tags_t :=
  [("Country", ["total"]); ("Country/Store", ["a"; "b"])].

Definition sales_of (first_label item : Z) (id : string) (sales : Z)
    : list (raw_obs Z) :=
  (λ i, Build_raw_obs (first_label + Z.of_nat i)%Z item (Some id)
          (Z.of_nat i) (sales + Z.of_nat i)%Z) <$> seq 0 3.

Definition Y_all_df : list (raw_obs Z) :=
  sales_of 0 112830 "b" 5 ++ sales_of 3 112830 "total" 15
  ++ sales_of 6 112830 "a" 10 ++ sales_of 9 1916577 "a" 1
  ++ sales_of 12 1916577 "b" 2 ++ sales_of 15 1916577 "total" 3.

Definition reconciled (call : reconcile_call) : list rec_series :=
  s ← seq 0 (Z.to_nat (rc_num_seeds call));
  u ← S_index (rc_S_df call);
  [ {| rs_unique_id := Some u; rs_ds := 3; rs_seed := Z.of_nat s;
       rs_values := 0%Z |} ].

Global Instance libs : Libs :=
  {| num_add := Z.add;
     to_datetime := Ok;
     timestamp_repr := pretty;
     random_normal := λ g _ _ n, (Z.of_nat <$> seq g n, g + n);
     FavoritaInfo := λ dataset,
       if decide (dataset = "Favorita200")
       then Some {| horizon := 1; freq := "D"; seasonality := 7 |}
       else None;
     FavoritaData_load := λ _ _ _, Ok (Y_all_df, S_df, tags);
     forecast := λ _ _ _ _, Ok "Y_hat";
     forecast_fitted_values := λ _ _ _ _, Ok "Y_fitted";
     is_strictly_hierarchical := λ _ _, true;
     bootstrap_reconcile := λ call, Ok (reconciled call);
     parse_csv := Ok;
     frame_reset_index := id;
     frame_set_index := λ _ f, Ok f;
     frame_to_csv := id;
     rec_to_csv := λ df, pretty (length df) |}.

(** A row of a selected frame. *)
Definition row (l : Z) (u : option string) (d v : Z) : obs :=
  {| label := l; unique_id := u; ds := d; y := v |}.

(** An empty disk, and a disk that holds the cache of item 112830. *)
Definition fresh : state := {| disk := ∅; rng := 0 |}.
Definition cached : state :=
  {| disk :=
       <[yhat_file "Favorita200" 112830 := File "old_hat"]>
         (<[yfitted_file "Favorita200" 112830 := File "old_fitted"]>
            (<[item_path "Favorita200" 112830 := Dir]> ∅));
     rng := 0 |}.

Definition run (intervals_method : string) (s : state) :=
  run_baselines LEVEL_default intervals_method 112830 "Favorita200"
    false 0 s.

(** What the two runs give, evaluated. *)
Definition fresh_run := Eval vm_compute in run "bootstrap" fresh.
Definition cached_run := Eval vm_compute in run "normality" cached.
(** A disk with half a cache: [Y_hat.csv] of item 112830 without its
    [Y_fitted.csv], and a file of the data set. *)
Definition partial : state :=
  {| disk :=
       <[yhat_file "Favorita200" 112830 := File "old_hat"]>
         (<[item_path "Favorita200" 112830 := Dir]>
            (<["./data/favorita/favorita.csv" := File "raw"]> ∅));
     rng := 0 |}.

(** Arrays with one number per series; a position is in bounds from
    [-n] to [n - 1], the negative ones counted from the end. *)
Definition take_positions (A : list Z) (idxs : list Z) : outcome (list Z) :=
  let n := Z.of_nat (length A) in
  if decide (Forall (λ k, -n ≤ k < n)%Z idxs)
  then Ok ((λ k, A !!! Z.to_nat (k `mod` n)) <$> idxs)
  else Raise (LibraryError "index out of bounds").

Global Instance score_libs : ScoreLibs :=
  {| Array := list Z;
     Score := Z;
     take_series := take_positions;
     scaled_crps := λ y yq_hat _,
       Ok (foldr Z.add 0 y - foldr Z.add 0 yq_hat)%Z;
     msse := λ y y_hat y_train,
       Ok (foldr Z.add 0 y - foldr Z.add 0 y_hat + foldr Z.add 0 y_train)%Z
  |}.

(** The rows of the stored table, with [hier_id] as [unique_id]. *)
Definition Y_renamed : list item_obs := rename_hier_id <$> Y_all_df.

(** A stored table that numbers the rows of each series from 0, so that
    labels repeat across series, and the libraries with a loader that
    returns it. *)
Definition Y_repeated_df : list (raw_obs Z) :=
  [ Build_raw_obs 0 112830 (Some "a") 0 1;
    Build_raw_obs 1 112830 (Some "a") 1 2;
    Build_raw_obs 0 112830 (Some "b") 0 5;
    Build_raw_obs 1 112830 (Some "b") 1 6;
    Build_raw_obs 2 112830 (Some "b") 2 7 ]%Z.

Definition libs_repeated : Libs :=
  {| num_add := Z.add;
     to_datetime := Ok;
     timestamp_repr := pretty;
     random_normal := λ g _ _ n, (Z.of_nat <$> seq g n, g + n);
     FavoritaInfo := λ dataset,
       if decide (dataset = "Favorita200")
       then Some {| horizon := 1; freq := "D"; seasonality := 7 |}
       else None;
     FavoritaData_load := λ _ _ _, Ok (Y_repeated_df, S_df, tags);
     forecast := λ _ _ _ _, Ok "Y_hat";
     forecast_fitted_values := λ _ _ _ _, Ok "Y_fitted";
     is_strictly_hierarchical := λ _ _, true;
     bootstrap_reconcile := λ call, Ok (reconciled call);
     parse_csv := Ok;
     frame_reset_index := id;
     frame_set_index := λ _ f, Ok f;
     frame_to_csv := id;
     rec_to_csv := λ df, pretty (length df) |}.
End Fixture.

(** ** Facts about the stable sort *)
Section sort_values_facts.
Context {A : Type} (R : relation A) `{!∀ x y, Decision (R x y)}.

Lemma sorted_insert_Permutation x l : sorted_insert R x l ≡ₚ x :: l.
Proof.
  induction l as [|y l IH]; simpl; [done|].
  case_decide; [done|]. rewrite IH. apply Permutation_swap.
Qed.

Lemma sort_values_Permutation l : sort_values R l ≡ₚ l.
Proof.
  induction l as [|x l IH]; simpl; [done|].
  by rewrite sorted_insert_Permutation, IH.
Qed.

Lemma sorted_insert_sorted `{!Total R, !Transitive R} x l :
  StronglySorted R l → StronglySorted R (sorted_insert R x l).
Proof.
  induction 1 as [|y l Hl IH Hy]; simpl.
  { repeat constructor. }
  case_decide as Hxy.
  - constructor; [by constructor|].
    constructor; [done|]. eapply Forall_impl; [exact Hy|].
    intros z Hz. by etrans.
  - constructor; [done|].
    rewrite sorted_insert_Permutation. constructor; [|done].
    by destruct (total R x y).
Qed.

Lemma sort_values_sorted `{!Total R, !Transitive R} l :
  StronglySorted R (sort_values R l).
Proof.
  induction l as [|x l IH]; simpl; [constructor|].
  by apply sorted_insert_sorted.
Qed.

(** Sorting a frame that is already in order leaves it as it is. *)
Lemma sort_values_id l : StronglySorted R l → sort_values R l = l.
Proof.
  induction 1 as [|x l Hl IH Hx]; simpl; [done|].
  rewrite IH. destruct Hx as [|y l' Hxy _]; simpl; [done|].
  by rewrite decide_True.
Qed.
End sort_values_facts.

Global Instance lex2_total : Total lex2.
Proof. intros [a1 a2] [b1 b2]. unfold lex2. simpl. lia. Qed.
Global Instance lex2_trans : Transitive lex2.
Proof. intros [a1 a2] [b1 b2] [c1 c2]. unfold lex2. simpl. lia. Qed.
Global Instance lex3_total : Total lex3.
Proof.
  intros [a1 a2] [b1 b2]. unfold lex3. simpl.
  destruct (total lex2 a2 b2); destruct (Z.lt_total a1 b1) as [?|[?|?]]; auto.
Qed.
Global Instance lex3_trans : Transitive lex3.
Proof.
  intros [a1 a2] [b1 b2] [c1 c2]. unfold lex3. simpl.
  intros [?|[-> ?]] [?|[-> ?]]; [lia..|].
  right. split; [done|]. by etrans.
Qed.
Global Instance by_key_total {A K} (le : relation K) (key : A → K)
  `{!Total le} : Total (by_key le key).
Proof. intros x y. apply (total le). Qed.
Global Instance by_key_trans {A K} (le : relation K) (key : A → K)
  `{!Transitive le} : Transitive (by_key le key).
Proof. intros x y z. unfold by_key. apply transitivity. Qed.

Lemma StronglySorted_sublist {A} (R : relation A) l1 l2 :
  l1 `sublist_of` l2 → StronglySorted R l2 → StronglySorted R l1.
Proof.
  induction 1 as [|x l1 l2 Hs IH|x l1 l2 Hs IH]; intros Hl2; [done|..].
  - apply StronglySorted_cons in Hl2 as [Hx Hl2].
    constructor; [by apply IH|].
    rewrite Forall_forall in Hx |- *. eauto using elem_of_sublist.
  - apply StronglySorted_cons in Hl2 as [Hx Hl2]. by apply IH.
Qed.

(** ** Running computations *)
Section run_facts.
Context `{Libs}.

Lemma bind_eq {A B} (m : M A) (k : A → M B) s r :
  (m ≫= k) s = r →
  (∃ a s1 t1 o s2 t2,
      m s = (Ok a, s1, t1) ∧ k a s1 = (o, s2, t2) ∧ r = (o, s2, t1 ++ t2))
  ∨ (∃ e s1 t1, m s = (Raise e, s1, t1) ∧ r = (Raise e, s1, t1)).
Proof.
  unfold mbind, M_bind. destruct (m s) as [[[a|e] s1] t1].
  - destruct (k a s1) as [[o s2] t2] eqn:Hk. intros <-. left.
    by eexists _, _, _, _, _, _.
  - intros <-. right. by eexists _, _, _.
Qed.

Lemma with_CodeTimer_eq {A} name verbose (m : M A) s r :
  with_CodeTimer name verbose m s = r →
  ∃ o s1 t1,
    m s = (o, s1, t1) ∧
    r = (o, s1, t1 ++ if verbose then [EvCodeTimer name] else []).
Proof.
  unfold with_CodeTimer. destruct (m s) as [[o s1] t1]. intros <-.
  by eexists _, _, _.
Qed.

Lemma lift_eq {A} (o : outcome A) s r :
  lift o s = r → r = (o, s, []).
Proof. by intros <-. Qed.
End run_facts.

(** Symbolic execution of a hypothesis [H : m s = r]: one sequencing
    step, splitting on whether the first computation raises. *)
Ltac run_step H Hm :=
  apply bind_eq in H as
    [(? & ? & ? & ? & ? & ? & Hm & H & ?) | (? & ? & ? & Hm & ?)].
Ltac run_bind H := let Hm := fresh "Hm" in run_step H Hm.

(** The steps that are not sequencing: the basic computations. *)
Ltac run_prim :=
  repeat match goal with
  | Hm : lift _ _ = _ |- _ => apply lift_eq in Hm
  | Hm : print _ _ = _ |- _ => unfold print in Hm
  | Hm : emit _ _ = _ |- _ => unfold emit in Hm
  | Hm : get_disk _ = _ |- _ => unfold get_disk in Hm
  | Hm : put_disk _ _ = _ |- _ => unfold put_disk in Hm
  | Hm : mret _ _ = _ |- _ => unfold mret, M_ret in Hm
  | Hm : os_path_exists _ _ = _ |- _ =>
      unfold os_path_exists, mbind, M_bind, get_disk, mret, M_ret in Hm
  | Hm : np_random_normal _ _ _ _ = _ |- _ =>
      unfold np_random_normal in Hm;
      let v := fresh "noise" in let g := fresh "g" in
      let Hg := fresh "Hnormal" in
      destruct (random_normal _ _ _ _) as [v g] eqn:Hg
  | Hm : (let '(_, _) := ?x in _) _ = _ |- _ => destruct x; simpl in Hm
  end.

Ltac run_exec H := repeat (run_bind H; run_prim; simplify_eq/=); run_prim.

Lemma list_filter_iff_elem {A} (P1 P2 : A → Prop)
    `{!∀ x, Decision (P1 x), !∀ x, Decision (P2 x)} (l : list A) :
  (∀ x, x ∈ l → P1 x ↔ P2 x) → filter P1 l = filter P2 l.
Proof.
  induction l as [|a l IH]; intros HP; [done|].
  rewrite !filter_cons. rewrite IH by (intros; apply HP; by right).
  destruct (decide (P1 a)) as [Ha|Ha], (decide (P2 a)) as [Ha'|Ha'];
    try done; exfalso; apply HP in Ha || apply HP in Ha'; [done|left|done|left].
Qed.

(** ** The train/test split *)
Section split_facts.
Context `{Libs}.
Implicit Types (df : list obs) (r : obs) (u : string) (n : nat).

Lemma groupby_tail_sublist n df : groupby_tail n df `sublist_of` df.
Proof.
  induction df as [|r df IH]; simpl; [done|].
  destruct (in_tail n r df); by constructor.
Qed.

Lemma groupby_rest_sublist n df : groupby_rest n df `sublist_of` df.
Proof.
  induction df as [|r df IH]; simpl; [done|].
  destruct (in_tail n r df); by constructor.
Qed.

Lemma groupby_tail_rest_Permutation n df :
  groupby_tail n df ++ groupby_rest n df ≡ₚ df.
Proof.
  induction df as [|r df IH]; simpl; [done|].
  destruct (in_tail n r df); simpl.
  - by rewrite IH.
  - by rewrite <-Permutation_middle, IH.
Qed.

(** Per series, the test rows are the last [n] and the others the rest. *)
Lemma groupby_tail_series n df u :
  series u (groupby_tail n df) = lastn n (series u df).
Proof.
  unfold series, lastn. induction df as [|r df IH]; simpl; [done|].
  destruct (decide (unique_id r = Some u)) as [Hu|Hu].
  - rewrite (filter_cons_True _ r df) by done. simpl.
    unfold in_tail. rewrite Hu. case_bool_decide as Hn.
    + destruct Hn as [_ Hn]. rewrite filter_cons_True by done.
      rewrite IH.
      replace (S (length (filter (λ r', unique_id r' = Some u) df)) - n)
        with 0 by lia.
      replace (length (filter (λ r', unique_id r' = Some u) df) - n)
        with 0 by lia.
      by rewrite !drop_0.
    + assert (n ≤ length (filter (λ r', unique_id r' = Some u) df)).
      { destruct (decide
          (length (filter (λ r', unique_id r' = Some u) df) < n));
          [|lia]. destruct Hn. eauto. }
      rewrite IH.
      replace (S (length (filter (λ r', unique_id r' = Some u) df)) - n)
        with (S (length (filter (λ r', unique_id r' = Some u) df) - n))
        by lia.
      done.
  - rewrite (filter_cons_False _ r df) by done.
    destruct (in_tail n r df); [|done].
    by rewrite filter_cons_False.
Qed.

Lemma groupby_rest_series n df u :
  series u (groupby_rest n df)
  = take (length (series u df) - n) (series u df).
Proof.
  unfold series. induction df as [|r df IH]; simpl; [done|].
  destruct (decide (unique_id r = Some u)) as [Hu|Hu].
  - rewrite (filter_cons_True _ r df) by done. simpl.
    unfold in_tail. rewrite Hu. case_bool_decide as Hn.
    + destruct Hn as [_ Hn]. rewrite IH.
      replace (S (length (filter (λ r', unique_id r' = Some u) df)) - n)
        with 0 by lia.
      replace (length (filter (λ r', unique_id r' = Some u) df) - n)
        with 0 by lia.
      by rewrite !take_0.
    + assert (n ≤ length (filter (λ r', unique_id r' = Some u) df)).
      { destruct (decide
          (length (filter (λ r', unique_id r' = Some u) df) < n));
          [|lia]. destruct Hn. eauto. }
      rewrite filter_cons_True by done. rewrite IH.
      replace (S (length (filter (λ r', unique_id r' = Some u) df)) - n)
        with (S (length (filter (λ r', unique_id r' = Some u) df) - n))
        by lia.
      done.
  - rewrite (filter_cons_False _ r df) by done.
    destruct (in_tail n r df); [done|].
    by rewrite filter_cons_False.
Qed.

(** Rows whose series is NaN are never test rows. *)
Lemma groupby_tail_is_Some n df :
  Forall (λ r, is_Some (unique_id r)) (groupby_tail n df).
Proof.
  induction df as [|r df IH]; simpl; [done|].
  unfold in_tail. case_bool_decide as Hn; [|done].
  constructor; [by destruct Hn|done].
Qed.

(** With distinct row labels, dropping the labels of the test rows
    leaves the other rows. *)
Lemma df_drop_groupby_tail n df :
  NoDup (label <$> df) →
  df_drop (label <$> groupby_tail n df) df = groupby_rest n df.
Proof.
  unfold df_drop. induction df as [|r df IH]; simpl; [done|].
  intros [Hr Hdf]%NoDup_cons. specialize (IH Hdf).
  assert (label r ∉ label <$> groupby_tail n df) as Hr'.
  { intros Hin. apply Hr. revert Hin. apply sublist_subseteq.
    apply fmap_sublist, groupby_tail_sublist. }
  destruct (in_tail n r df); simpl.
  - rewrite filter_cons_False by (intros Hn; apply Hn; left).
    rewrite <-IH. apply list_filter_iff_elem. intros x Hx. split.
    + intros Hn Hin. apply Hn. by right.
    + intros Hn [Heq|Hin]%elem_of_cons; [|done].
      apply Hr. rewrite <-Heq. by apply list_elem_of_fmap_2.
  - rewrite filter_cons_True by done. by rewrite IH.
Qed.

Lemma groupby_tail_rest_disjoint n df r :
  NoDup (label <$> df) →
  r ∈ groupby_tail n df → r ∈ groupby_rest n df → False.
Proof.
  intros Hdf%NoDup_fmap_1.
  rewrite <-(groupby_tail_rest_Permutation n df) in Hdf.
  apply NoDup_app in Hdf as (_ & Hdisj & _). intros ??. by eapply Hdisj.
Qed.
End split_facts.

(** ** Loading the data of an item *)
Section load_facts.
Context `{Libs}.

Lemma StronglySorted_by_key {A K} (le : relation K) (key : A → K) l :
  StronglySorted (by_key le key) l ↔ StronglySorted le (key <$> l).
Proof.
  induction l as [|x l IH]; simpl.
  { split; constructor. }
  rewrite !StronglySorted_cons, IH, Forall_fmap. done.
Qed.

Lemma set_categories_idemp index u :
  set_categories index (set_categories index u) = set_categories index u.
Proof.
  destruct u as [u|]; simpl; [|done].
  case_decide; simpl; [|done]. by rewrite decide_True.
Qed.

Lemma parse_ds_labels raw parsed :
  parse_ds raw = Ok parsed → raw_label <$> parsed = raw_label <$> raw.
Proof.
  revert parsed. induction raw as [|r raw IH]; intros parsed; simpl.
  { by intros [= <-]. }
  destruct (to_datetime (raw_ds r)); [|done].
  destruct (parse_ds raw) as [l|]; [|done].
  intros [= <-]. simpl. f_equal. by apply IH.
Qed.

Lemma _sort_hier_df_Ok Y_df S_df sorted :
  _sort_hier_df Y_df S_df = Ok sorted →
  NoDup (S_index S_df) ∧
  sorted = sort_values (by_key lex2 (item_key (S_index S_df)))
             (item_set_categories (S_index S_df) Y_df).
Proof.
  unfold _sort_hier_df, check_categories.
  case_decide; [|done]. by intros [= <-].
Qed.

Lemma add_noise_Ok Y_df noise Y_df' :
  add_noise Y_df noise = Ok Y_df' →
  length noise = length Y_df ∧
  io_label <$> Y_df' = io_label <$> Y_df ∧
  io_unique_id <$> Y_df' = io_unique_id <$> Y_df ∧
  io_ds <$> Y_df' = io_ds <$> Y_df ∧
  io_item_id <$> Y_df' = io_item_id <$> Y_df ∧
  io_y <$> Y_df' = zip_with num_add (io_y <$> Y_df) noise.
Proof.
  unfold add_noise. case_decide as Hlen; [|done]. intros [= <-].
  split; [done|]. clear -Hlen.
  revert noise Hlen. induction Y_df as [|r Y_df IH]; intros [|e noise] ?;
    simplify_eq/=; [done|].
  destruct (IH noise) as (-> & -> & -> & -> & ->); done.
Qed.

Lemma item_key_zip index (l : list item_obs) :
  item_key index <$> l
  = zip_with (λ u d, (cat_code index u, d))
      (io_unique_id <$> l) (io_ds <$> l).
Proof. induction l as [|r l IH]; simpl; [done|]. by f_equal. Qed.

(** What a successful [load_item_data] has done. *)
Lemma load_item_data_Ok item dataset directory s data s0 t0 :
  load_item_data item dataset directory s = (Ok data, s0, t0) →
  ∃ info raw parsed sorted,
    FavoritaInfo dataset = Some info ∧
    FavoritaData_load (disk s) directory dataset
      = Ok (raw, data_S_df data, data_tags data) ∧
    parse_ds raw = Ok parsed ∧
    _sort_hier_df
      (rename_hier_id <$> filter (λ r, raw_item_id r = item) parsed)
      (data_S_df data) = Ok sorted ∧
    add_noise sorted
      (random_normal (rng s) 0%Q (1 # 100)%Q (length sorted)).1
      = Ok (data_Y_df data) ∧
    s0 = {| disk := disk s;
            rng := (random_normal (rng s) 0%Q (1 # 100)%Q
                      (length sorted)).2 |} ∧
    t0 = [EvFavoritaLoad directory dataset] ∧
    data_horizon data = horizon info ∧
    data_freq data = freq info ∧
    data_seasonality data = seasonality info ∧
    data_hier_levels data = "Overall" :: (data_tags data).*1 ∧
    data_hier_idxs data
      = np_arange (length (S_index (data_S_df data)))
        :: ((λ level, get_indexer (S_index (data_S_df data)) level.2)
              <$> data_tags data) ∧
    data_hier_linked_idxs data
      = _nonzero_indexes_by_row
          (transpose (length (S_columns (data_S_df data)))
             (S_values (data_S_df data))).
Proof.
  intros Hrun. unfold load_item_data in Hrun. run_exec Hrun.
  destruct (FavoritaInfo dataset) as [info|] eqn:Hinfo; simplify_eq/=.
  eexists info, _, _, _. rewrite Hnormal. simpl.
  repeat split; eauto.
Qed.

Lemma load_item_data_sorted item dataset directory s data s0 t0 :
  load_item_data item dataset directory s = (Ok data, s0, t0) →
  NoDup (S_index (data_S_df data)) ∧
  StronglySorted (by_key lex2 (item_key (S_index (data_S_df data))))
    (data_Y_df data) ∧
  Forall (λ r, set_categories (S_index (data_S_df data)) (io_unique_id r)
               = io_unique_id r) (data_Y_df data).
Proof.
  intros (info & raw & parsed & sorted & _ & _ & _ & Hsort & Hnoise & _)
    %load_item_data_Ok.
  apply _sort_hier_df_Ok in Hsort as [Hnd ->].
  apply add_noise_Ok in Hnoise as (_ & _ & Hu & Hd & _).
  split; [done|]. split.
  - apply StronglySorted_by_key.
    replace (item_key (S_index (data_S_df data)) <$> data_Y_df data)
      with (item_key (S_index (data_S_df data)) <$>
            sort_values (by_key lex2 (item_key (S_index (data_S_df data))))
              (item_set_categories (S_index (data_S_df data))
                 (rename_hier_id <$>
                  filter (λ r, raw_item_id r = item) parsed))).
    { apply StronglySorted_by_key, sort_values_sorted; apply _. }
    by rewrite !item_key_zip, Hu, Hd.
  - apply Forall_fmap with (f := io_unique_id)
      (P := λ u, set_categories (S_index (data_S_df data)) u = u).
    rewrite Hu. apply Forall_fmap.
    rewrite sort_values_Permutation. unfold item_set_categories.
    apply Forall_fmap, Forall_true. intros r. simpl.
    apply set_categories_idemp.
Qed.

(** The row labels stay distinct when the stored table has distinct
    labels. *)
Lemma load_item_data_labels item dataset directory s data s0 t0 :
  (∀ d dir g raw S tg,
      FavoritaData_load d dir g = Ok (raw, S, tg) →
      NoDup (raw_label <$> raw)) →
  load_item_data item dataset directory s = (Ok data, s0, t0) →
  NoDup (io_label <$> data_Y_df data).
Proof.
  intros Hraw
    (info & raw & parsed & sorted & _ & Hload & Hparse & Hsort & Hnoise & _)
    %load_item_data_Ok.
  apply Hraw in Hload. apply parse_ds_labels in Hparse.
  apply _sort_hier_df_Ok in Hsort as [_ ->].
  apply add_noise_Ok in Hnoise as (_ & -> & _).
  rewrite sort_values_Permutation. unfold item_set_categories.
  rewrite <-list_fmap_compose, <-list_fmap_compose. simpl.
  rewrite <-Hparse in Hload.
  change (io_label ∘ _ ∘ rename_hier_id) with (@raw_label _ Z).
  assert (raw_label <$> filter (λ r, raw_item_id r = item) parsed
          `sublist_of` raw_label <$> parsed) as Hsub
    by apply fmap_sublist, sublist_filter.
  eauto using sublist_NoDup.
Qed.
End load_facts.

(** Linear arithmetic over lengths of strings, the lengths taken as
    unknowns. *)
Ltac len_lia :=
  repeat match goal with
  | H : context [String.length _] |- _ => revert H
  end;
  repeat match goal with
  | |- context [String.length ?s] => generalize (String.length s); intro
  end;
  intros; lia.

(** ** The disk *)
Section disk_facts.
Context `{Libs}.

Lemma string_length_app (a b : string) :
  String.length (a +:+ b) = String.length a + String.length b.
Proof. induction a as [|c a IH]; simpl; [done|]. by rewrite IH. Qed.

Lemma dir_prefixes_length acc path a :
  a ∈ dir_prefixes acc path →
  String.length a < String.length acc + String.length path.
Proof.
  revert acc. induction path as [|c path IH]; intros acc; simpl.
  { by intros ?%elem_of_nil. }
  intros [Ha|Ha]%elem_of_app.
  - case_decide; [|by apply elem_of_nil in Ha].
    apply list_elem_of_singleton in Ha as ->. simpl. len_lia.
  - apply IH in Ha. rewrite string_length_app in Ha. simpl in *. len_lia.
Qed.

Lemma ancestors_length path a :
  a ∈ ancestors path → String.length a < String.length path.
Proof. intros Ha%dir_prefixes_length. simpl in Ha. len_lia. Qed.

Lemma lookup_foldr_insert_Dir (d : gmap string entry) l p :
  p ∉ l → foldr (λ a, <[a:=Dir]>) d l !! p = d !! p.
Proof.
  induction l as [|a l IH]; simpl; [done|].
  intros [??]%not_elem_of_cons. rewrite lookup_insert_ne by done. auto.
Qed.

(** [os.makedirs] touches no path that is longer than its argument,
    logs nothing and leaves the random state. *)
Lemma os_makedirs_run name exist_ok s o s1 t1 :
  os_makedirs name exist_ok s = (o, s1, t1) →
  t1 = [] ∧ rng s1 = rng s ∧
  ∀ p, String.length name < String.length p → disk s1 !! p = disk s !! p.
Proof.
  unfold os_makedirs, mbind, M_bind, get_disk. simpl.
  destruct (disk s !! name) as [[c|]|] eqn:Hname.
  - intros [= <- <- <-]. done.
  - destruct exist_ok; intros [= <- <- <-]; done.
  - destruct (existsb _ _); intros [= <- <- <-]; [done|]. simpl.
    split_and!; [done..|]. intros p Hp.
    apply lookup_foldr_insert_Dir.
    intros [Ha%ancestors_length|Ha%list_elem_of_singleton]%elem_of_app;
      [len_lia|]. subst. lia.
Qed.

Lemma os_path_exists_run path s :
  os_path_exists path s = (Ok (bool_decide (is_Some (disk s !! path))), s, []).
Proof. done. Qed.

Lemma pd_read_csv_run path s o s1 t1 :
  pd_read_csv path s = (o, s1, t1) →
  s1 = s ∧ t1 = [] ∧
  ∀ f, o = Ok f →
    ∃ content, disk s !! path = Some (File content) ∧
               parse_csv content = Ok f.
Proof.
  unfold pd_read_csv, mbind, M_bind, get_disk. simpl.
  destruct (disk s !! path) as [[c|]|] eqn:Hpath;
    intros [= <- <- <-]; split_and!; try done.
  intros f Hf. eauto.
Qed.

Lemma open_for_writing_run content path s o s1 t1 :
  open_for_writing content path s = (o, s1, t1) →
  t1 = [] ∧ rng s1 = rng s ∧
  (∀ q, q ≠ path → disk s1 !! q = disk s !! q) ∧
  match o with
  | Ok _ => disk s1 !! path = Some (File content)
  | Raise _ => s1 = s
  end.
Proof.
  unfold open_for_writing, mbind, M_bind, get_disk. simpl.
  assert (∀ r : outcome () * state * list event,
    put_disk (<[path:=File content]> (disk s)) s = r →
    r.2 = [] ∧ rng r.1.2 = rng s ∧
    (∀ q, q ≠ path → disk r.1.2 !! q = disk s !! q) ∧
    r.1.1 = Ok () ∧ disk r.1.2 !! path = Some (File content)) as Hput.
  { intros r <-. simpl. split_and!; try done.
    - intros q Hq. by rewrite lookup_insert_ne.
    - by rewrite lookup_insert_eq. }
  destruct (disk s !! path) as [[c|]|] eqn:Hpath;
    [|by intros [= <- <- <-]|];
    intros (? & ? & ? & Ho & ?)%Hput; simpl in *; by subst.
Qed.

Lemma write_csv_run content path s o s1 t1 :
  write_csv content path s = (o, s1, t1) →
  t1 = [] ∧ rng s1 = rng s ∧
  (∀ q, q ≠ path → disk s1 !! q = disk s !! q) ∧
  match o with
  | Ok _ => disk s1 !! path = Some (File content)
  | Raise _ => s1 = s
  end.
Proof.
  intros Hrun. unfold write_csv in Hrun.
  run_step Hrun Hd; unfold get_disk in Hd; simplify_eq. simpl.
  destruct (last (ancestors path)) as [parent|];
    [destruct (disk _ !! parent) as [[c'|]|]|];
    try (apply lift_eq in Hrun; by simplify_eq);
    by apply open_for_writing_run in Hrun.
Qed.

(** The three files of an item are different files, and lie below the
    directory of the item. *)
Lemma yhat_file_length dataset item_id :
  String.length (item_path dataset item_id)
  < String.length (yhat_file dataset item_id).
Proof.
  unfold yhat_file. generalize (item_path dataset item_id). intros p.
  rewrite string_length_app. simpl. len_lia.
Qed.

Lemma yfitted_file_length dataset item_id :
  String.length (item_path dataset item_id)
  < String.length (yfitted_file dataset item_id).
Proof.
  unfold yfitted_file. generalize (item_path dataset item_id). intros p.
  rewrite string_length_app. simpl. len_lia.
Qed.

Lemma yhat_yfitted_ne dataset item_id :
  yhat_file dataset item_id ≠ yfitted_file dataset item_id.
Proof.
  unfold yhat_file, yfitted_file. intros Heq.
  apply (inj (String.app _)) in Heq. discriminate.
Qed.

Lemma yrec_yhat_ne intervals_method dataset item_id :
  yrec_file intervals_method dataset item_id ≠ yhat_file dataset item_id.
Proof.
  unfold yrec_file, yhat_file. intros Heq.
  apply (inj (String.app _)) in Heq.
  assert (String.length intervals_method = 1) as Hlen.
  { apply (f_equal String.length) in Heq.
    rewrite !string_length_app in Heq. simpl in Heq. len_lia. }
  destruct intervals_method as [|c [|c' m]]; simplify_eq/=.
Qed.

Lemma yrec_yfitted_ne intervals_method dataset item_id :
  yrec_file intervals_method dataset item_id
  ≠ yfitted_file dataset item_id.
Proof.
  unfold yrec_file, yfitted_file. intros Heq.
  apply (inj (String.app _)) in Heq.
  assert (String.length intervals_method = 4) as Hlen.
  { apply (f_equal String.length) in Heq.
    rewrite !string_length_app in Heq. simpl in Heq. len_lia. }
  destruct intervals_method as [|c1 [|c2 [|c3 [|c4 [|c5 m]]]]];
    simplify_eq/=.
Qed.
End disk_facts.

(** Symbolic execution of the calls to [os] and [pandas]. *)
Ltac run_io :=
  repeat match goal with
  | Hm : os_path_exists _ _ = _ |- _ =>
      rewrite os_path_exists_run in Hm
  | Hm : os_makedirs _ _ _ = _ |- _ =>
      apply os_makedirs_run in Hm as (? & ? & ?)
  | Hm : pd_read_csv _ _ = _ |- _ =>
      apply pd_read_csv_run in Hm as (? & ? & ?)
  | Hm : write_csv _ _ _ = _ |- _ =>
      apply write_csv_run in Hm as (? & ? & ? & ?)
  | Hm : (if ?b then _ else _) _ = _ |- _ => destruct b
  end.

(** ** The three blocks of [run_baselines] *)
Section block_facts.
Context `{Libs}.

Lemma load_item_data_run item dataset directory s o s0 t0 :
  load_item_data item dataset directory s = (o, s0, t0) →
  disk s0 = disk s ∧ Forall quiet t0.
Proof.
  intros Hrun. unfold load_item_data in Hrun.
  run_exec Hrun; simplify_eq/=; (split; [done|]);
    repeat first [apply Forall_nil_2 | apply Forall_cons_2];
    unfold quiet; simpl; tauto.
Qed.

Lemma read_and_parse_run item dataset s o s1 t1 :
  read_and_parse item dataset s = (o, s1, t1) →
  disk s1 = disk s ∧ Forall quiet t1.
Proof.
  intros Hrun. unfold read_and_parse in Hrun.
  run_bind Hrun; simplify_eq/=.
  - apply load_item_data_run in Hm as [Hd Hq].
    run_exec Hrun; simplify_eq/=; (split; [done|]);
     rewrite ?Forall_app; split_and?; try done;
     repeat first [apply Forall_nil_2 | apply Forall_cons_2];
     unfold quiet; simpl; tauto.
  - by apply load_item_data_run in Hm.
Qed.

Lemma read_and_parse_Ok item dataset s v s1 t1 :
  read_and_parse item dataset s = (Ok v, s1, t1) →
  ∃ data t0,
    load_item_data item dataset "./data/favorita" s = (Ok data, s1, t0) ∧
    let Y_df := select_columns (data_Y_df data) in
    let Y_test_df := groupby_tail (data_horizon data) Y_df in
    v = {| sv_S_df := data_S_df data; sv_tags := data_tags data;
           sv_horizon := data_horizon data;
           sv_seasonality := data_seasonality data;
           sv_freq := data_freq data;
           sv_Y_test_df := set_index_unique_id Y_test_df;
           sv_Y_train_df :=
             set_index_unique_id (df_drop (label <$> Y_test_df) Y_df) |}.
Proof.
  intros Hrun. unfold read_and_parse in Hrun.
  run_exec Hrun. simplify_eq/=. eauto.
Qed.
Lemma fit_predict_run LEVEL im item dataset v s o s1 t1 :
  fit_predict LEVEL im item dataset v s = (o, s1, t1) →
  let fcst := fcst_for v in
  let h := sv_horizon v in
  let yhat := yhat_file dataset item in
  let yfitted := yfitted_file dataset item in
  (∀ b, o = Ok b → bv_yrec_file b = yrec_file im dataset item) ∧
  match disk s !! yhat with
  | Some _ =>
      t1 = [] ∧
      disk s1 !! yhat = disk s !! yhat ∧
      disk s1 !! yfitted = disk s !! yfitted ∧
      ∀ b, o = Ok b →
        ∃ c1 c2 f1 f2,
          disk s !! yhat = Some (File c1) ∧
          disk s !! yfitted = Some (File c2) ∧
          parse_csv c1 = Ok f1 ∧ parse_csv c2 = Ok f2 ∧
          frame_set_index "unique_id" f1 = Ok (bv_Y_hat_df b) ∧
          frame_set_index "unique_id" f2 = Ok (bv_Y_fitted_df b)
  | None =>
      (t1 = [] ∨
       t1 = [EvStatsForecast fcst; EvForecast fcst h true LEVEL] ∨
       t1 = [EvStatsForecast fcst; EvForecast fcst h true LEVEL;
             EvForecastFittedValues fcst]) ∧
      ∀ b, o = Ok b →
        t1 = [EvStatsForecast fcst; EvForecast fcst h true LEVEL;
              EvForecastFittedValues fcst] ∧
        ∃ f1 f2,
          forecast fcst h true LEVEL = Ok f1 ∧
          forecast_fitted_values fcst h true LEVEL = Ok f2 ∧
          frame_set_index "unique_id" (frame_reset_index f1)
            = Ok (bv_Y_hat_df b) ∧
          frame_set_index "unique_id" (frame_reset_index f2)
            = Ok (bv_Y_fitted_df b) ∧
          disk s1 !! yhat
            = Some (File (frame_to_csv (frame_reset_index f1))) ∧
          disk s1 !! yfitted
            = Some (File (frame_to_csv (frame_reset_index f2)))
  end.
Proof.
  intros Hrun fcst h yhat yfitted. unfold fit_predict in Hrun.
  pose proof (yhat_file_length dataset item) as Hl.
  pose proof (yfitted_file_length dataset item) as Hl'.
  run_step Hrun Hmk; simplify_eq/=;
    apply os_makedirs_run in Hmk as (-> & Hrng & Hdisk);
    rewrite <-(Hdisk yhat), <-(Hdisk yfitted) by done.
  2:{ split; [done|]. destruct (disk _ !! yhat); naive_solver. }
  run_step Hrun Hex; simplify_eq/=; rewrite os_path_exists_run in Hex;
    simplify_eq/=.
  fold yhat yfitted in Hrun.
  destruct (disk _ !! yhat) as [e|] eqn:Hc.
  - rewrite bool_decide_true in Hrun by eauto.
    run_step Hrun Hbr; simplify_eq/=.
    + run_step Hbr Hr1; simplify_eq/=;
        apply pd_read_csv_run in Hr1 as (-> & -> & Hf1).
      run_step Hbr Hr2; simplify_eq/=;
        apply pd_read_csv_run in Hr2 as (-> & -> & Hf2).
      run_prim. simplify_eq/=.
      destruct (Hf1 _ eq_refl) as (c1 & Hc1 & Hp1).
      destruct (Hf2 _ eq_refl) as (c2 & Hc2 & Hp2).
      run_exec Hrun; simplify_eq/=; (split; [naive_solver|]);
        split_and!; try done; intros b ?; simplify_eq/=.
      exists c1, c2. eauto 10.
    + split; [done|].
      run_step Hbr Hr1; simplify_eq/=;
        apply pd_read_csv_run in Hr1 as (-> & -> & Hf1); try done.
      run_step Hbr Hr2; simplify_eq/=;
        apply pd_read_csv_run in Hr2 as (-> & -> & Hf2); try done.
  - rewrite bool_decide_false in Hrun by (by intros [??]).
    clear Hdisk Hl Hl'.
    run_step Hrun Hbr.
    all: run_exec Hbr; run_io; run_prim; simplify_eq/=.
    all: try (split; [done|]; split; [by eauto|done]).
    all: run_exec Hrun; simplify_eq/=.
    all: try (split; [done|]; split; [by eauto|done]).
    all: split; [naive_solver|]; split; [by eauto|].
    all: intros b ?; simplify_eq; split; [done|].
    all: eexists _, _; split_and!; try done.
    all: match goal with
         | Hq : ∀ q, q ≠ ?f → disk ?s2 !! q = _ |- disk ?s2 !! _ = _ =>
             rewrite Hq by apply yhat_yfitted_ne
         end; done.
Qed.
Lemma reconcile_predictions_run LEVEL im v b s o s1 t1 :
  reconcile_predictions LEVEL im v b s = (o, s1, t1) →
  let call := reconcile_call_for LEVEL im v b in
  let index := S_index (sv_S_df v) in
  t1 = [EvBootstrapReconcile call] ∧
  (∀ p, p ≠ bv_yrec_file b → disk s1 !! p = disk s !! p) ∧
  ∀ rec test train, o = Ok (rec, test, train) →
    ∃ out,
      bootstrap_reconcile call = Ok out ∧ NoDup index ∧
      rec = sort_values (by_key lex3 (rec_key index))
              (rec_set_categories index (rec_reset_index out)) ∧
      test = sort_values (by_key lex2 (obs_key index))
               (obs_set_categories index (reset_index (sv_Y_test_df v))) ∧
      train = sv_Y_train_df v ∧
      disk s1 !! bv_yrec_file b = Some (File (rec_to_csv rec)).
Proof.
  intros Hrun call index. unfold reconcile_predictions in Hrun.
  fold call index in Hrun.
  run_exec Hrun; run_io; simplify_eq/=; try done.
  split; [done|]. split; [done|]. intros rec test train [= <- <- <-].
  unfold check_categories in *. case_decide; [|done].
  eexists. split_and!; done.
Qed.

Lemma run_baselines_run LEVEL im item dataset verbose seed s r :
  run_baselines LEVEL im item dataset verbose seed s = r →
  let timer name := if verbose then [EvCodeTimer name] else [] in
  ∃ o1 s1 t1,
    read_and_parse item dataset s = (o1, s1, t1) ∧
    match o1 with
    | Raise e => r = (Raise e, s1, t1 ++ timer "Read and Parse data   ")
    | Ok v =>
        ∃ o2 s2 t2,
          fit_predict LEVEL im item dataset v s1 = (o2, s2, t2) ∧
          match o2 with
          | Raise e =>
              r = (Raise e, s2,
                   (t1 ++ timer "Read and Parse data   ")
                   ++ t2 ++ timer ("Fit/Predict Model" +:+ tab +:+ "  "))
          | Ok b =>
              ∃ o3 s3 t3,
                reconcile_predictions LEVEL im v b s2 = (o3, s3, t3) ∧
                r = (o3, s3,
                     (t1 ++ timer "Read and Parse data   ")
                     ++ (t2 ++ timer ("Fit/Predict Model" +:+ tab +:+ "  "))
                     ++ t3 ++ timer "Reconcile Predictions ")
          end
    end.
Proof.
  intros Hrun timer. unfold run_baselines in Hrun.
  run_step Hrun H1;
    apply with_CodeTimer_eq in H1 as (o1 & s1 & t1 & H1 & ?);
    simplify_eq; eexists _, _, _; (split; [exact H1|]); [|done].
  run_step Hrun H2;
    apply with_CodeTimer_eq in H2 as (o2 & s2 & t2 & H2 & ?);
    simplify_eq; eexists _, _, _; (split; [exact H2|]); [|done].
  apply with_CodeTimer_eq in Hrun as (o3 & s3 & t3 & H3 & ?).
  simplify_eq. by eexists _, _, _.
Qed.
End block_facts.

(** ** The log of a run *)
Section event_facts.
Context `{Libs}.

Lemma timer_quiet (verbose : bool) name :
  Forall quiet (if verbose then [EvCodeTimer name] else []).
Proof. destruct verbose; repeat constructor; simpl; tauto. Qed.

(** A reconciliation call in the log of a run is the call of its third
    block. *)
Lemma run_baselines_reconcile_event LEVEL im item dataset verbose seed s call :
  EvBootstrapReconcile call
    ∈ events_of (run_baselines LEVEL im item dataset verbose seed s) →
  ∃ v s1 t1 b s2 t2,
    read_and_parse item dataset s = (Ok v, s1, t1) ∧
    fit_predict LEVEL im item dataset v s1 = (Ok b, s2, t2) ∧
    call = reconcile_call_for LEVEL im v b.
Proof.
  destruct (run_baselines _ _ _ _ _ _ s) as [[o s'] t] eqn:Hrun.
  unfold events_of. simpl. intros Hin.
  apply run_baselines_run in Hrun as (o1 & s1 & t1 & Hrp & Hrun).
  pose proof (read_and_parse_run _ _ _ _ _ _ Hrp) as [_ Hq1].
  assert (∀ l, Forall quiet l → EvBootstrapReconcile call ∈ l → False)
    as Hquiet.
  { intros l Hl Hc. rewrite Forall_forall in Hl.
    apply Hl in Hc as [_ Hc]. by apply Hc. }
  destruct o1 as [v|].
  2:{ simplify_eq. exfalso. apply elem_of_app in Hin as [?|?];
        eauto using timer_quiet. }
  destruct Hrun as (o2 & s2 & t2 & Hfp & Hrun).
  pose proof (fit_predict_run _ _ _ _ _ _ _ _ _ Hfp) as [_ Hfit].
  assert (EvBootstrapReconcile call ∈ t2 → False) as Hfit'.
  { destruct (disk s1 !! yhat_file dataset item).
    - destruct Hfit as [Ht _]. subst t2. by intros ?%elem_of_nil.
    - destruct Hfit as [[Ht|[Ht|Ht]] _]; subst t2; intros Hc;
        repeat (apply elem_of_cons in Hc as [Hc|Hc]; [done|]);
        by apply elem_of_nil in Hc. }
  destruct o2 as [b|].
  2:{ simplify_eq. exfalso. rewrite !elem_of_app in Hin.
      destruct Hin as [[?|?]|[?|?]]; eauto using timer_quiet. }
  destruct Hrun as (o3 & s3 & t3 & Hrc & Hrun). simplify_eq.
  apply reconcile_predictions_run in Hrc as (-> & _).
  rewrite !elem_of_app in Hin.
  destruct Hin as [[?|?]|[[?|?]|[Hin|?]]];
    try (exfalso; by eauto using timer_quiet).
  apply list_elem_of_singleton in Hin. simplify_eq. eauto 10.
Qed.
(** A fitting event in the log of a run comes from the second block,
    run without a cached forecast. *)
Lemma run_baselines_fit_event LEVEL im item dataset verbose seed s e :
  e ∈ events_of (run_baselines LEVEL im item dataset verbose seed s) →
  is_fit e →
  ∃ v s1 t1,
    read_and_parse item dataset s = (Ok v, s1, t1) ∧
    disk s !! yhat_file dataset item = None ∧
    e ∈ [EvStatsForecast (fcst_for v);
         EvForecast (fcst_for v) (sv_horizon v) true LEVEL;
         EvForecastFittedValues (fcst_for v)].
Proof.
  destruct (run_baselines _ _ _ _ _ _ s) as [[o s'] t] eqn:Hrun.
  unfold events_of. simpl. intros Hin He.
  apply run_baselines_run in Hrun as (o1 & s1 & t1 & Hrp & Hrun).
  pose proof (read_and_parse_run _ _ _ _ _ _ Hrp) as [Hd1 Hq1].
  assert (∀ l, Forall quiet l → e ∈ l → False) as Hquiet.
  { intros l Hl Hc. rewrite Forall_forall in Hl.
    apply Hl in Hc as [Hc _]. by apply Hc. }
  destruct o1 as [v|].
  2:{ simplify_eq. exfalso. apply elem_of_app in Hin as [?|?];
        eauto using timer_quiet. }
  destruct Hrun as (o2 & s2 & t2 & Hfp & Hrun).
  pose proof (fit_predict_run _ _ _ _ _ _ _ _ _ Hfp) as [_ Hfit].
  assert (e ∈ t2 →
          disk s !! yhat_file dataset item = None ∧
          e ∈ [EvStatsForecast (fcst_for v);
               EvForecast (fcst_for v) (sv_horizon v) true LEVEL;
               EvForecastFittedValues (fcst_for v)]) as Hfit'.
  { rewrite <-Hd1. destruct (disk s1 !! yhat_file dataset item).
    - destruct Hfit as [Ht _]. subst t2. by intros ?%elem_of_nil.
    - intros He2. split; [done|].
      destruct Hfit as [[Ht|[Ht|Ht]] _]; subst t2.
      + by apply elem_of_nil in He2.
      + apply elem_of_cons in He2 as [He2|He2]; [subst e; left|].
        apply list_elem_of_singleton in He2. subst e. right; left.
      + done. }
  destruct o2 as [b|].
  2:{ simplify_eq. rewrite !elem_of_app in Hin.
      destruct Hin as [[?|?]|[?|?]];
        try (exfalso; by eauto using timer_quiet).
      exists v, s1, t1. destruct Hfit'; auto. }
  destruct Hrun as (o3 & s3 & t3 & Hrc & Hrun). simplify_eq.
  apply reconcile_predictions_run in Hrc as (-> & _).
  rewrite !elem_of_app in Hin.
  destruct Hin as [[?|?]|[[?|?]|[Hin|?]]];
    try (exfalso; by eauto using timer_quiet).
  - exists v, s1, t1. destruct Hfit'; auto.
  - apply list_elem_of_singleton in Hin. by subst e.
Qed.

(** The three blocks of a successful run. *)
Lemma run_baselines_Ok LEVEL im item dataset verbose seed s res s' t :
  run_baselines LEVEL im item dataset verbose seed s = (Ok res, s', t) →
  ∃ v s1 t1 b s2 t2 t3,
    read_and_parse item dataset s = (Ok v, s1, t1) ∧
    fit_predict LEVEL im item dataset v s1 = (Ok b, s2, t2) ∧
    reconcile_predictions LEVEL im v b s2 = (Ok res, s', t3) ∧
    ∀ e, e ∈ t1 ∨ e ∈ t2 ∨ e ∈ t3 → e ∈ t.
Proof.
  intros Hrun.
  apply run_baselines_run in Hrun as (o1 & s1 & t1 & Hrp & Hrun).
  destruct o1 as [v|]; [|by simplify_eq].
  destruct Hrun as (o2 & s2 & t2 & Hfp & Hrun).
  destruct o2 as [b|]; [|by simplify_eq].
  destruct Hrun as (o3 & s3 & t3 & Hrc & Hrun). simplify_eq.
  eexists _, _, _, _, _, _, _. split_and!; [done..|].
  intros e. rewrite !elem_of_app. tauto.
Qed.

(** A run that finds the cached forecast leaves the two cache files as
    they are. *)
Lemma run_baselines_cache_kept LEVEL im item dataset verbose seed s :
  let yhat := yhat_file dataset item in
  let yfitted := yfitted_file dataset item in
  is_Some (disk s !! yhat) →
  let r := run_baselines LEVEL im item dataset verbose seed s in
  disk (state_of r) !! yhat = disk s !! yhat ∧
  disk (state_of r) !! yfitted = disk s !! yfitted.
Proof.
  intros yhat yfitted [e He] r. destruct r as [[o s'] t] eqn:Hrun.
  unfold state_of. simpl. rewrite He.
  apply run_baselines_run in Hrun as (o1 & s1 & t1 & Hrp & Hrun).
  apply read_and_parse_run in Hrp as [Hd1 _].
  destruct o1 as [v|]; [|simplify_eq; by rewrite Hd1].
  destruct Hrun as (o2 & s2 & t2 & Hfp & Hrun).
  apply fit_predict_run in Hfp as [Hfile Hfp].
  fold yhat yfitted in Hfp. rewrite Hd1, He in Hfp.
  destruct Hfp as (_ & Hyhat & Hyfit & _).
  destruct o2 as [b|]; [|by simplify_eq].
  destruct Hrun as (o3 & s3 & t3 & Hrc & Hrun). simplify_eq.
  apply reconcile_predictions_run in Hrc as (_ & Hkeep & _).
  rewrite (Hfile _ eq_refl) in Hkeep.
  rewrite !Hkeep, Hyhat, Hyfit;
    [done|apply not_eq_sym, yrec_yfitted_ne|apply not_eq_sym, yrec_yhat_ne].
Qed.
End event_facts.

(** ** The alignment of the frames *)
Section alignment_facts.
Context `{Libs}.

Lemma imap_as_fmap {A B} (f : nat → A → B) (g : A → B) l :
  (∀ i x, f i x = g x) → imap f l = g <$> l.
Proof.
  revert f. induction l as [|x l IH]; intros f Hf; simpl; [done|].
  rewrite Hf. f_equal. apply IH. intros i y. apply Hf.
Qed.

Lemma set_index_reset_index df :
  set_index_unique_id (reset_index df) = df.
Proof.
  unfold set_index_unique_id, reset_index. rewrite fmap_imap.
  rewrite (imap_as_fmap _ id), list_fmap_id; [done|]. by intros i [].
Qed.

Lemma obs_key_reset_index index df :
  obs_key index <$> reset_index (set_index_unique_id df)
  = obs_key index <$> df.
Proof.
  unfold set_index_unique_id, reset_index.
  rewrite imap_fmap, fmap_imap. by apply imap_as_fmap.
Qed.

Lemma obs_set_categories_id index df :
  Forall (λ r, set_categories index (unique_id r) = unique_id r) df →
  obs_set_categories index df = df.
Proof.
  unfold obs_set_categories. induction 1 as [|r df Hr _ IH]; simpl;
    [done|]. f_equal; [|done]. destruct r; simpl in *. by rewrite Hr.
Qed.

Lemma obs_key_select_columns index df :
  obs_key index <$> select_columns df = item_key index <$> df.
Proof. unfold select_columns. by rewrite <-list_fmap_compose. Qed.

(** The alignment leaves a test frame as the split made it, up to the
    fresh row labels. *)
Lemma alignment_test index df :
  StronglySorted (by_key lex2 (obs_key index)) df →
  Forall (λ r, set_categories index (unique_id r) = unique_id r) df →
  set_index_unique_id
    (sort_values (by_key lex2 (obs_key index))
       (obs_set_categories index (reset_index (set_index_unique_id df))))
  = set_index_unique_id df.
Proof.
  intros Hsorted Hcat.
  rewrite obs_set_categories_id.
  - rewrite sort_values_id; [by rewrite set_index_reset_index|].
    apply StronglySorted_by_key. rewrite obs_key_reset_index.
    by apply StronglySorted_by_key.
  - unfold set_index_unique_id, reset_index. rewrite imap_fmap.
    apply Forall_forall. intros r (i & r' & -> & Hr')%elem_of_lookup_imap.
    simpl. rewrite Forall_forall in Hcat. apply Hcat.
    by eapply list_elem_of_lookup_2.
Qed.

(** The alignment of a test frame that is in order already only gives
    the rows fresh labels. *)
Lemma reset_index_set_index (df : list obs) :
  reset_index (set_index_unique_id df)
  = imap (λ i r, {| label := Z.of_nat i; unique_id := unique_id r;
                    ds := ds r; y := y r |}) df.
Proof. unfold reset_index, set_index_unique_id. by rewrite imap_fmap. Qed.

Lemma alignment_test_rows index df :
  StronglySorted (by_key lex2 (obs_key index)) df →
  Forall (λ r, set_categories index (unique_id r) = unique_id r) df →
  sort_values (by_key lex2 (obs_key index))
    (obs_set_categories index (reset_index (set_index_unique_id df)))
  = imap (λ i r, {| label := Z.of_nat i; unique_id := unique_id r;
                    ds := ds r; y := y r |}) df.
Proof.
  intros Hsorted Hcat. rewrite <-reset_index_set_index.
  rewrite obs_set_categories_id.
  - apply sort_values_id.
    apply StronglySorted_by_key. rewrite obs_key_reset_index.
    by apply StronglySorted_by_key.
  - unfold set_index_unique_id, reset_index. rewrite imap_fmap.
    apply Forall_forall. intros r (i & r' & -> & Hr')%elem_of_lookup_imap.
    simpl. rewrite Forall_forall in Hcat. apply Hcat.
    by eapply list_elem_of_lookup_2.
Qed.

(** The aligned reconciled frame holds the rows of the library, each
    once, under its position as label. *)
Lemma aligned_rec_Permutation index (out : list rec_series) :
  sort_values (by_key lex3 (rec_key index))
    (rec_set_categories index (rec_reset_index out))
  ≡ₚ imap (λ i o, {| rec_label := Z.of_nat i;
                     rec_unique_id := set_categories index (rs_unique_id o);
                     rec_ds := rs_ds o; rec_seed := rs_seed o;
                     rec_values := rs_values o |}) out.
Proof.
  rewrite sort_values_Permutation.
  unfold rec_set_categories, rec_reset_index. by rewrite fmap_imap.
Qed.

(** What a successful [load_item_data] says about the selected
    columns. *)
Lemma select_columns_facts item dataset directory s data s0 t0 :
  load_item_data item dataset directory s = (Ok data, s0, t0) →
  let index := S_index (data_S_df data) in
  let Y_df := select_columns (data_Y_df data) in
  NoDup index ∧
  StronglySorted (by_key lex2 (obs_key index)) Y_df ∧
  Forall (λ r, set_categories index (unique_id r) = unique_id r) Y_df.
Proof.
  intros (Hnd & Hsorted & Hcat)%load_item_data_sorted index Y_df.
  split; [done|]. split.
  - apply StronglySorted_by_key. unfold Y_df.
    rewrite obs_key_select_columns. by apply StronglySorted_by_key.
  - unfold Y_df, select_columns. apply Forall_fmap.
    eapply Forall_impl; [exact Hcat|]. done.
Qed.
Lemma series_key_set_index index (df : list obs) :
  series_key index <$> set_index_unique_id df = obs_key index <$> df.
Proof. unfold set_index_unique_id. by rewrite <-list_fmap_compose. Qed.
Lemma elem_of_aligned_rec index out r :
  r ∈ sort_values (by_key lex3 (rec_key index))
        (rec_set_categories index (rec_reset_index out)) ↔
  ∃ i r0,
    out !! i = Some r0 ∧
    r = {| rec_label := Z.of_nat i;
           rec_unique_id := set_categories index (rs_unique_id r0);
           rec_ds := rs_ds r0; rec_seed := rs_seed r0;
           rec_values := rs_values r0 |}.
Proof.
  rewrite sort_values_Permutation. unfold rec_set_categories, rec_reset_index.
  rewrite list_elem_of_fmap. setoid_rewrite elem_of_lookup_imap. split.
  - intros (r1 & -> & i & r0 & -> & Hi). by exists i, r0.
  - intros (i & r0 & Hi & ->). eexists. split; [|by exists i, r0]. done.
Qed.

Lemma elem_of_seeds_at df u d k :
  k ∈ seeds_at df u d ↔
  ∃ r, r ∈ df ∧ rec_unique_id r = u ∧ rec_ds r = d ∧ rec_seed r = k.
Proof.
  unfold seeds_at. rewrite list_elem_of_fmap.
  setoid_rewrite list_elem_of_filter. split.
  - intros (r & Hk & [Hu Hd] & Hr). by exists r.
  - intros (r & Hr & Hu & Hd & Hk). by exists r.
Qed.
End alignment_facts.

(** ** The runs on the small hierarchy *)
Section fixture_facts.
Import Fixture.

Lemma fixture_labels d dir g raw S tg :
  FavoritaData_load d dir g = Ok (raw, S, tg) → NoDup (raw_label <$> raw).
Proof.
  intros [= <- _ _].
  apply (bool_decide_unpack (NoDup (raw_label <$> Y_all_df))).
  vm_compute. exact I.
Qed.

Lemma fresh_run_eq : run "bootstrap" fresh = fresh_run.
Proof. vm_compute. reflexivity. Qed.

Lemma cached_run_eq : run "normality" cached = cached_run.
Proof. vm_compute. reflexivity. Qed.

Lemma fresh_run_Ok :
  ∃ rec test train s' t,
    run "bootstrap" fresh = (Ok (rec, test, train), s', t).
Proof. rewrite fresh_run_eq. unfold fresh_run. by eexists _, _, _, _, _. Qed.

Lemma cached_run_Ok :
  ∃ rec test train s' t,
    run "normality" cached = (Ok (rec, test, train), s', t).
Proof. rewrite cached_run_eq. unfold cached_run. by eexists _, _, _, _, _. Qed.

Lemma fresh_run_events :
  ∃ fcst call,
    EvStatsForecast fcst ∈ events_of (run "bootstrap" fresh) ∧
    EvBootstrapReconcile call ∈ events_of (run "bootstrap" fresh).
Proof.
  rewrite fresh_run_eq. unfold fresh_run, events_of. simpl.
  eexists _, _. split;
    repeat first [apply list_elem_of_here | apply list_elem_of_further].
Qed.

Lemma elem_of_reconciled call r :
  r ∈ reconciled call ↔
  ∃ k u, (0 ≤ k < rc_num_seeds call)%Z ∧ u ∈ S_index (rc_S_df call) ∧
         r = {| rs_unique_id := Some u; rs_ds := 3; rs_seed := k;
                rs_values := 0%Z |}.
Proof.
  unfold reconciled. rewrite list_elem_of_bind. split.
  - intros (n & (u & ->%list_elem_of_singleton & Hu)%list_elem_of_bind
            & Hn%elem_of_seq).
    exists (Z.of_nat n), u. split_and!; [lia..|done|done].
  - intros (k & u & Hk & Hu & ->). exists (Z.to_nat k). split.
    + apply list_elem_of_bind. exists u. split; [|done].
      apply list_elem_of_singleton. by rewrite Z2Nat.id by lia.
    + apply elem_of_seq. lia.
Qed.

(** The stand-in for [bootstrap_reconcile] reports every series and date
    once per seed. *)
Lemma fixture_seeds call out :
  bootstrap_reconcile call = Ok out →
  ∀ r0, r0 ∈ out → ∀ k,
    (0 ≤ k < rc_num_seeds call)%Z ↔
    ∃ r', r' ∈ out ∧ rs_unique_id r' = rs_unique_id r0 ∧
          rs_ds r' = rs_ds r0 ∧ rs_seed r' = k.
Proof.
  intros [= <-] r0 (k0 & u0 & Hk0 & Hu0 & ->)%elem_of_reconciled k. split.
  - intros Hk. eexists. split; [apply elem_of_reconciled; by exists k, u0|].
    done.
  - intros (r' & (k' & u' & Hk' & _ & ->)%elem_of_reconciled & _ & _ & <-).
    done.
Qed.
End fixture_facts.

(** ** The operations on small inputs *)
Section examples.
Import Fixture.

Example ancestors_item_path :
  ancestors "./data/Favorita200/112830"
  = ["."; "./data"; "./data/Favorita200"].
Proof. reflexivity. Qed.

Example yrec_file_bootstrap :
  yrec_file "bootstrap" "Favorita200" 112830
  = "./data/Favorita200/112830/bootstrap_rec.csv".
Proof. vm_compute. reflexivity. Qed.

Example upper_bootstrap : upper "bootstrap" = "BOOTSTRAP".
Proof. reflexivity. Qed.

Example LEVEL_default_ends :
  take 3 LEVEL_default = [0; 2; 4]%Z ∧ last LEVEL_default = Some 98%Z
  ∧ length LEVEL_default = 50.
Proof. by vm_compute. Qed.

Example get_indexer_absent :
  get_indexer ["total"; "a"; "b"] ["b"; "x"; "total"] = [2; -1; 0]%Z.
Proof. reflexivity. Qed.

Example set_categories_absent :
  set_categories ["total"; "a"] <$> [Some "a"; Some "b"; None]
  = [Some "a"; None; None].
Proof. reflexivity. Qed.

Example hier_linked_idxs_fixture :
  _nonzero_indexes_by_row (transpose 2 (S_values S_df))
  = [[0; 1]; [0; 2]]%Z.
Proof. reflexivity. Qed.

(** Below a file no directory can be made; the error names the first
    directory that could not be made. *)
Example os_makedirs_below_file :
  result_of (os_makedirs "./data/Favorita200/112830" true
               {| disk := {["./data" := File "x"]}; rng := 0 |})
  = Raise (NotADirectoryError "./data/Favorita200").
Proof. vm_compute. reflexivity. Qed.

(** Writing into a directory that is not there. *)
Example write_csv_no_directory :
  result_of (write_csv "text" "./data/Favorita200/112830/Y_hat.csv" fresh)
  = Raise (OSError "./data/Favorita200/112830").
Proof. vm_compute. reflexivity. Qed.

(** The sort keeps the order of rows with equal keys. *)
Example sort_values_stable :
  sort_values (by_key Z.le fst) [(1, "x"); (0, "y"); (1, "z"); (0, "w")]%Z
  = [(0, "y"); (0, "w"); (1, "x"); (1, "z")]%Z.
Proof. reflexivity. Qed.

(** One test row per series; the row without a series stays in train. *)
Example split_small :
  let df := [ row 0 (Some "a") 0 1; row 1 (Some "a") 1 2; row 2 None 0 5;
              row 3 (Some "b") 0 7 ] in
  groupby_tail 1 df = [row 1 (Some "a") 1 2; row 3 (Some "b") 0 7] ∧
  df_drop (label <$> groupby_tail 1 df) df
  = [row 0 (Some "a") 0 1; row 2 None 0 5].
Proof. by vm_compute. Qed.

(** [drop] goes by row label: when two series of different lengths share
    their labels, a train row goes with the test row of the other
    series. *)
Example split_repeated_labels :
  let df := [ row 0 (Some "a") 0 1; row 1 (Some "a") 1 2;
              row 0 (Some "b") 0 5; row 1 (Some "b") 1 6;
              row 2 (Some "b") 2 7 ] in
  groupby_tail 1 df = [row 1 (Some "a") 1 2; row 2 (Some "b") 2 7] ∧
  df_drop (label <$> groupby_tail 1 df) df
  = [row 0 (Some "a") 0 1; row 0 (Some "b") 0 5].
Proof. by vm_compute. Qed.
End examples.

(** ** The properties of the notebook *)
Section claims.
Context `{Libs}.


(** C2. Model fitting (constructing [StatsForecast] and calling
    [forecast]) is performed if and only if the cached forecast file
    [./data/{dataset}/{item_id}/Y_hat.csv] does not exist; when it exists
    the base forecasts and the fitted values are read back from the cache
    files of the item.  No run fits when the file exists; a run that
    completes fits exactly when it does not. *)
Theorem C2_fit_iff_no_cache LEVEL im item dataset verbose seed s :
  let r := run_baselines LEVEL im item dataset verbose seed s in
  let yhat := yhat_file dataset item in
  let yfitted := yfitted_file dataset item in
  (∀ e, e ∈ events_of r → is_fit e → disk s !! yhat = None) ∧
  ∀ res, result_of r = Ok res →
    (fitting_performed (events_of r) ↔ disk s !! yhat = None) ∧
    (is_Some (disk s !! yhat) →
     ∃ c1 c2 f1 f2 call,
       disk s !! yhat = Some (File c1) ∧
       disk s !! yfitted = Some (File c2) ∧
       parse_csv c1 = Ok f1 ∧ parse_csv c2 = Ok f2 ∧
       EvBootstrapReconcile call ∈ events_of r ∧
       frame_set_index "unique_id" f1 = Ok (rc_Y_hat_df call) ∧
       frame_set_index "unique_id" f2 = Ok (rc_Y_df call)).
Proof.
  intros r yhat yfitted.
  assert (∀ e, e ∈ events_of r → is_fit e → disk s !! yhat = None) as Hfit.
  { intros e He Hf. unfold r in He.
    by destruct (run_baselines_fit_event _ _ _ _ _ _ _ _ He Hf)
      as (_ & _ & _ & _ & ? & _). }
  split; [done|]. intros res Hres.
  destruct r as [[o s'] t] eqn:Hrun. unfold result_of, events_of in *.
  simpl in *. subst o.
  apply run_baselines_Ok in Hrun
    as (v & s1 & t1 & b & s2 & t2 & t3 & Hrp & Hfp & Hrc & Hev).
  apply read_and_parse_run in Hrp as [Hd1 _].
  apply fit_predict_run in Hfp as [_ Hfp].
  apply reconcile_predictions_run in Hrc as (-> & _ & _).
  fold yhat yfitted in Hfp. rewrite Hd1 in Hfp.
  split.
  - split.
    + intros (fcst & h & fitted & level & He & _). by eapply Hfit.
    + intros Hnone. rewrite Hnone in Hfp. destruct Hfp as [_ Hfp].
      destruct (Hfp _ eq_refl) as [-> _].
      exists (fcst_for v), (sv_horizon v), true, LEVEL.
      split; apply Hev; right; left; [left|right; left].
  - intros [e He]. rewrite He in Hfp. destruct Hfp as (_ & _ & _ & Hfp).
    destruct (Hfp _ eq_refl) as (c1 & c2 & f1 & f2 & ? & ? & ? & ? & ? & ?).
    exists c1, c2, f1, f2, (reconcile_call_for LEVEL im v b).
    split_and!; try done; try congruence.
    apply Hev. right; right. left.
Qed.

(** C3. The reconcilers handed to the reconciliation depend only on
    whether [is_strictly_hierarchical] holds for the summation matrix and
    the tags: BottomUp, the two TopDown variants, MinTrace(ols),
    MinTrace(mint_shrink) and ERM(closed) when it holds, and the same
    without the two TopDown variants when it does not. *)
Theorem C3_reconcilers LEVEL im item dataset verbose seed s call :
  EvBootstrapReconcile call
    ∈ events_of (run_baselines LEVEL im item dataset verbose seed s) →
  let strict :=
    is_strictly_hierarchical (S_values (rc_S_df call))
      ((λ kv, (kv.1, get_indexer (S_index (rc_S_df call)) kv.2))
         <$> rc_tags call) in
  let with_top_down :=
    [ BottomUp; TopDown "average_proportions";
      TopDown "proportion_averages"; MinTrace "ols" None;
      MinTrace "mint_shrink" (Some (1 # 1000000)%Q); ERM "closed" ] in
  let without_top_down :=
    [ BottomUp; MinTrace "ols" None;
      MinTrace "mint_shrink" (Some (1 # 1000000)%Q); ERM "closed" ] in
  rc_reconcilers call = (if strict then with_top_down else without_top_down) ∧
  without_top_down = filter (λ r, ¬is_TopDown r) with_top_down ∧
  ∃ data s0 t0,
    load_item_data item dataset "./data/favorita" s = (Ok data, s0, t0) ∧
    rc_S_df call = data_S_df data ∧ rc_tags call = data_tags data.
Proof.
  intros (v & s1 & t1 & b & s2 & t2 & Hrp & Hfp & ->)
    %run_baselines_reconcile_event.
  apply read_and_parse_Ok in Hrp as (data & t0 & Hload & Hv).
  simpl in Hv. subst v. simpl. split_and!; [done|done|].
  by eexists _, _, _.
Qed.


(** C5. After the alignment step the three frames a run returns are in
    the canonical order of the series, the order of [S_df.index], and by
    [ds] within a series; the reconciled frame by [seed] first.  The
    frames are reordered, not changed: the reconciled frame holds the
    rows [bootstrap_reconcile] returned, each once, under its position as
    label and with [unique_id] as a category of [S_df.index]; the test
    frame holds the rows of the test split, relabelled; the train frame
    is the train split, which has that order from [_sort_hier_df]. *)
Theorem C5_canonical_order LEVEL im item dataset verbose seed
    s rec test train s' t :
  run_baselines LEVEL im item dataset verbose seed s
    = (Ok (rec, test, train), s', t) →
  ∃ data s0 t0 call out Y_test,
    load_item_data item dataset "./data/favorita" s = (Ok data, s0, t0) ∧
    EvBootstrapReconcile call ∈ t ∧
    bootstrap_reconcile call = Ok out ∧
    let index := S_index (data_S_df data) in
    let Y_df := select_columns (data_Y_df data) in
    let h := data_horizon data in
    (∀ u, series u Y_test = lastn h (series u Y_df)) ∧
    Forall (λ r, is_Some (unique_id r)) Y_test ∧
    Y_test `sublist_of` Y_df ∧
    rec ≡ₚ imap (λ i o,
                   {| rec_label := Z.of_nat i;
                      rec_unique_id := set_categories index (rs_unique_id o);
                      rec_ds := rs_ds o; rec_seed := rs_seed o;
                      rec_values := rs_values o |}) out ∧
    StronglySorted (by_key lex3 (rec_key index)) rec ∧
    test = imap (λ i r, {| label := Z.of_nat i; unique_id := unique_id r;
                           ds := ds r; y := y r |}) Y_test ∧
    StronglySorted (by_key lex2 (obs_key index)) test ∧
    train = set_index_unique_id
              (filter (λ r, label r ∉ label <$> Y_test) Y_df) ∧
    StronglySorted (by_key lex2 (series_key index)) train.
Proof.
  intros (v & s1 & t1 & b & s2 & t2 & t3 & Hrp & Hfp & Hrc & Hev)
    %run_baselines_Ok.
  apply read_and_parse_Ok in Hrp as (data & t0 & Hload & Hv).
  apply reconcile_predictions_run in Hrc as (-> & _ & Hrc).
  destruct (Hrc _ _ _ eq_refl) as (out & Hout & _ & -> & -> & -> & _).
  pose proof (select_columns_facts _ _ _ _ _ _ _ Hload)
    as (Hnd & Hsorted & Hcat).
  simpl in Hv. subst v. simpl.
  set (Y_df := select_columns (data_Y_df data)) in *.
  set (h := data_horizon data) in *.
  eexists data, s1, t0, _, out, (groupby_tail h Y_df).
  split; [done|]. split; [apply Hev; right; right; left|].
  split; [done|]. simpl. split_and!.
  - intros u. apply groupby_tail_series.
  - apply groupby_tail_is_Some.
  - apply groupby_tail_sublist.
  - apply aligned_rec_Permutation.
  - apply sort_values_sorted; apply _.
  - apply alignment_test_rows.
    + eapply StronglySorted_sublist; [apply groupby_tail_sublist|done].
    + rewrite Forall_forall in Hcat |- *. intros r Hr. apply Hcat.
      eapply elem_of_sublist; [done|]. apply groupby_tail_sublist.
  - apply sort_values_sorted; apply _.
  - done.
  - apply StronglySorted_by_key. rewrite series_key_set_index.
    apply StronglySorted_by_key.
    eapply StronglySorted_sublist; [apply sublist_filter|done].
Qed.

(** C6. The reconciliation is called with [num_seeds=10] and
    [num_samples=10], and a run that completes makes the call.  Given
    that [bootstrap_reconcile] returns, for every series and date it
    reports, one result per seed [0 .. num_seeds-1], the reconciled frame
    a run returns has exactly ten distinct seeds for every series and date
    in it. *)
Theorem C6_bootstrap_seeds LEVEL im item dataset verbose seed s :
  let r := run_baselines LEVEL im item dataset verbose seed s in
  (∀ call, EvBootstrapReconcile call ∈ events_of r →
     rc_num_seeds call = 10%Z ∧ rc_num_samples call = 10%Z ∧
     rc_intervals_method call = im) ∧
  ∀ rec test train, result_of r = Ok (rec, test, train) →
    (∃ call, EvBootstrapReconcile call ∈ events_of r) ∧
    ((∀ call out, bootstrap_reconcile call = Ok out →
        ∀ r0, r0 ∈ out → ∀ k,
          (0 ≤ k < rc_num_seeds call)%Z ↔
          ∃ r', r' ∈ out ∧ rs_unique_id r' = rs_unique_id r0 ∧
                rs_ds r' = rs_ds r0 ∧ rs_seed r' = k) →
     ∀ r0, r0 ∈ rec →
       let seeds : gset Z :=
         list_to_set (seeds_at rec (rec_unique_id r0) (rec_ds r0)) in
       seeds = list_to_set (seqZ 0 10) ∧ size seeds = 10).
Proof.
  intros r. split.
  { intros call Hc. unfold r in Hc.
    apply run_baselines_reconcile_event in Hc
      as (v & s1 & t1 & b & s2 & t2 & _ & _ & ->). done. }
  intros rec test train Hres.
  destruct r as [[o s'] t] eqn:Hrun. unfold result_of, events_of in *.
  cbn [fst snd] in *. subst o.
  apply run_baselines_Ok in Hrun
    as (v & s1 & t1 & b & s2 & t2 & t3 & Hrp & Hfp & Hrc & Hev).
  apply reconcile_predictions_run in Hrc as (-> & _ & Hrc).
  destruct (Hrc _ _ _ eq_refl) as (out & Hout & _ & -> & _).
  split.
  { eexists. apply Hev. right; right. left. }
  intros Hcontract r0 Hr0.
  match goal with |- ?x = _ ∧ _ => set (seeds := x) end.
  assert (seeds = list_to_set (seqZ 0 10)) as Hseeds.
  { specialize (Hcontract _ _ Hout). simpl in Hcontract.
    apply set_eq. intros k. unfold seeds.
    rewrite !elem_of_list_to_set, elem_of_seeds_at, elem_of_seqZ.
    apply elem_of_aligned_rec in Hr0 as (i & r1 & Hi & ->). simpl. split.
    - intros (r2 & (j & r3 & Hj & ->)%elem_of_aligned_rec & Hu & Hd & Hk).
      simpl in *. subst k.
      assert (0 ≤ rs_seed r3 < 10)%Z; [|lia].
      apply (Hcontract r3); [by eapply list_elem_of_lookup_2|].
      exists r3. split; [by eapply list_elem_of_lookup_2|done].
    - intros Hk.
      destruct (Hcontract r1 (list_elem_of_lookup_2 _ _ _ Hi) k)
        as [(r' & Hr' & Hu & Hd & Hs) _]; [lia|].
      apply list_elem_of_lookup_1 in Hr' as [j Hj].
      eexists. split; [apply elem_of_aligned_rec; by exists j, r'|].
      simpl. by rewrite Hu, Hd. }
  split; [done|]. rewrite Hseeds.
  rewrite size_list_to_set by apply NoDup_seqZ. by rewrite length_seqZ.
Qed.

(** C7. A successful run writes the reconciled frame, as CSV, to
    [./data/{dataset}/{item_id}/{intervals_method}_rec.csv], and what it
    writes is the reordered reconciled frame that it returns. *)
Theorem C7_reconciled_csv LEVEL im item dataset verbose seed
    s rec test train s' t :
  run_baselines LEVEL im item dataset verbose seed s
    = (Ok (rec, test, train), s', t) →
  disk s' !! (("./data/" +:+ dataset +:+ "/" +:+ pretty item)
              +:+ "/" +:+ im +:+ "_rec.csv")
  = Some (File (rec_to_csv rec)).
Proof.
  intros (v & s1 & t1 & b & s2 & t2 & t3 & Hrp & Hfp & Hrc & _)
    %run_baselines_Ok.
  apply fit_predict_run in Hfp as [Hfile _].
  apply reconcile_predictions_run in Hrc as (_ & _ & Hrc).
  destruct (Hrc _ _ _ eq_refl) as (out & _ & _ & _ & _ & _ & Hdisk).
  by rewrite (Hfile _ eq_refl) in Hdisk.
Qed.

(** C8. The script checks its parameters before it runs anything: with
    an [intervals_method] outside ['bootstrap', 'normality', 'permbu'] or a
    [dataset] outside the available ones it ends in an [AssertionError],
    having made no call, printed nothing and left the disk as it was. *)
Theorem C8_parameter_validation verbose im dataset s :
  (im ∉ ["bootstrap"; "normality"; "permbu"])
  ∨ (dataset ∉ ["Favorita200"; "Favorita500"; "FavoritaComplete"]) →
  ∃ msg, script verbose im dataset s = (Raise (AssertionError msg), s, []).
Proof.
  intros Hbad. unfold script, py_assert, mbind, M_bind.
  case_bool_decide as Him; simpl; [|by eexists].
  case_bool_decide as Hds; simpl; [|by eexists].
  by destruct Hbad.
Qed.

(** C9. [load_item_data] is not a function of its arguments alone: the
    [y] column it returns is the stored column plus the noise that the
    call draws from numpy's generator ([normal], loc 0.0, scale 0.01, one
    draw per row), and the generator moves on.  Two calls on the same
    disk return the same rows in the same order, and the same hierarchy
    data; only the [y] values, through the noise, can differ. *)
Theorem C9_load_noise item dataset directory s1 s2 d1 d2 s1' s2' t1 t2 :
  disk s1 = disk s2 →
  load_item_data item dataset directory s1 = (Ok d1, s1', t1) →
  load_item_data item dataset directory s2 = (Ok d2, s2', t2) →
  ∃ raw parsed stored,
    FavoritaData_load (disk s1) directory dataset
      = Ok (raw, data_S_df d1, data_tags d1) ∧
    parse_ds raw = Ok parsed ∧
    _sort_hier_df
      (rename_hier_id <$> filter (λ r, raw_item_id r = item) parsed)
      (data_S_df d1) = Ok stored ∧
    let noise g := random_normal g 0%Q (1 # 100)%Q (length stored) in
    (io_y <$> data_Y_df d1
     = zip_with num_add (io_y <$> stored) (noise (rng s1)).1) ∧
    io_y <$> data_Y_df d2
      = zip_with num_add (io_y <$> stored) (noise (rng s2)).1 ∧
    rng s1' = (noise (rng s1)).2 ∧ rng s2' = (noise (rng s2)).2 ∧
    io_label <$> data_Y_df d1 = io_label <$> stored ∧
    io_label <$> data_Y_df d2 = io_label <$> stored ∧
    io_item_id <$> data_Y_df d1 = io_item_id <$> stored ∧
    io_item_id <$> data_Y_df d2 = io_item_id <$> stored ∧
    io_unique_id <$> data_Y_df d1 = io_unique_id <$> stored ∧
    io_unique_id <$> data_Y_df d2 = io_unique_id <$> stored ∧
    io_ds <$> data_Y_df d1 = io_ds <$> stored ∧
    io_ds <$> data_Y_df d2 = io_ds <$> stored ∧
    data_S_df d1 = data_S_df d2 ∧ data_tags d1 = data_tags d2 ∧
    data_hier_idxs d1 = data_hier_idxs d2 ∧
    data_hier_levels d1 = data_hier_levels d2 ∧
    data_hier_linked_idxs d1 = data_hier_linked_idxs d2 ∧
    data_horizon d1 = data_horizon d2 ∧ data_freq d1 = data_freq d2 ∧
    data_seasonality d1 = data_seasonality d2.
Proof.
  intros Hdisk
    (info1 & raw1 & parsed1 & stored1 & Hi1 & Hl1 & Hp1 & Hs1 & Hn1 & -> & _
     & Hh1 & Hf1 & Hse1 & Hlv1 & Hix1 & Hlk1)%load_item_data_Ok
    (info2 & raw2 & parsed2 & stored2 & Hi2 & Hl2 & Hp2 & Hs2 & Hn2 & -> & _
     & Hh2 & Hf2 & Hse2 & Hlv2 & Hix2 & Hlk2)%load_item_data_Ok.
  rewrite <-Hdisk in Hl2. simplify_eq.
  assert (data_S_df d2 = data_S_df d1) as HS by congruence.
  assert (data_tags d2 = data_tags d1) as HT by congruence.
  rewrite HS in *. rewrite HT in *. simplify_eq.
  apply add_noise_Ok in Hn1 as (_ & ? & ? & ? & ? & ?).
  apply add_noise_Ok in Hn2 as (_ & ? & ? & ? & ? & ?).
  exists raw1, parsed1, stored1. simpl. split_and!; congruence.
Qed.

(** C10. When the cache file [Y_hat.csv] of the item exists, a run
    leaves [Y_hat.csv] and [Y_fitted.csv] as they are, whatever the
    interval method and however the run ends, and it fits nothing; the
    cache does not depend on the interval method, so runs with different
    interval methods reconcile the same base forecasts. *)
Theorem C10_cache_untouched LEVEL im item dataset verbose seed s :
  let yhat := yhat_file dataset item in
  let yfitted := yfitted_file dataset item in
  is_Some (disk s !! yhat) →
  let r := run_baselines LEVEL im item dataset verbose seed s in
  disk (state_of r) !! yhat = disk s !! yhat ∧
  disk (state_of r) !! yfitted = disk s !! yfitted ∧
  (∀ e, e ∈ events_of r → ¬is_fit e) ∧
  ∀ LEVEL' im' verbose' seed' s' call call',
    disk s' !! yhat = disk s !! yhat →
    disk s' !! yfitted = disk s !! yfitted →
    EvBootstrapReconcile call ∈ events_of r →
    EvBootstrapReconcile call'
      ∈ events_of (run_baselines LEVEL' im' item dataset verbose' seed' s') →
    rc_Y_hat_df call' = rc_Y_hat_df call ∧ rc_Y_df call' = rc_Y_df call.
Proof.
  intros yhat yfitted Hcached r.
  destruct (run_baselines_cache_kept LEVEL im item dataset verbose seed s
              Hcached) as [Hkept Hkept'].
  split; [done|]. split; [done|]. split.
  - intros e He Hf. unfold r in He.
    destruct (run_baselines_fit_event _ _ _ _ _ _ _ _ He Hf)
      as (_ & _ & _ & _ & Hnone & _).
    fold yhat in Hnone. rewrite Hnone in Hcached. by destruct Hcached.
  - intros LEVEL' im' verbose' seed' s' call call' Hyhat Hyfit Hc Hc'.
    unfold r in Hc.
    apply run_baselines_reconcile_event in Hc
      as (v & s1 & t1 & b & s2 & t2 & Hrp & Hfp & ->).
    apply run_baselines_reconcile_event in Hc'
      as (v' & s1' & t1' & b' & s2' & t2' & Hrp' & Hfp' & ->).
    apply read_and_parse_run in Hrp as [Hd _].
    apply read_and_parse_run in Hrp' as [Hd' _].
    apply fit_predict_run in Hfp as [_ Hfp].
    apply fit_predict_run in Hfp' as [_ Hfp'].
    fold yhat yfitted in Hfp, Hfp'.
    rewrite Hd in Hfp. rewrite Hd', Hyhat in Hfp'.
    destruct Hcached as [e He]. rewrite He in Hfp, Hfp'.
    destruct Hfp as (_ & _ & _ & Hfp). destruct Hfp' as (_ & _ & _ & Hfp').
    destruct (Hfp _ eq_refl) as (c1 & c2 & f1 & f2 & ? & ? & ? & ? & ? & ?).
    destruct (Hfp' _ eq_refl)
      as (c1' & c2' & f1' & f2' & ? & ? & ? & ? & ? & ?).
    simpl. split; congruence.
Qed.
End claims.

(** ** The properties at work on the small hierarchy *)



Lemma C2_fit_iff_no_cache_witness :
  disk Fixture.fresh !! yhat_file "Favorita200" 112830 = None ∧
  fitting_performed (events_of (Fixture.run "bootstrap" Fixture.fresh)) ∧
  is_Some (disk Fixture.cached !! yhat_file "Favorita200" 112830) ∧
  ¬fitting_performed (events_of (Fixture.run "normality" Fixture.cached)).
Proof.
  assert (disk Fixture.fresh !! yhat_file "Favorita200" 112830 = None)
    as Hnone by (vm_compute; reflexivity).
  assert (is_Some (disk Fixture.cached !! yhat_file "Favorita200" 112830))
    as Hsome by (vm_compute; eexists; reflexivity).
  split; [exact Hnone|]. split; [|split; [exact Hsome|]].
  - destruct fresh_run_Ok as (rec & test & train & s' & t & Hrun).
    destruct (C2_fit_iff_no_cache LEVEL_default "bootstrap" 112830
                "Favorita200" false 0 Fixture.fresh) as [_ Hok].
    destruct (Hok (rec, test, train)) as [Hiff _].
    + unfold Fixture.run in Hrun. rewrite Hrun. reflexivity.
    + apply Hiff. exact Hnone.
  - destruct cached_run_Ok as (rec & test & train & s' & t & Hrun).
    destruct (C2_fit_iff_no_cache LEVEL_default "normality" 112830
                "Favorita200" false 0 Fixture.cached) as [_ Hok].
    destruct (Hok (rec, test, train)) as [Hiff _].
    + unfold Fixture.run in Hrun. rewrite Hrun. reflexivity.
    + intros Hfit%Hiff. destruct Hsome as [e He]. congruence.
Defined.

Lemma C3_reconcilers_witness :
  ∃ call,
    EvBootstrapReconcile call
      ∈ events_of (Fixture.run "bootstrap" Fixture.fresh) ∧
    rc_reconcilers call
    = [ BottomUp; TopDown "average_proportions";
        TopDown "proportion_averages"; MinTrace "ols" None;
        MinTrace "mint_shrink" (Some (1 # 1000000)%Q); ERM "closed" ].
Proof.
  destruct fresh_run_events as (fcst & call & _ & Hcall). exists call.
  split; [exact Hcall|].
  destruct (C3_reconcilers LEVEL_default "bootstrap" 112830 "Favorita200"
              false 0 Fixture.fresh call Hcall) as [Hrec _].
  exact Hrec.
Defined.



Lemma C5_canonical_order_witness :
  ∃ rec test train s' t,
    Fixture.run "bootstrap" Fixture.fresh = (Ok (rec, test, train), s', t) ∧
    let index := ["total"; "a"; "b"] in
    length rec = 30 ∧ length test = 3 ∧ length train = 6 ∧
    StronglySorted (by_key lex3 (rec_key index)) rec ∧
    StronglySorted (by_key lex2 (obs_key index)) test ∧
    StronglySorted (by_key lex2 (series_key index)) train.
Proof.
  destruct fresh_run_Ok as (rec & test & train & s' & t & Hrun).
  exists rec, test, train, s', t. split; [exact Hrun|].
  destruct (C5_canonical_order LEVEL_default "bootstrap" 112830 "Favorita200"
              false 0 Fixture.fresh rec test train s' t Hrun)
    as (data & s0 & t0 & call & out & Y_test & Hload & _ & _ & _ & _ & _
        & _ & Hrec & _ & Htest & _ & Htrain).
  assert (S_index (data_S_df data) = ["total"; "a"; "b"]) as Hindex.
  { vm_compute in Hload. injection Hload as <- _ _. reflexivity. }
  rewrite Hindex in Hrec, Htest, Htrain.
  rewrite fresh_run_eq in Hrun. injection Hrun as <- <- <- _ _.
  split; [reflexivity|]. split; [reflexivity|]. split; [reflexivity|].
  split; [exact Hrec|]. split; [exact Htest|exact Htrain].
Defined.

Lemma C6_bootstrap_seeds_witness :
  ∃ rec test train,
    result_of (Fixture.run "bootstrap" Fixture.fresh) = Ok (rec, test, train) ∧
    rec ≠ [] ∧
    ∀ r0, r0 ∈ rec →
      size (list_to_set (seeds_at rec (rec_unique_id r0) (rec_ds r0))
              : gset Z) = 10.
Proof.
  destruct fresh_run_Ok as (rec & test & train & s' & t & Hrun).
  exists rec, test, train.
  assert (result_of (Fixture.run "bootstrap" Fixture.fresh)
          = Ok (rec, test, train)) as Hres by (by rewrite Hrun).
  split; [exact Hres|]. split.
  { rewrite fresh_run_eq in Hrun. injection Hrun as <- _ _ _ _. discriminate. }
  destruct (C6_bootstrap_seeds LEVEL_default "bootstrap" 112830 "Favorita200"
              false 0 Fixture.fresh) as [_ Hok].
  destruct (Hok rec test train Hres) as [_ Hseeds].
  intros r0 Hr0. apply (Hseeds fixture_seeds r0 Hr0).
Defined.

Lemma C7_reconciled_csv_witness :
  ∃ rec test train s' t,
    Fixture.run "bootstrap" Fixture.fresh = (Ok (rec, test, train), s', t) ∧
    disk s' !! "./data/Favorita200/112830/bootstrap_rec.csv"
    = Some (File (rec_to_csv rec)).
Proof.
  destruct fresh_run_Ok as (rec & test & train & s' & t & Hrun).
  exists rec, test, train, s', t. split; [exact Hrun|].
  apply (C7_reconciled_csv LEVEL_default "bootstrap" 112830 "Favorita200"
           false 0 Fixture.fresh rec test train s' t Hrun).
Defined.

Lemma C8_parameter_validation_witness :
  ("bootstrapped" ∉ ["bootstrap"; "normality"; "permbu"]) ∧
  ∃ msg,
    script true "bootstrapped" "Favorita200" Fixture.fresh
    = (Raise (AssertionError msg), Fixture.fresh, []).
Proof.
  assert ("bootstrapped" ∉ ["bootstrap"; "normality"; "permbu"]) as Hbad.
  { apply (bool_decide_unpack
             ("bootstrapped" ∉ ["bootstrap"; "normality"; "permbu"])).
    vm_compute. exact I. }
  split; [exact Hbad|].
  apply (C8_parameter_validation true "bootstrapped" "Favorita200"
           Fixture.fresh (or_introl Hbad)).
Defined.

Lemma C9_load_noise_witness :
  let s2 := {| disk := disk Fixture.fresh; rng := 9 |} in
  ∃ d1 d2 s1' s2' t1 t2,
    load_item_data 112830 "Favorita200" "./data/favorita" Fixture.fresh
      = (Ok d1, s1', t1) ∧
    load_item_data 112830 "Favorita200" "./data/favorita" s2
      = (Ok d2, s2', t2) ∧
    io_label <$> data_Y_df d1 = io_label <$> data_Y_df d2 ∧
    io_unique_id <$> data_Y_df d1 = io_unique_id <$> data_Y_df d2 ∧
    io_ds <$> data_Y_df d1 = io_ds <$> data_Y_df d2 ∧
    io_y <$> data_Y_df d1 ≠ io_y <$> data_Y_df d2.
Proof.
  intros s2.
  destruct (load_item_data 112830 "Favorita200" "./data/favorita"
              Fixture.fresh) as [[[d1|e1] s1'] t1] eqn:H1;
    [|vm_compute in H1; discriminate].
  destruct (load_item_data 112830 "Favorita200" "./data/favorita" s2)
    as [[[d2|e2] s2'] t2] eqn:H2; [|vm_compute in H2; discriminate].
  exists d1, d2, s1', s2', t1, t2. split; [reflexivity|]. split; [reflexivity|].
  destruct (C9_load_noise 112830 "Favorita200" "./data/favorita"
              Fixture.fresh s2 d1 d2 s1' s2' t1 t2 eq_refl H1 H2)
    as (raw & parsed & stored & _ & _ & _ & _ & _ & _ & _
        & Hl1 & Hl2 & _ & _ & Hu1 & Hu2 & Hd1 & Hd2 & _).
  split; [congruence|]. split; [congruence|]. split; [congruence|].
  vm_compute in H1, H2. injection H1 as <- _ _. injection H2 as <- _ _.
  vm_compute. discriminate.
Defined.

Lemma C10_cache_untouched_witness :
  is_Some (disk Fixture.cached !! yhat_file "Favorita200" 112830) ∧
  disk (state_of (Fixture.run "normality" Fixture.cached))
    !! yhat_file "Favorita200" 112830 = Some (File "old_hat") ∧
  disk (state_of (Fixture.run "normality" Fixture.cached))
    !! yfitted_file "Favorita200" 112830 = Some (File "old_fitted").
Proof.
  assert (is_Some (disk Fixture.cached !! yhat_file "Favorita200" 112830))
    as Hsome by (vm_compute; eexists; reflexivity).
  split; [exact Hsome|].
  destruct (C10_cache_untouched LEVEL_default "normality" 112830
              "Favorita200" false 0 Fixture.cached Hsome)
    as (Hhat & Hfitted & _).
  unfold Fixture.run. rewrite Hhat, Hfitted. split; vm_compute; reflexivity.
Defined.

(** ** More facts about the stable sort *)
Section stable_sort_facts.
Context {A : Type} (R : relation A) `{!∀ x y, Decision (R x y)}.

(** The sort is stable: rows that the order does not tell apart keep
    their order. *)
Lemma sorted_insert_filter (P : A → Prop) `{!∀ x, Decision (P x)} x l :
  (∀ a b, P a → P b → R a b) →
  filter P (sorted_insert R x l) = filter P (x :: l).
Proof.
  intros HP. induction l as [|y l IH]; simpl; [done|].
  case_decide as Hxy; [done|].
  rewrite filter_cons, IH, !filter_cons.
  destruct (decide (P y)) as [Hy|Hy], (decide (P x)) as [Hx|Hx]; try done.
  destruct Hxy. by apply HP.
Qed.

Lemma sort_values_filter (P : A → Prop) `{!∀ x, Decision (P x)} l :
  (∀ a b, P a → P b → R a b) →
  filter P (sort_values R l) = filter P l.
Proof.
  intros HP. induction l as [|x l IH]; simpl; [done|].
  rewrite sorted_insert_filter by done. by rewrite !filter_cons, IH.
Qed.
End stable_sort_facts.

Lemma filter_Forall_id {A} (P : A → Prop) `{!∀ x, Decision (P x)} l :
  Forall P l → filter P l = l.
Proof.
  induction 1 as [|x l Hx _ IH]; [done|].
  by rewrite filter_cons, decide_True, IH.
Qed.

Lemma Forall2_filter_fmap {A B C} (P : A → Prop) (Q : B → Prop)
    `{!∀ x, Decision (P x), !∀ x, Decision (Q x)}
    (f : A → C) (g : B → C) (R : A → B → Prop) l k :
  (∀ a b, R a b → (P a ↔ Q b) ∧ f a = g b) →
  Forall2 R l k → f <$> filter P l = g <$> filter Q k.
Proof.
  intros HR. induction 1 as [|a b l k Hab _ IH]; [done|].
  rewrite !filter_cons. destruct (HR _ _ Hab) as [HPQ Hfg].
  destruct (decide (P a)) as [Ha|Ha], (decide (Q b)) as [Hb|Hb];
    try tauto; rewrite ?fmap_cons; by rewrite ?Hfg, IH.
Qed.

(** ** The helpers of the class *)
Section class_facts.
Context `{Libs}.

Lemma item_set_categories_known index (Y_df : list item_obs) :
  Forall (λ r, match io_unique_id r with
               | Some u => u ∈ index
               | None => True
               end) (item_set_categories index Y_df).
Proof.
  unfold item_set_categories. apply Forall_fmap, Forall_true. intros r. simpl.
  destruct (io_unique_id r) as [u|]; simpl; [|done]. by case_decide.
Qed.

Lemma item_set_categories_id index (Y_df : list item_obs) :
  Forall (λ r, set_categories index (io_unique_id r) = io_unique_id r) Y_df →
  item_set_categories index Y_df = Y_df.
Proof.
  unfold item_set_categories. induction 1 as [|r l Hr _ IH]; [done|].
  rewrite fmap_cons. f_equal; [|done]. rewrite Hr. by destruct r.
Qed.

Lemma np_nonzero_elem (v : list Z) k :
  k ∈ np_nonzero v ↔ ∃ j x, k = Z.of_nat j ∧ v !! j = Some x ∧ x ≠ 0%Z.
Proof.
  unfold np_nonzero. rewrite list_elem_of_fmap. split.
  - intros ([j x] & -> & [Hx Hin]%list_elem_of_filter).
    apply elem_of_lookup_imap in Hin as (i & y & [= -> ->] & Hi). eauto.
  - intros (j & x & -> & Hj & Hx). exists (j, x). split; [done|].
    apply list_elem_of_filter. split; [done|].
    apply elem_of_lookup_imap. eauto.
Qed.

Lemma np_nonzero_sorted_from (v : list Z) n :
  StronglySorted Z.lt
    ((λ p, Z.of_nat p.1)
       <$> filter (λ p, p.2 ≠ 0%Z) (imap (λ i, pair (n + i)) v))
  ∧ Forall (λ k, Z.of_nat n ≤ k)%Z
      ((λ p, Z.of_nat p.1)
         <$> filter (λ p, p.2 ≠ 0%Z) (imap (λ i, pair (n + i)) v)).
Proof.
  revert n. induction v as [|x v IH]; intros n; simpl.
  { split; constructor. }
  destruct (IH (S n)) as [Hs Hf].
  assert (imap ((λ i, pair (n + i)) ∘ S) v = imap (λ i, pair (S n + i)) v)
    as ->.
  { apply imap_ext. intros i y _. simpl. f_equal. lia. }
  rewrite filter_cons. simpl.
  case_decide; simpl.
  - split.
    + constructor; [done|]. eapply Forall_impl; [exact Hf|].
      simpl. intros. lia.
    + constructor; [lia|]. eapply Forall_impl; [exact Hf|].
      simpl. intros. lia.
  - split; [done|]. eapply Forall_impl; [exact Hf|]. simpl. intros. lia.
Qed.

Lemma np_nonzero_sorted (v : list Z) : StronglySorted Z.lt (np_nonzero v).
Proof. apply (np_nonzero_sorted_from v 0). Qed.

Lemma _nonzero_indexes_by_row_lookup (M : list (list Z)) i row :
  M !! i = Some row →
  _nonzero_indexes_by_row M !! i = Some (np_nonzero row).
Proof.
  intros Hi. unfold _nonzero_indexes_by_row.
  rewrite list_lookup_fmap, lookup_seq_lt by (by eapply lookup_lt_Some).
  simpl. by rewrite (list_lookup_total_correct _ _ _ Hi).
Qed.

Lemma transpose_lookup ncols (m : list (list Z)) j :
  j < ncols → transpose ncols m !! j = Some ((λ row, row !!! j) <$> m).
Proof.
  intros Hj. unfold transpose. by rewrite list_lookup_fmap, lookup_seq_lt.
Qed.

Lemma index_of_Some s l i :
  index_of s l = Some i → l !! i = Some s.
Proof.
  revert i. induction l as [|x l IH]; intros i; simpl; [done|].
  case_decide as Hx; [by intros [= <-]; subst|].
  destruct (index_of s l) as [k|]; intros; simplify_eq/=. by apply IH.
Qed.

Lemma index_of_None s l : index_of s l = None ↔ s ∉ l.
Proof.
  induction l as [|x l IH]; simpl.
  { split; [intros _ ?%elem_of_nil; done|done]. }
  rewrite not_elem_of_cons. case_decide as Hx.
  - split; [done|]. intros [? _]. by subst.
  - destruct (index_of s l) as [k|]; simpl.
    + split; [done|]. intros [_ Hn]. by apply IH in Hn.
    + split; [|done]. intros _. split; [done|]. by apply IH.
Qed.

(** [get_indexer] gives the position of a label of the index, and [-1]
    for any other label. *)
Lemma get_indexer_lookup index labels p m :
  labels !! p = Some m →
  ∃ k, get_indexer index labels !! p = Some k ∧
       if decide (m ∈ index)
       then (0 ≤ k)%Z ∧ index !! Z.to_nat k = Some m
       else k = (-1)%Z.
Proof.
  intros Hp. unfold get_indexer. rewrite list_lookup_fmap, Hp. simpl.
  eexists. split; [done|].
  destruct (index_of m index) as [i|] eqn:Hi; simpl.
  - rewrite decide_True.
    + split; [lia|]. rewrite Nat2Z.id. by apply index_of_Some.
    + apply index_of_Some in Hi. by eapply list_elem_of_lookup_2.
  - apply index_of_None in Hi. by rewrite decide_False.
Qed.

Lemma parse_ds_Forall2 raw parsed :
  parse_ds raw = Ok parsed →
  Forall2 (λ r p, raw_label p = raw_label r ∧
                  raw_item_id p = raw_item_id r ∧
                  hier_id p = hier_id r ∧ raw_y p = raw_y r ∧
                  to_datetime (raw_ds r) = Ok (raw_ds p)) raw parsed.
Proof.
  revert parsed. induction raw as [|r raw IH]; intros parsed; simpl.
  { intros [= <-]. constructor. }
  destruct (to_datetime (raw_ds r)) eqn:Hd; [|done].
  destruct (parse_ds raw) as [l|]; [|done].
  intros [= <-]. constructor; [done|]. by apply IH.
Qed.

Lemma groupby_tail_nil n (df : list obs) :
  n = 0 ∨ Forall (λ r, unique_id r = None) df → groupby_tail n df = [].
Proof.
  intros Hn. induction df as [|r df IH]; simpl; [done|].
  assert (in_tail n r df = false) as ->.
  { unfold in_tail. apply bool_decide_eq_false. intros [Hu Hlen].
    destruct Hn as [->|Hnone]; [lia|].
    apply Forall_cons in Hnone as [Hr _]. rewrite Hr in Hu.
    by destruct Hu. }
  apply IH. destruct Hn as [?|Hnone]; [by left|right].
  by apply Forall_cons in Hnone as [_ ?].
Qed.
End class_facts.

(** ** What a computation logs and what it keeps on the disk *)
Section logs_facts.
Context `{Libs}.

Lemma logs_bind {A B} P (m : M A) (k : A → M B) :
  logs P m → (∀ a, logs P (k a)) → logs P (m ≫= k).
Proof.
  intros Hm Hk s o s2 t Hrun.
  run_step Hrun Hm'; simplify_eq.
  - apply Forall_app. split; [by eapply Hm|by eapply Hk].
  - by eapply Hm.
Qed.

Lemma logs_nothing {A} P (m : M A) :
  (∀ s o s1 t1, m s = (o, s1, t1) → t1 = []) → logs P m.
Proof. intros Hm s o s1 t1 ->%Hm. constructor. Qed.

Lemma logs_ret {A} P (a : A) : logs P (mret a).
Proof. apply logs_nothing. by intros s o s1 t1 [= <- <- <-]. Qed.

Lemma logs_lift {A} P (o : outcome A) : logs P (lift o).
Proof. apply logs_nothing. by intros s o' s1 t1 [= <- <- <-]. Qed.

Lemma logs_get_disk P : logs P get_disk.
Proof. apply logs_nothing. by intros s o' s1 t1 [= <- <- <-]. Qed.

Lemma logs_emit (P : event → Prop) e : P e → logs P (emit e).
Proof. intros He s o' s1 t1 [= <- <- <-]. by constructor. Qed.

Lemma logs_np_random_normal P loc scale size :
  logs P (np_random_normal loc scale size).
Proof.
  apply logs_nothing. intros s o s1 t1. unfold np_random_normal.
  destruct (random_normal _ _ _ _). by intros [= <- <- <-].
Qed.

Lemma logs_os_path_exists P path : logs P (os_path_exists path).
Proof. apply logs_nothing. by intros s o' s1 t1 [= <- <- <-]. Qed.

Lemma logs_os_makedirs P name exist_ok : logs P (os_makedirs name exist_ok).
Proof.
  apply logs_nothing. by intros s o' s1 t1 (-> & _)%os_makedirs_run.
Qed.

Lemma logs_pd_read_csv P path : logs P (pd_read_csv path).
Proof.
  apply logs_nothing. by intros s o' s1 t1 (_ & -> & _)%pd_read_csv_run.
Qed.

Lemma logs_write_csv P content path : logs P (write_csv content path).
Proof.
  apply logs_nothing. by intros s o' s1 t1 (-> & _)%write_csv_run.
Qed.
End logs_facts.

Ltac logs_steps :=
  repeat first
    [ apply logs_ret | apply logs_lift | apply logs_get_disk
    | apply logs_np_random_normal | apply logs_os_path_exists
    | apply logs_os_makedirs | apply logs_pd_read_csv
    | apply logs_write_csv
    | apply logs_emit; simpl; tauto
    | apply logs_bind; [|intros]
    | match goal with
      | |- logs _ (if ?b then _ else _) => destruct b
      | |- logs _ (match ?p with (_, _) => _ end) => destruct p
      | |- logs _ (let '(_, _) := ?p in _) => destruct p
      end ].

Section timer_facts.
Context `{Libs}.

Lemma logs_read_and_parse item dataset :
  logs (λ e, ¬is_timer e) (read_and_parse item dataset).
Proof. unfold read_and_parse, load_item_data, print. logs_steps. Qed.

Lemma logs_fit_predict LEVEL im item dataset v :
  logs (λ e, ¬is_timer e) (fit_predict LEVEL im item dataset v).
Proof. unfold fit_predict. logs_steps. Qed.

Lemma logs_reconcile_predictions LEVEL im v b :
  logs (λ e, ¬is_timer e) (reconcile_predictions LEVEL im v b).
Proof. unfold reconcile_predictions. logs_steps. Qed.

Lemma filter_timer (verbose : bool) name :
  filter (λ e, ¬is_timer e) (if verbose then [EvCodeTimer name] else [])
  = [].
Proof.
  destruct verbose; [|done]. rewrite filter_cons.
  by rewrite decide_False by (simpl; tauto).
Qed.
End timer_facts.

Section keeps_facts.
Context `{Libs}.

Lemma entries_kept_refl paths d : entries_kept paths d d.
Proof. by intros p e. Qed.

Lemma entries_kept_trans paths d1 d2 d3 :
  entries_kept paths d1 d2 → entries_kept paths d2 d3 →
  entries_kept paths d1 d3.
Proof. intros H12 H23 p e Hp Hc. eauto. Qed.

Lemma keeps_mono {A} paths paths' (m : M A) :
  paths ⊆ paths' → keeps paths m → keeps paths' m.
Proof.
  intros Hsub Hm s o s1 t1 Hrun p e Hp Hc. eapply Hm; [done..|].
  destruct Hc as [?|Hc]; [by left|right]. intros Hin. by apply Hc, Hsub.
Qed.

Lemma keeps_bind {A B} paths (m : M A) (k : A → M B) :
  keeps paths m → (∀ a, keeps paths (k a)) → keeps paths (m ≫= k).
Proof.
  intros Hm Hk s o s2 t Hrun.
  run_step Hrun Hm'; simplify_eq.
  - eapply entries_kept_trans; [by eapply Hm|by eapply Hk].
  - by eapply Hm.
Qed.

Lemma keeps_same {A} paths (m : M A) :
  (∀ s o s1 t1, m s = (o, s1, t1) → disk s1 = disk s) → keeps paths m.
Proof. intros Hm s o s1 t1 ->%Hm. apply entries_kept_refl. Qed.

Lemma keeps_ret {A} paths (a : A) : keeps paths (mret a).
Proof. apply keeps_same. by intros s o s1 t1 [= <- <- <-]. Qed.

Lemma keeps_lift {A} paths (o : outcome A) : keeps paths (lift o).
Proof. apply keeps_same. by intros s o' s1 t1 [= <- <- <-]. Qed.

Lemma keeps_emit paths e : keeps paths (emit e).
Proof. apply keeps_same. by intros s o' s1 t1 [= <- <- <-]. Qed.

Lemma keeps_os_path_exists paths path : keeps paths (os_path_exists path).
Proof. apply keeps_same. by intros s o' s1 t1 [= <- <- <-]. Qed.

Lemma keeps_pd_read_csv paths path : keeps paths (pd_read_csv path).
Proof.
  apply keeps_same. by intros s o' s1 t1 (-> & _)%pd_read_csv_run.
Qed.

Lemma lookup_foldr_insert_Dir_elem (d : gmap string entry) l p :
  p ∈ l → foldr (λ a, <[a:=Dir]>) d l !! p = Some Dir.
Proof.
  induction l as [|a l IH]; simpl; [by intros ?%elem_of_nil|].
  intros [->|Hin]%elem_of_cons; [by rewrite lookup_insert_eq|].
  destruct (decide (a = p)) as [->|Hne]; [by rewrite lookup_insert_eq|].
  rewrite lookup_insert_ne by done. auto.
Qed.

(** [os.makedirs] replaces nothing. *)
Lemma keeps_os_makedirs paths name exist_ok :
  keeps paths (os_makedirs name exist_ok).
Proof.
  apply (keeps_mono []); [apply list_subseteq_nil|].
  intros s o s1 t1. unfold os_makedirs, mbind, M_bind, get_disk. simpl.
  destruct (disk s !! name) as [[c|]|] eqn:Hname.
  - intros [= <- <- <-]. apply entries_kept_refl.
  - destruct exist_ok; intros [= <- <- <-]; apply entries_kept_refl.
  - destruct (existsb _ _) eqn:Hfiles; intros [= <- <- <-];
      [apply entries_kept_refl|]. simpl.
    intros p e Hp _.
    destruct (decide (p ∈ ancestors name ++ [name])) as [Hin|Hin].
    + rewrite lookup_foldr_insert_Dir_elem by done. f_equal.
      apply elem_of_app in Hin as [Hin|Hin%list_elem_of_singleton].
      * destruct e as [c|]; [|done].
        assert (existsb (is_file (disk s)) (ancestors name) = true) as Hex.
        { apply existsb_exists. exists p. split.
          - by apply list_elem_of_In.
          - unfold is_file. by rewrite Hp. }
        congruence.
      * subst. congruence.
    + by rewrite lookup_foldr_insert_Dir.
Qed.

(** Writing a file replaces no directory and no other file. *)
Lemma keeps_open_for_writing paths content path :
  path ∈ paths → keeps paths (open_for_writing content path).
Proof.
  intros Hpath. apply (keeps_mono [path]).
  { intros q ->%list_elem_of_singleton. done. }
  intros s o s1 t1. unfold open_for_writing, mbind, M_bind, get_disk. simpl.
  assert (disk s !! path ≠ Some Dir →
          entries_kept [path] (disk s) (<[path:=File content]> (disk s)))
    as Hput.
  { intros Hnd p e Hp Hc. destruct (decide (p = path)) as [->|Hne].
    - destruct Hc as [->|Hc]; [done|].
      destruct Hc. by apply list_elem_of_singleton.
    - by rewrite lookup_insert_ne. }
  destruct (disk s !! path) as [[c|]|] eqn:Hp;
    intros [= <- <- <-]; simpl;
    first [apply entries_kept_refl | by apply Hput].
Qed.

Lemma keeps_write_csv paths content path :
  path ∈ paths → keeps paths (write_csv content path).
Proof.
  intros Hpath s o s1 t1 Hrun. unfold write_csv in Hrun.
  run_step Hrun Hd; unfold get_disk in Hd; simplify_eq.
  destruct (last (ancestors path)) as [parent|];
    [destruct (disk _ !! parent) as [[c'|]|]|];
    try (apply lift_eq in Hrun; simplify_eq; apply entries_kept_refl);
    by eapply keeps_open_for_writing.
Qed.

Lemma keeps_read_and_parse paths item dataset :
  keeps paths (read_and_parse item dataset).
Proof.
  apply keeps_same. by intros s o s1 t1 [? _]%read_and_parse_run.
Qed.

Lemma keeps_fit_predict paths LEVEL im item dataset v :
  yhat_file dataset item ∈ paths → yfitted_file dataset item ∈ paths →
  keeps paths (fit_predict LEVEL im item dataset v).
Proof.
  intros Hhat Hfitted. unfold fit_predict.
  repeat first
    [ apply keeps_ret | apply keeps_lift | apply keeps_emit
    | apply keeps_os_makedirs | apply keeps_os_path_exists
    | apply keeps_pd_read_csv | by apply keeps_write_csv
    | apply keeps_bind; [|intros]
    | match goal with
      | |- keeps _ (if ?b then _ else _) => destruct b
      | |- keeps _ (match ?p with (_, _) => _ end) => destruct p
      | |- keeps _ (let '(_, _) := ?p in _) => destruct p
      end ].
Qed.

Lemma keeps_reconcile_predictions paths LEVEL im v b :
  bv_yrec_file b ∈ paths → keeps paths (reconcile_predictions LEVEL im v b).
Proof.
  intros Hrec. unfold reconcile_predictions.
  repeat first
    [ apply keeps_ret | apply keeps_lift | apply keeps_emit
    | by apply keeps_write_csv
    | apply keeps_bind; [|intros] ].
Qed.

Lemma fit_predict_yrec LEVEL im item dataset v s b s1 t1 :
  fit_predict LEVEL im item dataset v s = (Ok b, s1, t1) →
  bv_yrec_file b = yrec_file im dataset item.
Proof. intros [Hb _]%fit_predict_run. by apply Hb. Qed.

(** A run replaces no directory, and no file but the three files of its
    item. *)
Lemma keeps_run_baselines LEVEL im item dataset verbose seed :
  keeps [yhat_file dataset item; yfitted_file dataset item;
         yrec_file im dataset item]
    (run_baselines LEVEL im item dataset verbose seed).
Proof.
  intros s o s' t Hrun.
  apply run_baselines_run in Hrun as (o1 & s1 & t1 & Hrp & Hrun).
  apply keeps_read_and_parse
    with (paths := [yhat_file dataset item; yfitted_file dataset item;
                    yrec_file im dataset item]) in Hrp.
  destruct o1 as [v|]; [|by simplify_eq].
  destruct Hrun as (o2 & s2 & t2 & Hfp & Hrun).
  pose proof Hfp as Hfp'.
  apply keeps_fit_predict
    with (paths := [yhat_file dataset item; yfitted_file dataset item;
                    yrec_file im dataset item]) in Hfp';
    [|set_solver..].
  destruct o2 as [b|].
  2:{ simplify_eq. by eapply entries_kept_trans. }
  destruct Hrun as (o3 & s3 & t3 & Hrc & Hrun). simplify_eq.
  apply fit_predict_yrec in Hfp.
  apply keeps_reconcile_predictions
    with (paths := [yhat_file dataset item; yfitted_file dataset item;
                    yrec_file im dataset item]) in Hrc;
    [|rewrite Hfp; set_solver].
  eauto using entries_kept_trans.
Qed.

Lemma string_app_assoc (a b c : string) : (a +:+ b) +:+ c = a +:+ (b +:+ c).
Proof.
  induction a as [|x a IH]; [done|].
  change (String x ((a +:+ b) +:+ c) = String x (a +:+ b +:+ c)).
  by rewrite IH.
Qed.

(** The files of the two items of the script are different files. *)
Lemma item_files_ne dataset x y :
  item_path dataset 112830 +:+ x ≠ item_path dataset 1916577 +:+ y.
Proof.
  unfold item_path. rewrite !string_app_assoc. intros Heq.
  do 3 apply (inj (String.app _)) in Heq.
  assert (pretty 112830%Z = "112830") as Hp1 by (by vm_compute).
  assert (pretty 1916577%Z = "1916577") as Hp2 by (by vm_compute).
  rewrite Hp1, Hp2 in Heq. discriminate.
Qed.

(** The files a successful run leaves behind. *)
Lemma run_baselines_files LEVEL im item dataset verbose seed
    s rec test train s' t :
  run_baselines LEVEL im item dataset verbose seed s
    = (Ok (rec, test, train), s', t) →
  ∃ c1 c2,
    disk s' !! yrec_file im dataset item = Some (File (rec_to_csv rec)) ∧
    disk s' !! yhat_file dataset item = Some (File c1) ∧
    disk s' !! yfitted_file dataset item = Some (File c2) ∧
    (disk s !! yhat_file dataset item = None →
      ∃ fcst h f1 f2,
        EvForecast fcst h true LEVEL ∈ t ∧
        forecast fcst h true LEVEL = Ok f1 ∧
        forecast_fitted_values fcst h true LEVEL = Ok f2 ∧
        c1 = frame_to_csv (frame_reset_index f1) ∧
        c2 = frame_to_csv (frame_reset_index f2)).
Proof.
  intros Hrun.
  apply run_baselines_Ok in Hrun
    as (v & s1 & t1 & b & s2 & t2 & t3 & Hrp & Hfp & Hrc & Ht).
  apply read_and_parse_run in Hrp as [Hd1 _].
  apply fit_predict_run in Hfp as [Hfile Hfp]. rewrite Hd1 in Hfp.
  apply reconcile_predictions_run in Hrc as (_ & Hkeep & Hrec).
  destruct (Hrec _ _ _ eq_refl) as (out & _ & _ & _ & _ & _ & Hyrec).
  rewrite (Hfile _ eq_refl) in Hkeep, Hyrec.
  rewrite Hyrec.
  rewrite !Hkeep;
    [|apply not_eq_sym, yrec_yfitted_ne|apply not_eq_sym, yrec_yhat_ne].
  destruct (disk s !! yhat_file dataset item) as [e|] eqn:Hc.
  - destruct Hfp as (_ & -> & -> & Hb).
    destruct (Hb _ eq_refl) as (c1 & c2 & f1 & f2 & ? & Hc2 & _).
    simplify_eq. rewrite Hc2. exists c1, c2. done.
  - destruct Hfp as (_ & Hb).
    destruct (Hb _ eq_refl) as (-> & f1 & f2 & Hf1 & Hf2 & _ & _ & -> & ->).
    eexists _, _. split_and!; try done. intros _.
    eexists _, _, f1, f2. split_and!; try done.
    apply Ht. right; left. right; left.
Qed.

(** The second block when only [Y_hat.csv] is there. *)
Lemma fit_predict_partial LEVEL im item dataset v s c f :
  disk s !! item_path dataset item = Some Dir →
  disk s !! yhat_file dataset item = Some (File c) →
  parse_csv c = Ok f →
  disk s !! yfitted_file dataset item = None →
  fit_predict LEVEL im item dataset v s
  = (Raise (FileNotFoundError (yfitted_file dataset item)), s, []).
Proof.
  intros Hdir Hhat Hparse Hfit.
  unfold fit_predict, os_makedirs, os_path_exists, pd_read_csv, get_disk,
    mbind, M_bind, lift. simpl.
  rewrite Hdir. simpl. rewrite Hhat. simpl. rewrite Hhat, Hparse. simpl.
  by rewrite Hfit.
Qed.

Lemma py_assert_Ok cond msg s u s' t :
  py_assert cond msg s = (Ok u, s', t) → cond = true ∧ s' = s ∧ t = [].
Proof. destruct cond; by intros [= <- <-]. Qed.

Lemma data_dir_length dataset item_id :
  String.length ("./data/" +:+ dataset)
  < String.length (yhat_file dataset item_id).
Proof.
  unfold yhat_file, item_path. rewrite !string_length_app. simpl. len_lia.
Qed.

(** The second block writes [Y_hat.csv] only after both calls to the
    forecasting library have returned. *)
Lemma fit_predict_cache_written LEVEL im item dataset v s o s1 t1 e :
  fit_predict LEVEL im item dataset v s = (o, s1, t1) →
  disk s !! yhat_file dataset item = None →
  disk s1 !! yhat_file dataset item = Some e →
  ∃ f1 f2,
    forecast (fcst_for v) (sv_horizon v) true LEVEL = Ok f1 ∧
    forecast_fitted_values (fcst_for v) (sv_horizon v) true LEVEL = Ok f2 ∧
    e = File (frame_to_csv (frame_reset_index f1)) ∧
    EvForecastFittedValues (fcst_for v) ∈ t1.
Proof.
  intros Hrun Hnone Hsome. unfold fit_predict in Hrun.
  run_step Hrun Hmk; simplify_eq;
    apply os_makedirs_run in Hmk as (-> & _ & Hdisk);
    rewrite <-(Hdisk (yhat_file dataset item)) in Hnone
      by apply yhat_file_length;
    [|congruence].
  clear Hdisk.
  run_step Hrun Hex; rewrite os_path_exists_run in Hex; simplify_eq.
  rewrite Hnone in Hrun.
  rewrite bool_decide_false in Hrun by (by intros [??]).
  match type of Hrun with
  | (?m ≫= _) ?s = _ => destruct (m s) as [[oB sB] tB] eqn:Hbr
  end.
  assert (disk sB !! yhat_file dataset item = Some e →
          ∃ f1 f2,
            forecast (fcst_for v) (sv_horizon v) true LEVEL = Ok f1 ∧
            forecast_fitted_values (fcst_for v) (sv_horizon v) true LEVEL
              = Ok f2 ∧
            e = File (frame_to_csv (frame_reset_index f1)) ∧
            EvForecastFittedValues (fcst_for v) ∈ tB) as Hbranch.
  { clear Hrun Hsome. intros Hsome.
    run_step Hbr Hex; rewrite os_path_exists_run in Hex; simplify_eq.
    run_step Hbr Hmk; simplify_eq.
    all: match type of Hmk with
         | _ = (_, ?s2, _) =>
             assert (disk s2 !! yhat_file dataset item = None) as Hnone2
               by (destruct (bool_decide _);
                   [unfold mret, M_ret in Hmk; by simplify_eq
                   |apply os_makedirs_run in Hmk as (_ & _ & Hd);
                    by rewrite Hd by apply data_dir_length])
         end.
    all: try congruence.
    clear Hmk Hnone.
    run_step Hbr He1; unfold emit in He1; simplify_eq.
    run_step Hbr He2; unfold emit in He2; simplify_eq.
    run_step Hbr Hf1; apply lift_eq in Hf1; simplify_eq; try congruence.
    run_step Hbr He3; unfold emit in He3; simplify_eq.
    run_step Hbr Hf2; apply lift_eq in Hf2; simplify_eq; try congruence.
    run_step Hbr Hw1; apply write_csv_run in Hw1 as (-> & _ & _ & Hw1);
      simplify_eq; try congruence.
    match goal with
    | Hf1 : Ok ?f1 = forecast _ _ _ _, Hf2 : Ok ?f2 = forecast_fitted_values _ _ _ _
      |- _ => exists f1, f2
    end.
    split; [done|]. split; [done|]. split.
    - run_step Hbr Hw2; apply write_csv_run in Hw2 as (-> & _ & Hw2 & _);
        simplify_eq; [unfold mret, M_ret in Hbr; simplify_eq|];
        rewrite Hw2, Hw1 in Hsome by apply yhat_yfitted_ne; congruence.
    - rewrite !elem_of_app, !elem_of_cons. tauto. }
  run_step Hrun Hbr'; rewrite Hbr in Hbr'; simplify_eq.
  - destruct x0 as [Y_hat_df Y_fitted_df].
    match type of Hrun with
    | _ ?sB' = (_, ?sF, _) => assert (sF = sB') as Heq
    end.
    { run_step Hrun Hs1; apply lift_eq in Hs1; simplify_eq; [|done].
      run_step Hrun Hs2; apply lift_eq in Hs2; simplify_eq; [|done].
      unfold mret, M_ret in Hrun. by simplify_eq. }
    rewrite Heq in Hsome.
    destruct (Hbranch Hsome) as (f1 & f2 & ? & ? & ? & ?).
    exists f1, f2. split_and!; try done; rewrite !elem_of_app; tauto.
  - destruct (Hbranch Hsome) as (f1 & f2 & ? & ? & ? & ?).
    exists f1, f2. split_and!; try done; rewrite !elem_of_app; tauto.
Qed.
End keeps_facts.

(** ** The evaluation helpers *)
Section score_facts.
Context `{ScoreLibs}.

Lemma _get_hierarchical_scrps_Ok hier_idxs Y Yq_hat q_to_pred scrps_list :
  _get_hierarchical_scrps hier_idxs Y Yq_hat q_to_pred = Ok scrps_list →
  Forall2 (λ idxs scrps, scrps_of Y Yq_hat q_to_pred idxs (Ok scrps))
    hier_idxs scrps_list.
Proof.
  revert scrps_list.
  induction hier_idxs as [|idxs hier_idxs IH]; intros l; simpl.
  { intros [= <-]. constructor. }
  destruct (take_series Y idxs) as [y|] eqn:Hy; [|done].
  destruct (take_series Yq_hat idxs) as [yq|] eqn:Hyq; [|done].
  destruct (scaled_crps y yq q_to_pred) as [scrps|] eqn:Hs; [|done].
  destruct (_get_hierarchical_scrps hier_idxs Y Yq_hat q_to_pred)
    as [l'|]; [|done].
  intros [= <-]. constructor; [|by apply IH]. simpl. eauto.
Qed.

Lemma _get_hierarchical_msse_Ok hier_idxs Y Y_hat Y_train msse_list :
  _get_hierarchical_msse hier_idxs Y Y_hat Y_train = Ok msse_list →
  Forall2 (λ idxs crps, msse_of Y Y_hat Y_train idxs (Ok crps))
    hier_idxs msse_list.
Proof.
  revert msse_list.
  induction hier_idxs as [|idxs hier_idxs IH]; intros l; simpl.
  { intros [= <-]. constructor. }
  destruct (take_series Y idxs) as [y|] eqn:Hy; [|done].
  destruct (take_series Y_hat idxs) as [y_hat|] eqn:Hyh; [|done].
  destruct (take_series Y_train idxs) as [y_train|] eqn:Hyt; [|done].
  destruct (msse y y_hat y_train) as [crps|] eqn:Hs; [|done].
  destruct (_get_hierarchical_msse hier_idxs Y Y_hat Y_train)
    as [l'|]; [|done].
  intros [= <-]. constructor; [|by apply IH]. simpl. eauto 10.
Qed.

Lemma _get_hierarchical_scrps_Raise hier_idxs Y Yq_hat q_to_pred e :
  _get_hierarchical_scrps hier_idxs Y Yq_hat q_to_pred = Raise e →
  ∃ n idxs,
    hier_idxs !! n = Some idxs ∧
    scrps_of Y Yq_hat q_to_pred idxs (Raise e) ∧
    ∀ m, m < n →
      ∃ idxs' scrps, hier_idxs !! m = Some idxs' ∧
                     scrps_of Y Yq_hat q_to_pred idxs' (Ok scrps).
Proof.
  induction hier_idxs as [|idxs hier_idxs IH]; simpl; [done|].
  destruct (take_series Y idxs) as [y|e'] eqn:Hy.
  2:{ intros [= ->]. exists 0, idxs. split_and!; [done|by left|lia]. }
  destruct (take_series Yq_hat idxs) as [yq|e'] eqn:Hyq.
  2:{ intros [= ->]. exists 0, idxs.
      split_and!; [done|right; left; eauto|lia]. }
  destruct (scaled_crps y yq q_to_pred) as [scrps|e'] eqn:Hs.
  2:{ intros [= ->]. exists 0, idxs.
      split_and!; [done|right; right; eauto|lia]. }
  destruct (_get_hierarchical_scrps hier_idxs Y Yq_hat q_to_pred)
    as [l|e']; [done|].
  intros [= ->]. destruct (IH eq_refl) as (n & idxs' & Hn & Hfail & Hbefore).
  exists (S n), idxs'. split_and!; [done..|].
  intros [|m] Hm.
  - exists idxs, scrps. split; [done|]. simpl. eauto.
  - apply Hbefore. lia.
Qed.

Lemma _get_hierarchical_msse_Raise hier_idxs Y Y_hat Y_train e :
  _get_hierarchical_msse hier_idxs Y Y_hat Y_train = Raise e →
  ∃ n idxs,
    hier_idxs !! n = Some idxs ∧
    msse_of Y Y_hat Y_train idxs (Raise e) ∧
    ∀ m, m < n →
      ∃ idxs' crps, hier_idxs !! m = Some idxs' ∧
                    msse_of Y Y_hat Y_train idxs' (Ok crps).
Proof.
  induction hier_idxs as [|idxs hier_idxs IH]; simpl; [done|].
  destruct (take_series Y idxs) as [y|e'] eqn:Hy.
  2:{ intros [= ->]. exists 0, idxs. split_and!; [done|by left|lia]. }
  destruct (take_series Y_hat idxs) as [y_hat|e'] eqn:Hyh.
  2:{ intros [= ->]. exists 0, idxs.
      split_and!; [done|right; left; eauto|lia]. }
  destruct (take_series Y_train idxs) as [y_train|e'] eqn:Hyt.
  2:{ intros [= ->]. exists 0, idxs.
      split_and!; [done|right; right; left; eauto|lia]. }
  destruct (msse y y_hat y_train) as [crps|e'] eqn:Hs.
  2:{ intros [= ->]. exists 0, idxs.
      split_and!; [done|right; right; right; eauto 10|lia]. }
  destruct (_get_hierarchical_msse hier_idxs Y Y_hat Y_train)
    as [l|e']; [done|].
  intros [= ->]. destruct (IH eq_refl) as (n & idxs' & Hn & Hfail & Hbefore).
  exists (S n), idxs'. split_and!; [done..|].
  intros [|m] Hm.
  - exists idxs, crps. split; [done|]. simpl. eauto 10.
  - apply Hbefore. lia.
Qed.
End score_facts.

(** ** Further properties of the notebook *)
Section more_properties.
Context `{Libs, ScoreLibs}.

(** X1. [_sort_hier_df] returns the rows it is given, each once, with
    [unique_id] turned into a category of [S_df.index] (NaN when it is
    not in the index), in the order of the index and by [ds] within a
    series, the rows of one series and date in the order they had.  It
    raises a [ValueError] exactly when [S_df.index] has a repeated
    entry. *)
Theorem X1_sort_hier_df_sorted Y_df S_df :
  let index := S_index S_df in
  match _sort_hier_df Y_df S_df with
  | Ok sorted =>
      NoDup index ∧
      sorted ≡ₚ item_set_categories index Y_df ∧
      StronglySorted (by_key lex2 (item_key index)) sorted ∧
      Forall (λ r, match io_unique_id r with
                   | Some u => u ∈ index
                   | None => True
                   end) sorted ∧
      ∀ u d,
        filter (λ r, io_unique_id r = u ∧ io_ds r = d) sorted
        = filter (λ r, io_unique_id r = u ∧ io_ds r = d)
            (item_set_categories index Y_df)
  | Raise e => ¬NoDup index ∧ ∃ msg, e = ValueError msg
  end.
Proof.
  intros index. unfold _sort_hier_df, check_categories. fold index.
  case_decide as Hnd; [|by eauto].
  split_and!.
  - done.
  - apply sort_values_Permutation.
  - apply sort_values_sorted; apply _.
  - rewrite sort_values_Permutation. apply item_set_categories_known.
  - intros u d. apply sort_values_filter.
    intros a b [Hu Hd] [Hu' Hd']. unfold by_key, item_key, lex2. simpl.
    rewrite Hu, Hu', Hd, Hd'. right. done.
Qed.

(** X2. [_sort_hier_df] is idempotent: sorting its own result again,
    against the same [S_df], gives that result back. *)
Theorem X2_sort_hier_df_idemp Y_df S_df sorted :
  _sort_hier_df Y_df S_df = Ok sorted →
  _sort_hier_df sorted S_df = Ok sorted.
Proof.
  intros Hs. destruct (_sort_hier_df_Ok _ _ _ Hs) as [Hnd Heq].
  rewrite Heq at 2. clear Hs. subst sorted.
  unfold _sort_hier_df, check_categories. rewrite decide_True by done.
  f_equal.
  rewrite item_set_categories_id.
  - apply sort_values_id, sort_values_sorted; apply _.
  - rewrite sort_values_Permutation. unfold item_set_categories.
    apply Forall_fmap, Forall_true. intros r. simpl.
    apply set_categories_idemp.
Qed.

(** X3. [_nonzero_indexes_by_row] returns one list per row of the
    matrix; the list of a row holds exactly the positions of its nonzero
    entries, in increasing order. *)
Theorem X3_nonzero_indexes_by_row (M : list (list Z)) :
  length (_nonzero_indexes_by_row M) = length M ∧
  ∀ i row, M !! i = Some row →
    ∃ l, _nonzero_indexes_by_row M !! i = Some l ∧
         StronglySorted Z.lt l ∧
         ∀ k, k ∈ l ↔ ∃ j x, k = Z.of_nat j ∧ row !! j = Some x ∧ x ≠ 0%Z.
Proof.
  split.
  - unfold _nonzero_indexes_by_row. by rewrite length_fmap, length_seq.
  - intros i row Hi. exists (np_nonzero row). split_and!.
    + by apply _nonzero_indexes_by_row_lookup.
    + apply np_nonzero_sorted.
    + apply np_nonzero_elem.
Qed.

(** X4. [hier_linked_idxs] of [load_item_data] has one list per column
    of [S_df], that is per bottom-level series; the list of column [j]
    holds, in increasing order, exactly the positions of the series (the
    rows of [S_df]) whose entry in column [j] is not zero.  The rows of
    [S_df.values] all have the length of [S_df.columns]. *)
Theorem X4_hier_linked_idxs item dataset directory s data s0 t0 :
  load_item_data item dataset directory s = (Ok data, s0, t0) →
  let S_df := data_S_df data in
  Forall (λ row, length row = length (S_columns S_df)) (S_values S_df) →
  length (data_hier_linked_idxs data) = length (S_columns S_df) ∧
  ∀ j, j < length (S_columns S_df) →
    ∃ l, data_hier_linked_idxs data !! j = Some l ∧
         StronglySorted Z.lt l ∧
         ∀ k, k ∈ l ↔
           ∃ i row x, k = Z.of_nat i ∧ S_values S_df !! i = Some row ∧
                      row !! j = Some x ∧ x ≠ 0%Z.
Proof.
  intros (info & raw & parsed & sorted & _ & _ & _ & _ & _ & _ & _ & _ & _
          & _ & _ & _ & ->)%load_item_data_Ok S_df Hrect.
  fold S_df. split.
  - unfold _nonzero_indexes_by_row, transpose.
    by rewrite length_fmap, length_seq, length_fmap, length_seq.
  - intros j Hj. eexists. split_and!.
    + apply _nonzero_indexes_by_row_lookup, transpose_lookup, Hj.
    + apply np_nonzero_sorted.
    + intros k. rewrite np_nonzero_elem. split.
      * intros (i & x & -> & Hi & Hx).
        rewrite list_lookup_fmap in Hi.
        destruct (S_values S_df !! i) as [row|] eqn:Hrow; simplify_eq/=.
        exists i, row, (row !!! j). split_and!; try done.
        apply list_lookup_lookup_total_lt.
        rewrite Forall_forall in Hrect. rewrite Hrect; [done|].
        by eapply list_elem_of_lookup_2.
      * intros (i & row & x & -> & Hrow & Hx & Hne).
        exists i, x. split_and!; try done.
        rewrite list_lookup_fmap, Hrow. simpl.
        by rewrite (list_lookup_total_correct _ _ _ Hx).
Qed.

(** X5. [hier_levels] and [hier_idxs] of [load_item_data] go together:
    both have one entry for ['Overall'] followed by one per tag, in the
    order of the tags.  The first list of positions is [0 .. len(S_df)-1];
    the list of a tag gives, for each series of the tag, its position in
    [S_df.index], which has no repeated entry, and [-1] for a series that
    is not in the index. *)
Theorem X5_hier_idxs item dataset directory s data s0 t0 :
  load_item_data item dataset directory s = (Ok data, s0, t0) →
  let index := S_index (data_S_df data) in
  NoDup index ∧
  length (data_hier_levels data) = S (length (data_tags data)) ∧
  length (data_hier_idxs data) = S (length (data_tags data)) ∧
  data_hier_levels data !! 0 = Some "Overall" ∧
  (∃ idxs, data_hier_idxs data !! 0 = Some idxs ∧
           length idxs = length index ∧
           ∀ i, i < length index → idxs !! i = Some (Z.of_nat i)) ∧
  ∀ n level members, data_tags data !! n = Some (level, members) →
    data_hier_levels data !! S n = Some level ∧
    ∃ idxs, data_hier_idxs data !! S n = Some idxs ∧
            length idxs = length members ∧
            ∀ p m, members !! p = Some m →
              ∃ k, idxs !! p = Some k ∧
                   if decide (m ∈ index)
                   then (0 ≤ k)%Z ∧ index !! Z.to_nat k = Some m
                   else k = (-1)%Z.
Proof.
  intros Hload index.
  destruct (load_item_data_sorted _ _ _ _ _ _ _ Hload) as [Hnd _].
  apply load_item_data_Ok in Hload
    as (info & raw & parsed & sorted & _ & _ & _ & _ & _ & _ & _ & _ & _
        & _ & -> & -> & _).
  fold index. split_and!; simpl.
  - done.
  - by rewrite length_fmap.
  - by rewrite length_fmap.
  - done.
  - eexists. split; [done|]. unfold np_arange. split.
    + by rewrite length_fmap, length_seq.
    + intros i Hi. by rewrite list_lookup_fmap, lookup_seq_lt.
  - intros n level members Hn. rewrite !list_lookup_fmap.
    unfold tags_t in *. rewrite Hn. simpl.
    split; [done|]. eexists. split; [done|]. split.
    + unfold get_indexer. by rewrite length_fmap.
    + intros p m Hp. by apply get_indexer_lookup.
Qed.

(** X6. The table [load_item_data] returns holds the stored rows of the
    requested item and no other: every row has the [item_id] asked for,
    and the rows are, up to their order, the rows of the loaded table with
    that [item_id], each with its label and with its [hier_id] as
    [unique_id] (NaN when it is not in [S_df.index]). *)
Theorem X6_load_item_data_rows item dataset directory s data s0 t0 :
  load_item_data item dataset directory s = (Ok data, s0, t0) →
  ∃ raw,
    FavoritaData_load (disk s) directory dataset
      = Ok (raw, data_S_df data, data_tags data) ∧
    Forall (λ r, io_item_id r = item) (data_Y_df data) ∧
    (λ r, (io_label r, io_unique_id r)) <$> data_Y_df data
    ≡ₚ (λ r, (raw_label r,
              set_categories (S_index (data_S_df data)) (hier_id r)))
         <$> filter (λ r, raw_item_id r = item) raw.
Proof.
  intros (info & raw & parsed & sorted & _ & Hload & Hparse & Hsort & Hnoise
          & _)%load_item_data_Ok.
  exists raw. split; [done|].
  apply _sort_hier_df_Ok in Hsort as [_ ->].
  apply add_noise_Ok in Hnoise as (_ & Hl & Hu & _ & Hi & _).
  apply parse_ds_Forall2 in Hparse.
  split.
  - apply Forall_fmap with (f := io_item_id) (P := λ i, i = item).
    rewrite Hi. apply Forall_fmap. rewrite sort_values_Permutation.
    unfold item_set_categories. apply Forall_fmap, Forall_fmap. simpl.
    apply Forall_forall. by intros r [? _]%list_elem_of_filter.
  - transitivity
      (zip (io_label <$> data_Y_df data) (io_unique_id <$> data_Y_df data)).
    { clear. induction (data_Y_df data); simpl; [done|]. by f_equiv. }
    rewrite Hl, Hu.
    set (srt := sort_values _ _).
    transitivity ((λ r, (io_label r, io_unique_id r)) <$> srt).
    { clear. induction srt; simpl; [done|]. by f_equiv. }
    unfold srt. rewrite sort_values_Permutation.
    unfold item_set_categories. rewrite <-!list_fmap_compose.
    apply eq_subrelation; [apply _|]. symmetry.
    eapply Forall2_filter_fmap; [|exact Hparse].
    simpl. intros a b (Hl' & Hi' & Hh & _). rewrite Hl', Hi', Hh. done.
Qed.

(** X7. For a data set that [FavoritaInfo] does not know, a run ends
    in the exception of the lookup at once: nothing is loaded, fitted or
    written, the random state is as before, and only the timer of the
    first block reports (when verbose). *)
Theorem X7_unknown_dataset LEVEL im item dataset verbose seed s :
  FavoritaInfo dataset = None →
  ∃ e,
    run_baselines LEVEL im item dataset verbose seed s
    = (Raise e, s,
       if verbose then [EvCodeTimer "Read and Parse data   "] else []).
Proof.
  intros Hinfo. eexists.
  unfold run_baselines, read_and_parse, load_item_data, with_CodeTimer,
    mbind, M_bind, lift.
  rewrite Hinfo. reflexivity.
Qed.

(** X8. When the test frame comes out empty, because the horizon of the
    data set is 0 or because no row of the item has a series of
    [S_df.index] (in particular when the item has no rows), a run ends in
    the [ValueError] of [min] on an empty column, in the first block:
    after the load, before anything is fitted or written. *)
Theorem X8_empty_test_frame LEVEL im item dataset verbose seed s
    data s0 t0 :
  load_item_data item dataset "./data/favorita" s = (Ok data, s0, t0) →
  data_horizon data = 0
  ∨ Forall (λ r, io_unique_id r = None) (data_Y_df data) →
  ∃ msg,
    run_baselines LEVEL im item dataset verbose seed s
    = (Raise (ValueError msg), s0,
       t0 ++ if verbose then [EvCodeTimer "Read and Parse data   "] else []).
Proof.
  intros Hload Hempty.
  assert (groupby_tail (data_horizon data) (select_columns (data_Y_df data))
          = []) as Htail.
  { apply groupby_tail_nil. destruct Hempty as [?|Hnone]; [by left|right].
    unfold select_columns. by apply Forall_fmap. }
  eexists.
  unfold run_baselines, read_and_parse, with_CodeTimer, mbind, M_bind.
  rewrite Hload, Htail. simpl. by rewrite app_nil_r.
Qed.

(** X9. With half a cache, [Y_hat.csv] of the item there and readable
    and [Y_fitted.csv] missing, a run whose first block succeeds ends in
    [FileNotFoundError] for [Y_fitted.csv]: it does not fall back to
    fitting, and it leaves the disk as it was. *)
Theorem X9_partial_cache LEVEL im item dataset verbose seed s v s1 t1 c f :
  read_and_parse item dataset s = (Ok v, s1, t1) →
  disk s !! item_path dataset item = Some Dir →
  disk s !! yhat_file dataset item = Some (File c) →
  parse_csv c = Ok f →
  disk s !! yfitted_file dataset item = None →
  disk s1 = disk s ∧
  run_baselines LEVEL im item dataset verbose seed s
  = (Raise (FileNotFoundError (yfitted_file dataset item)), s1,
     t1 ++ (if verbose then [EvCodeTimer "Read and Parse data   "] else [])
        ++ (if verbose
            then [EvCodeTimer ("Fit/Predict Model" +:+ tab +:+ "  ")]
            else [])).
Proof.
  intros Hrp Hdir Hhat Hparse Hfit.
  destruct (read_and_parse_run _ _ _ _ _ _ Hrp) as [Hd _].
  split; [done|].
  rewrite <-Hd in Hdir, Hhat, Hfit.
  unfold run_baselines, with_CodeTimer, mbind, M_bind.
  rewrite Hrp.
  rewrite (fit_predict_partial LEVEL im _ _ v _ _ _ Hdir Hhat Hparse Hfit).
  simpl. by rewrite <-app_assoc.
Qed.

(** X10. A successful run leaves the cache of its item behind: after it
    [Y_hat.csv] and [Y_fitted.csv] are files, and when the run had no
    cache they hold the CSV text of what [forecast] and
    [forecast_fitted_values] returned, after [reset_index].  So a later
    run for the same item and data set, with any interval method, fits
    nothing. *)
Theorem X10_rerun_uses_cache LEVEL im item dataset verbose seed
    s res s' t :
  run_baselines LEVEL im item dataset verbose seed s = (Ok res, s', t) →
  let yhat := yhat_file dataset item in
  let yfitted := yfitted_file dataset item in
  (∃ c1 c2,
     disk s' !! yhat = Some (File c1) ∧
     disk s' !! yfitted = Some (File c2) ∧
     (disk s !! yhat = None →
      ∃ fcst h f1 f2,
        EvForecast fcst h true LEVEL ∈ t ∧
        forecast fcst h true LEVEL = Ok f1 ∧
        forecast_fitted_values fcst h true LEVEL = Ok f2 ∧
        c1 = frame_to_csv (frame_reset_index f1) ∧
        c2 = frame_to_csv (frame_reset_index f2))) ∧
  ∀ LEVEL' im' verbose' seed' e,
    e ∈ events_of (run_baselines LEVEL' im' item dataset verbose' seed' s') →
    ¬is_fit e.
Proof.
  intros Hrun yhat yfitted. destruct res as [[rec test] train].
  destruct (run_baselines_files _ _ _ _ _ _ _ _ _ _ _ _ Hrun)
    as (c1 & c2 & _ & Hc1 & Hc2 & Hnew).
  split; [by exists c1, c2|].
  intros LEVEL' im' verbose' seed' e He Hfit.
  destruct (run_baselines_fit_event _ _ _ _ _ _ _ _ He Hfit)
    as (_ & _ & _ & _ & Hnone & _).
  congruence.
Qed.

(** X11. A run replaces or removes nothing on the disk but the three
    files of its item: every directory stays, and every file other than
    [Y_hat.csv], [Y_fitted.csv] and [{intervals_method}_rec.csv] of the
    item stays with its content, however the run ends.  The disk is
    changed by [os.makedirs] and [to_csv] only; the calls to the
    libraries are taken to leave it alone. *)
Theorem X11_other_entries_kept LEVEL im item dataset verbose seed s p e :
  disk s !! p = Some e →
  e = Dir ∨ p ∉ [yhat_file dataset item; yfitted_file dataset item;
                 yrec_file im dataset item] →
  disk (state_of (run_baselines LEVEL im item dataset verbose seed s)) !! p
  = Some e.
Proof.
  intros Hp Hc.
  destruct (run_baselines _ _ _ _ _ _ s) as [[o s'] t] eqn:Hrun.
  unfold state_of. simpl. by eapply keeps_run_baselines.
Qed.

(** X12. [verbose] and [seed] change nothing but the reports of
    [CodeTimer]: a run gives the same result and the same state as the
    quiet run, with any seed, and its log without the timer reports is
    the log of the quiet run, which has no timer report. *)
Theorem X12_verbose_only_timers LEVEL im item dataset verbose seed seed' s :
  let r := run_baselines LEVEL im item dataset verbose seed s in
  let quiet_r := run_baselines LEVEL im item dataset false seed' s in
  result_of r = result_of quiet_r ∧ state_of r = state_of quiet_r ∧
  events_of quiet_r = filter (λ e, ¬is_timer e) (events_of r).
Proof.
  intros r r0. destruct r as [[o s'] t] eqn:Hr.
  destruct r0 as [[o0 s0'] t0] eqn:Hr0. unfold r, r0 in *. clear r r0.
  unfold result_of, state_of, events_of. simpl.
  apply run_baselines_run in Hr as (o1 & s1 & t1 & Hrp & Hr).
  apply run_baselines_run in Hr0 as (o1' & s1' & t1' & Hrp' & Hr0).
  rewrite Hrp in Hrp'. simplify_eq.
  pose proof (logs_read_and_parse _ _ _ _ _ _ Hrp) as Ht1.
  destruct o1' as [v|].
  2:{ simplify_eq. split_and!; try done.
      by rewrite filter_app, filter_timer, filter_Forall_id, !app_nil_r. }
  destruct Hr as (o2 & s2 & t2 & Hfp & Hr).
  destruct Hr0 as (o2' & s2' & t2' & Hfp' & Hr0).
  rewrite Hfp in Hfp'. simplify_eq.
  pose proof (logs_fit_predict _ _ _ _ _ _ _ _ _ Hfp) as Ht2.
  destruct o2' as [b|].
  2:{ simplify_eq. split_and!; try done.
      by rewrite !filter_app, !filter_timer, !filter_Forall_id,
        !app_nil_r. }
  destruct Hr as (o3 & s3 & t3 & Hrc & Hr).
  destruct Hr0 as (o3' & s3' & t3' & Hrc' & Hr0).
  rewrite Hrc in Hrc'. simplify_eq.
  pose proof (logs_reconcile_predictions _ _ _ _ _ _ _ _ Hrc) as Ht3.
  split_and!; try done.
  by rewrite !filter_app, !filter_timer, !filter_Forall_id, !app_nil_r.
Qed.

(** X13. When the script cell completes, its parameters were valid and
    both items have been run, 112830 first and 1916577 from the state
    the first run left.  At the end the disk holds the reconciled CSV of
    each item, which is the frame its run returned, and the two cache
    files of each item; the files of the first item are as its own run
    left them: the run of the second item has not touched them. *)
Theorem X13_script_writes_both_items verbose im dataset s s' t :
  script verbose im dataset s = (Ok (), s', t) →
  im ∈ ["bootstrap"; "normality"; "permbu"] ∧
  dataset ∈ available_datasets ∧
  ∃ rec1 test1 train1 s1 t1 rec2 test2 train2 t2 c1 c2 d1 d2,
    run_baselines LEVEL_default im 112830 dataset verbose 0 s
      = (Ok (rec1, test1, train1), s1, t1) ∧
    run_baselines LEVEL_default im 1916577 dataset verbose 0 s1
      = (Ok (rec2, test2, train2), s', t2) ∧
    disk s1 !! yrec_file im dataset 112830 = Some (File (rec_to_csv rec1)) ∧
    disk s' !! yrec_file im dataset 112830 = Some (File (rec_to_csv rec1)) ∧
    disk s1 !! yhat_file dataset 112830 = Some (File c1) ∧
    disk s' !! yhat_file dataset 112830 = Some (File c1) ∧
    disk s1 !! yfitted_file dataset 112830 = Some (File c2) ∧
    disk s' !! yfitted_file dataset 112830 = Some (File c2) ∧
    disk s' !! yrec_file im dataset 1916577 = Some (File (rec_to_csv rec2)) ∧
    disk s' !! yhat_file dataset 1916577 = Some (File d1) ∧
    disk s' !! yfitted_file dataset 1916577 = Some (File d2).
Proof.
  intros Hrun. unfold script in Hrun.
  run_step Hrun Ha1; simplify_eq.
  apply py_assert_Ok in Ha1 as (Him%bool_decide_eq_true & -> & ->).
  run_step Hrun Ha2; simplify_eq.
  apply py_assert_Ok in Ha2 as (Hds%bool_decide_eq_true & -> & ->).
  split; [done|]. split; [done|].
  run_step Hrun Hemit; run_prim; simplify_eq.
  run_step Hrun Hdisk; run_prim; simplify_eq.
  run_step Hrun Hload; run_prim; simplify_eq.
  run_step Hrun Hpr1; run_prim; simplify_eq.
  run_step Hrun Hpr2; run_prim; simplify_eq.
  cbn [for_each] in Hrun.
  run_step Hrun Hfirst; simplify_eq.
  run_step Hfirst Hrun1; run_prim; simplify_eq.
  run_step Hrun Hsecond; run_prim; simplify_eq.
  run_step Hsecond Hrun2; run_prim; simplify_eq.
  repeat match goal with
         | H : run_baselines _ _ _ _ _ _ _ = (Ok ?res, _, _) |- _ =>
             is_var res; destruct res as [[??]?]
         end.
  destruct (run_baselines_files _ _ _ _ _ _ _ _ _ _ _ _ Hrun1)
    as (c1 & c2 & Hc & Hc1 & Hc2 & _).
  destruct (run_baselines_files _ _ _ _ _ _ _ _ _ _ _ _ Hrun2)
    as (d1 & d2 & Hd & Hd1 & Hd2 & _).
  pose proof (keeps_run_baselines _ _ _ _ _ _ _ _ _ _ Hrun2) as Hkept.
  eexists _, _, _, _, _, _, _, _, _, c1, c2, d1, d2.
  split; [exact Hrun1|]. split; [exact Hrun2|].
  split_and!; try done; apply Hkept; try done; right;
    unfold yrec_file, yhat_file, yfitted_file;
    rewrite !elem_of_cons, elem_of_nil;
    intros [?|[?|[?|[]]]]; by eapply item_files_ne.
Qed.

(** X14. [_get_hierarchical_scrps] gives one score per list of
    [hier_idxs], in their order: the score of a list is [scaled_crps] of
    the two arrays restricted to the positions of the list.  It raises
    what the first failing step raises, a restriction or the loss, the
    lists before it having been scored. *)
Theorem X14_hierarchical_scrps_per_level hier_idxs Y Yq_hat q_to_pred :
  match _get_hierarchical_scrps hier_idxs Y Yq_hat q_to_pred with
  | Ok scrps_list =>
      Forall2 (λ idxs scrps, scrps_of Y Yq_hat q_to_pred idxs (Ok scrps))
        hier_idxs scrps_list
  | Raise e =>
      ∃ done idxs rest scrps_list,
        hier_idxs = done ++ idxs :: rest ∧
        Forall2 (λ idxs scrps, scrps_of Y Yq_hat q_to_pred idxs (Ok scrps))
          done scrps_list ∧
        scrps_of Y Yq_hat q_to_pred idxs (Raise e)
  end.
Proof.
  induction hier_idxs as [|idxs hier_idxs IH]; simpl; [constructor|].
  destruct (take_series Y idxs) as [y|e] eqn:Hy.
  2:{ exists [], idxs, hier_idxs, []. split_and!; [done|constructor|].
      simpl. by left. }
  destruct (take_series Yq_hat idxs) as [yq|e] eqn:Hyq.
  2:{ exists [], idxs, hier_idxs, []. split_and!; [done|constructor|].
      simpl. right; left. eauto. }
  destruct (scaled_crps y yq q_to_pred) as [scrps|e] eqn:Hs.
  2:{ exists [], idxs, hier_idxs, []. split_and!; [done|constructor|].
      simpl. right; right. eauto. }
  assert (scrps_of Y Yq_hat q_to_pred idxs (Ok scrps)) as Hfirst.
  { simpl. eauto. }
  destruct (_get_hierarchical_scrps hier_idxs Y Yq_hat q_to_pred)
    as [l|e].
  - by constructor.
  - destruct IH as (done & idxs' & rest & l & -> & Hdone & Hfail).
    exists (idxs :: done), idxs', rest, (scrps :: l).
    split_and!; [done|by constructor|done].
Qed.

(** X15. [_get_hierarchical_msse] gives one score per list of
    [hier_idxs], in their order: the score of a list is [msse] of the
    three arrays restricted to the positions of the list.  It raises what
    the first failing step raises, the lists before it having been
    scored. *)
Theorem X15_hierarchical_msse_per_level hier_idxs Y Y_hat Y_train :
  match _get_hierarchical_msse hier_idxs Y Y_hat Y_train with
  | Ok msse_list =>
      Forall2 (λ idxs crps, msse_of Y Y_hat Y_train idxs (Ok crps))
        hier_idxs msse_list
  | Raise e =>
      ∃ done idxs rest msse_list,
        hier_idxs = done ++ idxs :: rest ∧
        Forall2 (λ idxs crps, msse_of Y Y_hat Y_train idxs (Ok crps))
          done msse_list ∧
        msse_of Y Y_hat Y_train idxs (Raise e)
  end.
Proof.
  induction hier_idxs as [|idxs hier_idxs IH]; simpl; [constructor|].
  destruct (take_series Y idxs) as [y|e] eqn:Hy.
  2:{ exists [], idxs, hier_idxs, []. split_and!; [done|constructor|].
      simpl. by left. }
  destruct (take_series Y_hat idxs) as [y_hat|e] eqn:Hyh.
  2:{ exists [], idxs, hier_idxs, []. split_and!; [done|constructor|].
      simpl. right; left. eauto. }
  destruct (take_series Y_train idxs) as [y_train|e] eqn:Hyt.
  2:{ exists [], idxs, hier_idxs, []. split_and!; [done|constructor|].
      simpl. right; right; left. eauto. }
  destruct (msse y y_hat y_train) as [crps|e] eqn:Hs.
  2:{ exists [], idxs, hier_idxs, []. split_and!; [done|constructor|].
      simpl. right; right; right. eauto 10. }
  assert (msse_of Y Y_hat Y_train idxs (Ok crps)) as Hfirst.
  { simpl. eauto 10. }
  destruct (_get_hierarchical_msse hier_idxs Y Y_hat Y_train) as [l|e].
  - by constructor.
  - destruct IH as (done & idxs' & rest & l & -> & Hdone & Hfail).
    exists (idxs :: done), idxs', rest, (crps :: l).
    split_and!; [done|by constructor|done].
Qed.

(** X16. With [hier_idxs] of [load_item_data], what the two evaluation
    helpers do goes by the entries of [hier_levels], of which there is
    always one (['Overall']).  A helper that returns gives one score per
    level, the score at the place of a level being the loss over the
    positions [hier_idxs] has at that place.  A helper that raises raises
    what the restriction or the loss raised at one of the levels, the
    levels before it having been scored. *)
Theorem X16_scores_align_with_levels item dataset directory s data s0 t0
    Y Yq_hat q_to_pred Y_hat Y_train :
  load_item_data item dataset directory s = (Ok data, s0, t0) →
  let levels := data_hier_levels data in
  let hier_idxs := data_hier_idxs data in
  levels ≠ [] ∧ length hier_idxs = length levels ∧
  match _get_hierarchical_scrps hier_idxs Y Yq_hat q_to_pred with
  | Ok scrps_list =>
      length scrps_list = length levels ∧
      ∀ n level, levels !! n = Some level →
        ∃ idxs scrps,
          hier_idxs !! n = Some idxs ∧ scrps_list !! n = Some scrps ∧
          scrps_of Y Yq_hat q_to_pred idxs (Ok scrps)
  | Raise e =>
      ∃ n level idxs,
        levels !! n = Some level ∧ hier_idxs !! n = Some idxs ∧
        scrps_of Y Yq_hat q_to_pred idxs (Raise e) ∧
        ∀ m, m < n →
          ∃ idxs' scrps, hier_idxs !! m = Some idxs' ∧
                         scrps_of Y Yq_hat q_to_pred idxs' (Ok scrps)
  end ∧
  match _get_hierarchical_msse hier_idxs Y Y_hat Y_train with
  | Ok msse_list =>
      length msse_list = length levels ∧
      ∀ n level, levels !! n = Some level →
        ∃ idxs crps,
          hier_idxs !! n = Some idxs ∧ msse_list !! n = Some crps ∧
          msse_of Y Y_hat Y_train idxs (Ok crps)
  | Raise e =>
      ∃ n level idxs,
        levels !! n = Some level ∧ hier_idxs !! n = Some idxs ∧
        msse_of Y Y_hat Y_train idxs (Raise e) ∧
        ∀ m, m < n →
          ∃ idxs' crps, hier_idxs !! m = Some idxs' ∧
                        msse_of Y Y_hat Y_train idxs' (Ok crps)
  end.
Proof.
  intros Hload levels hier_idxs.
  assert (levels ≠ [] ∧ length hier_idxs = length levels) as [Hne Hlen].
  { unfold levels, hier_idxs. apply load_item_data_Ok in Hload
      as (info & raw & parsed & sorted & _ & _ & _ & _ & _ & _ & _ & _ & _
          & _ & -> & -> & _).
    split; [done|]. simpl. by rewrite !length_fmap. }
  split; [done|]. split; [done|]. split.
  - destruct (_get_hierarchical_scrps hier_idxs Y Yq_hat q_to_pred)
      as [scrps_list|e] eqn:Hs.
    + apply _get_hierarchical_scrps_Ok in Hs.
      pose proof (Forall2_length _ _ _ Hs) as Hls.
      split; [congruence|]. intros n level Hn.
      destruct (lookup_lt_is_Some_2 hier_idxs n) as [idxs Hidxs].
      { rewrite Hlen. by eapply lookup_lt_Some. }
      destruct (Forall2_lookup_l _ _ _ _ _ Hs Hidxs) as (scrps & ? & ?).
      by exists idxs, scrps.
    + apply _get_hierarchical_scrps_Raise in Hs
        as (n & idxs & Hn & Hfail & Hbefore).
      destruct (lookup_lt_is_Some_2 levels n) as [level Hlevel].
      { rewrite <-Hlen. by eapply lookup_lt_Some. }
      by exists n, level, idxs.
  - destruct (_get_hierarchical_msse hier_idxs Y Y_hat Y_train)
      as [msse_list|e] eqn:Hm.
    + apply _get_hierarchical_msse_Ok in Hm.
      pose proof (Forall2_length _ _ _ Hm) as Hlm.
      split; [congruence|]. intros n level Hn.
      destruct (lookup_lt_is_Some_2 hier_idxs n) as [idxs Hidxs].
      { rewrite Hlen. by eapply lookup_lt_Some. }
      destruct (Forall2_lookup_l _ _ _ _ _ Hm Hidxs) as (crps & ? & ?).
      by exists idxs, crps.
    + apply _get_hierarchical_msse_Raise in Hm
        as (n & idxs & Hn & Hfail & Hbefore).
      destruct (lookup_lt_is_Some_2 levels n) as [level Hlevel].
      { rewrite <-Hlen. by eapply lookup_lt_Some. }
      by exists n, level, idxs.
Qed.

End more_properties.

(** ** The further properties at work on the small hierarchy *)

Lemma X2_sort_hier_df_idemp_witness :
  ∃ sorted,
    _sort_hier_df Fixture.Y_renamed Fixture.S_df = Ok sorted ∧
    _sort_hier_df sorted Fixture.S_df = Ok sorted.
Proof.
  destruct (_sort_hier_df Fixture.Y_renamed Fixture.S_df) as [sorted|e]
    eqn:Hs; [|vm_compute in Hs; discriminate].
  exists sorted. split; [reflexivity|].
  exact (X2_sort_hier_df_idemp _ _ _ Hs).
Defined.

Lemma X4_hier_linked_idxs_witness :
  ∃ data s0 t0,
    load_item_data 112830 "Favorita200" "./data/favorita" Fixture.fresh
      = (Ok data, s0, t0) ∧
    Forall (λ row, length row = 2) (S_values (data_S_df data)) ∧
    length (data_hier_linked_idxs data) = 2 ∧
    ∃ l, data_hier_linked_idxs data !! 1 = Some l ∧
         ∀ k, k ∈ l ↔
           ∃ i row x, k = Z.of_nat i ∧
                      S_values (data_S_df data) !! i = Some row ∧
                      row !! 1 = Some x ∧ x ≠ 0%Z.
Proof.
  destruct (load_item_data 112830 "Favorita200" "./data/favorita"
              Fixture.fresh) as [[[data|e] s0] t0] eqn:Hl;
    [|vm_compute in Hl; discriminate].
  exists data, s0, t0. split; [reflexivity|].
  assert (data_S_df data = Fixture.S_df) as HS.
  { pose proof Hl as Hl'. vm_compute in Hl'. injection Hl' as <- _ _.
    reflexivity. }
  assert (Forall (λ row, length row = length (S_columns (data_S_df data)))
            (S_values (data_S_df data))) as Hrect.
  { rewrite HS. repeat constructor. }
  destruct (X4_hier_linked_idxs 112830 "Favorita200" "./data/favorita"
              Fixture.fresh data s0 t0 Hl Hrect) as [Hlen Hcols].
  rewrite HS in Hrect, Hlen, Hcols |- *.
  split; [exact Hrect|]. split; [exact Hlen|].
  destruct (Hcols 1) as (l & Hl1 & _ & Hk); [simpl; lia|].
  exists l. split; [exact Hl1|exact Hk].
Defined.

Lemma X5_hier_idxs_witness :
  ∃ data s0 t0,
    load_item_data 112830 "Favorita200" "./data/favorita" Fixture.fresh
      = (Ok data, s0, t0) ∧
    data_tags data = Fixture.tags ∧
    length (data_hier_levels data) = 3 ∧
    length (data_hier_idxs data) = 3.
Proof.
  destruct (load_item_data 112830 "Favorita200" "./data/favorita"
              Fixture.fresh) as [[[data|e] s0] t0] eqn:Hl;
    [|vm_compute in Hl; discriminate].
  exists data, s0, t0. split; [reflexivity|].
  assert (data_tags data = Fixture.tags) as HT.
  { pose proof Hl as Hl'. vm_compute in Hl'. injection Hl' as <- _ _.
    reflexivity. }
  destruct (X5_hier_idxs 112830 "Favorita200" "./data/favorita"
              Fixture.fresh data s0 t0 Hl) as (_ & Hlev & Hidx & _).
  rewrite HT in Hlev, Hidx. split; [exact HT|]. split; [exact Hlev|exact Hidx].
Defined.

Lemma X6_load_item_data_rows_witness :
  ∃ data s0 t0,
    load_item_data 112830 "Favorita200" "./data/favorita" Fixture.fresh
      = (Ok data, s0, t0) ∧
    data_Y_df data ≠ [] ∧
    Forall (λ r, io_item_id r = 112830%Z) (data_Y_df data).
Proof.
  destruct (load_item_data 112830 "Favorita200" "./data/favorita"
              Fixture.fresh) as [[[data|e] s0] t0] eqn:Hl;
    [|vm_compute in Hl; discriminate].
  exists data, s0, t0. split; [reflexivity|].
  destruct (X6_load_item_data_rows 112830 "Favorita200" "./data/favorita"
              Fixture.fresh data s0 t0 Hl) as (raw & _ & Hitem & _).
  split; [|exact Hitem].
  vm_compute in Hl. injection Hl as <- _ _. discriminate.
Defined.

Lemma X7_unknown_dataset_witness :
  FavoritaInfo "Favorita500" = None ∧
  ∃ e,
    run_baselines LEVEL_default "bootstrap" 112830 "Favorita500" true 0
      Fixture.fresh
    = (Raise e, Fixture.fresh, [EvCodeTimer "Read and Parse data   "]).
Proof.
  assert (FavoritaInfo "Favorita500" = None) as Hnone
    by (vm_compute; reflexivity).
  split; [exact Hnone|].
  exact (X7_unknown_dataset LEVEL_default "bootstrap" 112830 "Favorita500"
           true 0 Fixture.fresh Hnone).
Defined.

Lemma X8_empty_test_frame_witness :
  ∃ data s0 t0,
    load_item_data 999 "Favorita200" "./data/favorita" Fixture.fresh
      = (Ok data, s0, t0) ∧
    data_Y_df data = [] ∧
    ∃ msg,
      run_baselines LEVEL_default "bootstrap" 999 "Favorita200" false 0
        Fixture.fresh
      = (Raise (ValueError msg), s0, t0 ++ []).
Proof.
  destruct (load_item_data 999 "Favorita200" "./data/favorita"
              Fixture.fresh) as [[[data|e] s0] t0] eqn:Hl;
    [|vm_compute in Hl; discriminate].
  exists data, s0, t0. split; [reflexivity|].
  assert (data_Y_df data = []) as Hnil.
  { pose proof Hl as Hl'. vm_compute in Hl'. injection Hl' as <- _ _.
    reflexivity. }
  split; [exact Hnil|].
  apply (X8_empty_test_frame LEVEL_default "bootstrap" 999 "Favorita200"
           false 0 Fixture.fresh data s0 t0 Hl).
  right. rewrite Hnil. constructor.
Defined.

Lemma X9_partial_cache_witness :
  ∃ v s1 t1,
    read_and_parse 112830 "Favorita200" Fixture.partial = (Ok v, s1, t1) ∧
    disk Fixture.partial !! yhat_file "Favorita200" 112830
      = Some (File "old_hat") ∧
    disk Fixture.partial !! yfitted_file "Favorita200" 112830 = None ∧
    run_baselines LEVEL_default "bootstrap" 112830 "Favorita200" false 0
      Fixture.partial
    = (Raise (FileNotFoundError (yfitted_file "Favorita200" 112830)), s1,
       t1 ++ [] ++ []).
Proof.
  destruct (read_and_parse 112830 "Favorita200" Fixture.partial)
    as [[[v|e] s1] t1] eqn:Hrp; [|vm_compute in Hrp; discriminate].
  exists v, s1, t1. split; [reflexivity|].
  assert (disk Fixture.partial !! item_path "Favorita200" 112830 = Some Dir)
    as Hdir by (vm_compute; reflexivity).
  assert (disk Fixture.partial !! yhat_file "Favorita200" 112830
          = Some (File "old_hat")) as Hhat by (vm_compute; reflexivity).
  assert (disk Fixture.partial !! yfitted_file "Favorita200" 112830 = None)
    as Hfit by (vm_compute; reflexivity).
  split; [exact Hhat|]. split; [exact Hfit|].
  destruct (X9_partial_cache LEVEL_default "bootstrap" 112830 "Favorita200"
              false 0 Fixture.partial v s1 t1 "old_hat" "old_hat"
              Hrp Hdir Hhat eq_refl Hfit) as [_ Hrun].
  exact Hrun.
Defined.

Lemma X10_rerun_uses_cache_witness :
  ∃ rec test train s' t,
    Fixture.run "bootstrap" Fixture.fresh = (Ok (rec, test, train), s', t) ∧
    disk Fixture.fresh !! yhat_file "Favorita200" 112830 = None ∧
    ∀ e,
      e ∈ events_of (run_baselines LEVEL_default "normality" 112830
                       "Favorita200" true 7 s') →
      ¬is_fit e.
Proof.
  destruct fresh_run_Ok as (rec & test & train & s' & t & Hrun).
  exists rec, test, train, s', t. split; [exact Hrun|].
  split; [vm_compute; reflexivity|].
  unfold Fixture.run in Hrun.
  destruct (X10_rerun_uses_cache LEVEL_default "bootstrap" 112830
              "Favorita200" false 0 Fixture.fresh _ s' t Hrun) as [_ Hno].
  apply Hno.
Defined.

Lemma X11_other_entries_kept_witness :
  disk Fixture.partial !! "./data/favorita/favorita.csv"
    = Some (File "raw") ∧
  disk (state_of (run_baselines LEVEL_default "bootstrap" 112830
                    "Favorita200" false 0 Fixture.partial))
    !! "./data/favorita/favorita.csv" = Some (File "raw").
Proof.
  assert (disk Fixture.partial !! "./data/favorita/favorita.csv"
          = Some (File "raw")) as Hp by (vm_compute; reflexivity).
  split; [exact Hp|].
  apply (X11_other_entries_kept LEVEL_default "bootstrap" 112830
           "Favorita200" false 0 Fixture.partial _ _ Hp).
  right.
  apply (bool_decide_unpack
           ("./data/favorita/favorita.csv"
            ∉ [yhat_file "Favorita200" 112830;
               yfitted_file "Favorita200" 112830;
               yrec_file "bootstrap" "Favorita200" 112830])).
  vm_compute. exact I.
Defined.

Lemma X13_script_writes_both_items_witness :
  ∃ s' t,
    script true "bootstrap" "Favorita200" Fixture.fresh = (Ok (), s', t) ∧
    ∃ rec1 test1 train1 s1 t1,
      run_baselines LEVEL_default "bootstrap" 112830 "Favorita200" true 0
        Fixture.fresh
      = (Ok (rec1, test1, train1), s1, t1) ∧
      disk s' !! yrec_file "bootstrap" "Favorita200" 112830
        = Some (File (rec_to_csv rec1)) ∧
      disk s' !! yhat_file "Favorita200" 112830
        = disk s1 !! yhat_file "Favorita200" 112830.
Proof.
  destruct (script true "bootstrap" "Favorita200" Fixture.fresh)
    as [[[[]|e] s'] t] eqn:Hs; [|vm_compute in Hs; discriminate].
  exists s', t. split; [reflexivity|].
  destruct (X13_script_writes_both_items true "bootstrap" "Favorita200"
              Fixture.fresh s' t Hs)
    as (_ & _ & rec1 & test1 & train1 & s1 & t1 & rec2 & test2 & train2
        & t2 & c1 & c2 & d1 & d2 & Hrun1 & _ & _ & Hrec & Hhat1 & Hhat
        & _).
  exists rec1, test1, train1, s1, t1.
  split; [exact Hrun1|]. split; [exact Hrec|]. by rewrite Hhat, Hhat1.
Defined.

Lemma X16_scores_align_with_levels_witness :
  ∃ data s0 t0 scrps_list msse_list,
    load_item_data 112830 "Favorita200" "./data/favorita" Fixture.fresh
      = (Ok data, s0, t0) ∧
    _get_hierarchical_scrps (data_hier_idxs data)
      [30; 10; 20]%Z [29; 11; 18]%Z [] = Ok scrps_list ∧
    _get_hierarchical_msse (data_hier_idxs data)
      [30; 10; 20]%Z [29; 11; 18]%Z [3; 1; 2]%Z = Ok msse_list ∧
    length (data_hier_levels data) = 3 ∧
    length scrps_list = 3 ∧ length msse_list = 3.
Proof.
  destruct (load_item_data 112830 "Favorita200" "./data/favorita"
              Fixture.fresh) as [[[data|e] s0] t0] eqn:Hl;
    [|vm_compute in Hl; discriminate].
  assert (data_hier_idxs data = [[0; 1; 2]; [0]; [1; 2]]%Z ∧
          length (data_hier_levels data) = 3) as [Hidx Hlev].
  { pose proof Hl as Hl'. vm_compute in Hl'. injection Hl' as <- _ _.
    split; reflexivity. }
  pose proof (X16_scores_align_with_levels 112830 "Favorita200"
                "./data/favorita" Fixture.fresh data s0 t0
                [30; 10; 20]%Z [29; 11; 18]%Z [] [29; 11; 18]%Z
                [3; 1; 2]%Z Hl) as (_ & _ & Hs & Hm).
  destruct (@_get_hierarchical_scrps Fixture.score_libs
              (data_hier_idxs data) [30; 10; 20]%Z [29; 11; 18]%Z [])
    as [scrps_list|e] eqn:Hscrps;
    [|rewrite Hidx in Hscrps; vm_compute in Hscrps; discriminate].
  destruct (@_get_hierarchical_msse Fixture.score_libs
              (data_hier_idxs data) [30; 10; 20]%Z [29; 11; 18]%Z
              [3; 1; 2]%Z)
    as [msse_list|e] eqn:Hmsse;
    [|rewrite Hidx in Hmsse; vm_compute in Hmsse; discriminate].
  exists data, s0, t0, scrps_list, msse_list.
  split; [reflexivity|]. split; [exact Hscrps|]. split; [exact Hmsse|].
  split; [exact Hlev|].
  destruct Hs as [Hls _]. destruct Hm as [Hlm _].
  rewrite Hlev in Hls, Hlm. split; [exact Hls|exact Hlm].
Defined.

